(** * Queue and listener subsystem of the incident-management demo

    Shallow embedding of [jobs_queue.py], [queue_listener.py] and
    [corrective_actions.py], with the part of Python's [json] module that
    [SQLiteQueue.enqueue] and [get_pending_message] call.  The definitions
    come first, the properties after them. *)

From Stdlib Require Import ZArith NArith Lia String Ascii Decimal DecimalN DecimalZ DecimalFacts.
From stdpp Require Import base option list gmap strings.

Set Warnings "-register-all".
Local Open Scope N_scope.

(** [lia] on quotients and remainders by constants. *)
Ltac Zify.zify_post_hook ::= Z.to_euclidean_division_equations.

(** * The embedding *)

(** ** Python values *)

(** A Python [str] is a sequence of code points. *)
Abbreviation pystr := (list N).

(** String literals of the source, as code points (ASCII only). *)
Definition lit (s : string) : pystr := N_of_ascii <$> list_ascii_of_string s.

(** What the standard output and [sqlite3] can encode as UTF-8: a [str]
    without surrogate code points. *)
Definition encodable (s : pystr) : bool :=
  forallb (fun c => (c <? 55296) || (57343 <? c)) s.

(** The exceptions the modelled code can raise.  [External] stands for
    whatever an outside collaborator (LLM endpoint, vector store, agent
    pipeline, database file) raises; its text is taken to be one that the
    standard output can encode.  [NotModelled] is raised by the model only,
    where Python would build a [float]. *)
Inductive exn :=
| TypeError | ValueError | KeyError | AttributeError
| JSONDecodeError | IntegrityError | ProgrammingError | OverflowError
| UnicodeEncodeError
| NotFoundError
| RecursionError
| External (code : N)
| NotModelled.

Inductive exc (A : Type) :=
| Ok (a : A)
| Raise (e : exn).
Arguments Ok {A} a.
Arguments Raise {A} e.

Definition exc_bind {A B} (m : exc A) (f : A -> exc B) : exc B :=
  match m with
  | Ok a => f a
  | Raise e => Raise e
  end.

#[global] Instance exc_mret : MRet exc := @Ok.
#[global] Instance exc_mbind : MBind exc := fun A B f m => exc_bind m f.

Definition raises {A} (m : exc A) : bool :=
  match m with Ok _ => false | Raise _ => true end.

(** Dynamically typed values: what a payload handed to [enqueue] can be and
    what [json.loads] can build.  [PObject] is an object of a type that
    neither [json] serializes nor [sqlite3] binds (a [set], an instance of a
    class of the application ...).  Floats, [bytes] and [datetime] values are
    left out. *)
Inductive pyval :=
| PNone
| PBool (b : bool)
| PInt (z : Z)
| PStr (s : pystr)
| PList (l : list pyval)
| PTuple (l : list pyval)
| PDict (d : list (pyval * pyval))
| PObject (name : string).

(** Python truthiness, as used by [if row:], [if not message:] and
    [if not classifier_id:]. *)
Definition truthy (v : pyval) : bool :=
  match v with
  | PNone => false
  | PBool b => b
  | PInt z => negb (Z.eqb z 0)
  | PStr s => negb (Nat.eqb (length s) 0)
  | PList l | PTuple l => negb (Nat.eqb (length l) 0)
  | PDict d => negb (Nat.eqb (length d) 0)
  | PObject _ => true
  end.

Definition pystr_eqb (a b : pystr) : bool := bool_decide (a = b).

(** Lookup in a [dict] whose keys are compared with a [str] key. *)
Fixpoint dict_find (d : list (pyval * pyval)) (k : pystr) : option pyval :=
  match d with
  | [] => None
  | (PStr k', v) :: d' => if pystr_eqb k' k then Some v else dict_find d' k
  | _ :: d' => dict_find d' k
  end.

(** [v[k]] for a [str] key [k]: [KeyError] on a dict without the key,
    [TypeError] on every other type of these values. *)
Definition subscript (v : pyval) (k : pystr) : exc pyval :=
  match v with
  | PDict d => match dict_find d k with Some x => Ok x | None => Raise KeyError end
  | _ => Raise TypeError
  end.

(** [v.get(k, fallback)]: only a dict has the method. *)
Definition dict_get (v : pyval) (k : pystr) (fallback : pyval) : exc pyval :=
  match v with
  | PDict d => Ok (default fallback (dict_find d k))
  | _ => Raise AttributeError
  end.

(** ** [json.dumps] with its default arguments *)

(** Mapping a fallible function over a list, stopping at the first
    exception. *)
Definition exc_mapM {A B} (f : A -> exc B) : list A -> exc (list B) :=
  fix go l :=
    match l with
    | [] => Ok []
    | x :: l' => y ← f x; ys ← go l'; Ok (y :: ys)
    end.

(** [sep.join(items)]. *)
Fixpoint join (sep : pystr) (items : list pystr) : pystr :=
  match items with
  | [] => []
  | [x] => x
  | x :: rest => x ++ sep ++ join sep rest
  end.

Definition hexdigit (d : N) : N := if d <? 10 then 48 + d else 87 + d.

(** ['{0:04x}'.format(n)] for [n < 0x10000]. *)
Definition hex4 (n : N) : pystr :=
  [hexdigit (n / 4096 mod 16); hexdigit (n / 256 mod 16);
   hexdigit (n / 16 mod 16); hexdigit (n mod 16)].

(** One character under [ESCAPE_ASCII]/[ESCAPE_DCT]: the backslash and the
    double quote, the five short escapes, printable ASCII as it is, everything
    else as a [u] escape, above the BMP as a surrogate pair. *)
Definition encode_char (c : N) : pystr :=
  if c =? 92 then [92; 92]
  else if c =? 34 then [92; 34]
  else if c =? 8 then [92; 98]
  else if c =? 12 then [92; 102]
  else if c =? 10 then [92; 110]
  else if c =? 13 then [92; 114]
  else if c =? 9 then [92; 116]
  else if (32 <=? c) && (c <=? 126) then [c]
  else if c <? 65536 then 92 :: 117 :: hex4 c
  else
    let n := c - 65536 in
    let s1 := N.lor 55296 (N.land (N.shiftr n 10) 1023) in
    let s2 := N.lor 56320 (N.land n 1023) in
    (92 :: 117 :: hex4 s1) ++ (92 :: 117 :: hex4 s2).

Definition encode_basestring_ascii (s : pystr) : pystr :=
  [34] ++ concat (encode_char <$> s) ++ [34].

Fixpoint uint_chars (u : Decimal.uint) : pystr :=
  match u with
  | Decimal.Nil => []
  | Decimal.D0 u => 48 :: uint_chars u
  | Decimal.D1 u => 49 :: uint_chars u
  | Decimal.D2 u => 50 :: uint_chars u
  | Decimal.D3 u => 51 :: uint_chars u
  | Decimal.D4 u => 52 :: uint_chars u
  | Decimal.D5 u => 53 :: uint_chars u
  | Decimal.D6 u => 54 :: uint_chars u
  | Decimal.D7 u => 55 :: uint_chars u
  | Decimal.D8 u => 56 :: uint_chars u
  | Decimal.D9 u => 57 :: uint_chars u
  end.

(** [int.__repr__] below the interpreter's limit on the number of digits:
    decimal digits, a leading minus sign when negative. *)
Definition int_repr (z : Z) : pystr :=
  match Z.to_int z with
  | Decimal.Pos u => uint_chars u
  | Decimal.Neg u => 45 :: uint_chars u
  end.

(** The number of decimal digits of an integer. *)
Definition int_digits (z : Z) : nat :=
  match Z.to_int z with
  | Decimal.Pos u | Decimal.Neg u => length (uint_chars u)
  end.

(** [sys.get_int_max_str_digits()], by default: the interpreter (CPython
    3.11 and later) converts no [int] of more decimal digits to a [str], and
    no longer run of digits to an [int]. *)
Definition MAX_STR_DIGITS : nat := 4300%nat.

(** [int.__repr__] as the encoder calls it: a [ValueError] on an integer of
    more than [MAX_STR_DIGITS] digits. *)
Definition int_str (z : Z) : exc pystr :=
  if (MAX_STR_DIGITS <? int_digits z)%nat then Raise ValueError
  else Ok (int_repr z).

(** Dictionary keys: [str] as it is, [int], [bool] and [None] converted;
    any other key is a [TypeError] ([skipkeys] is off). *)
Definition encode_key (k : pyval) : exc pystr :=
  match k with
  | PStr s => Ok s
  | PInt z => int_str z
  | PBool true => Ok (lit "true")
  | PBool false => Ok (lit "false")
  | PNone => Ok (lit "null")
  | _ => Raise TypeError
  end.

(** The encoder: item separator [", "], key separator [": "],
    [ensure_ascii] on.  The interpreter's recursion limit (1000 frames by
    default) is not modelled: on a value nested too deep for it, where
    [json.dumps] raises a [RecursionError], this encoder goes on.  The
    properties that say that a payload is serialized bound its nesting
    ([is_json]). *)
Fixpoint encode (v : pyval) : exc pystr :=
  match v with
  | PNone => Ok (lit "null")
  | PBool true => Ok (lit "true")
  | PBool false => Ok (lit "false")
  | PInt z => int_str z
  | PStr s => Ok (encode_basestring_ascii s)
  | PList l | PTuple l =>
      items ← exc_mapM encode l;
      Ok ([91] ++ join (lit ", ") items ++ [93])
  | PDict d =>
      items ← exc_mapM (fun kv =>
                 ks ← encode_key kv.1;
                 vs ← encode kv.2;
                 Ok (encode_basestring_ascii ks ++ lit ": " ++ vs)) d;
      Ok ([123] ++ join (lit ", ") items ++ [125])
  | PObject _ => Raise TypeError
  end.

Definition json_dumps (v : pyval) : exc pystr := encode v.

(** ** [json.loads] with its default arguments *)

Definition is_ws (c : N) : bool :=
  (c =? 32) || (c =? 9) || (c =? 10) || (c =? 13).

(** [WHITESPACE.match(s, end).end()]. *)
Fixpoint skip_ws (s : pystr) : pystr :=
  match s with
  | c :: r => if is_ws c then skip_ws r else s
  | [] => []
  end.

Definition hexval (c : N) : option N :=
  if (48 <=? c) && (c <=? 57) then Some (c - 48)
  else if (97 <=? c) && (c <=? 102) then Some (c - 87)
  else if (65 <=? c) && (c <=? 70) then Some (c - 55)
  else None.

(** [int(esc.group(), 16)] on four hexadecimal digits. *)
Definition hex4_value (h1 h2 h3 h4 : N) : option N :=
  a ← hexval h1; b ← hexval h2; c ← hexval h3; d ← hexval h4;
  Some (4096 * a + 256 * b + 16 * c + d).

(** The [BACKSLASH] table of the decoder. *)
Definition backslash (esc : N) : option N :=
  if esc =? 34 then Some 34
  else if esc =? 92 then Some 92
  else if esc =? 47 then Some 47
  else if esc =? 98 then Some 8
  else if esc =? 102 then Some 12
  else if esc =? 110 then Some 10
  else if esc =? 114 then Some 13
  else if esc =? 116 then Some 9
  else None.

(** [py_scanstring] in strict mode, from just after the opening quote:
    the decoded string and the text after the closing quote.  A high
    surrogate escape directly followed by a low surrogate escape is one
    code point. *)
Fixpoint scanstring (s : pystr) : exc (pystr * pystr) :=
  match s with
  | [] => Raise JSONDecodeError
  | c :: r =>
    if c =? 34 then Ok ([], r)
    else if c =? 92 then
      match r with
      | [] => Raise JSONDecodeError
      | esc :: r1 =>
        if esc =? 117 then
          match r1 with
          | h1 :: h2 :: h3 :: h4 :: r2 =>
            match hex4_value h1 h2 h3 h4 with
            | None => Raise JSONDecodeError
            | Some uni =>
              let single := (res ← scanstring r2; Ok (uni :: res.1, res.2)) in
              if (55296 <=? uni) && (uni <=? 56319) then
                match r2 with
                | b :: u :: r3 =>
                  if (b =? 92) && (u =? 117) then
                    match r3 with
                    | g1 :: g2 :: g3 :: g4 :: r4 =>
                      match hex4_value g1 g2 g3 g4 with
                      | None => Raise JSONDecodeError
                      | Some uni2 =>
                        if (56320 <=? uni2) && (uni2 <=? 57343) then
                          res ← scanstring r4;
                          Ok (65536 + N.lor (N.shiftl (uni - 55296) 10) (uni2 - 56320)
                                :: res.1, res.2)
                        else single
                      end
                    | _ => Raise JSONDecodeError
                    end
                  else single
                | _ => single
                end
              else single
            end
          | _ => Raise JSONDecodeError
          end
        else
          match backslash esc with
          | Some ch => res ← scanstring r1; Ok (ch :: res.1, res.2)
          | None => Raise JSONDecodeError
          end
      end
    else if c <? 32 then Raise JSONDecodeError
    else res ← scanstring r; Ok (c :: res.1, res.2)
  end.

Definition is_digit (c : N) : bool := (48 <=? c) && (c <=? 57).

Fixpoint span_digits (s : pystr) : pystr * pystr :=
  match s with
  | c :: r =>
    if is_digit c then let '(ds, rest) := span_digits r in (c :: ds, rest)
    else ([], s)
  | [] => ([], [])
  end.

Fixpoint chars_uint (ds : pystr) : Decimal.uint :=
  match ds with
  | [] => Decimal.Nil
  | c :: r =>
    let u := chars_uint r in
    match c with
    | 48 => Decimal.D0 u | 49 => Decimal.D1 u | 50 => Decimal.D2 u
    | 51 => Decimal.D3 u | 52 => Decimal.D4 u | 53 => Decimal.D5 u
    | 54 => Decimal.D6 u | 55 => Decimal.D7 u | 56 => Decimal.D8 u
    | _ => Decimal.D9 u
    end
  end.

(** The integer group of [NUMBER_RE]: an optional minus sign, then a single
    zero or a non-zero digit followed by any digits.  Gives the sign, the
    digits and the text after them. *)
Definition match_integer (s : pystr) : option (bool * pystr * pystr) :=
  let '(neg, s1) := match s with
                    | c :: r => if c =? 45 then (true, r) else (false, s)
                    | [] => (false, s)
                    end in
  match s1 with
  | c :: r =>
    if c =? 48 then Some (neg, [48], r)
    else if is_digit c then
      let '(ds, rest) := span_digits r in Some (neg, c :: ds, rest)
    else None
  | [] => None
  end.

(** The optional groups of [NUMBER_RE]: a fraction (a dot and a digit) and
    an exponent ([e] or [E], an optional sign, a digit).  When one of them
    matches, the number is a float. *)
Definition has_frac (s : pystr) : bool :=
  match s with
  | p :: d :: _ => (p =? 46) && is_digit d
  | _ => false
  end.

Definition has_exp (s : pystr) : bool :=
  match s with
  | e :: r =>
    ((e =? 101) || (e =? 69)) &&
    match r with
    | d :: r' =>
      is_digit d ||
      (((d =? 43) || (d =? 45)) && match r' with d' :: _ => is_digit d' | [] => false end)
    | [] => false
    end
  | [] => false
  end.

(** [int(integer)]. *)
Definition parse_int (neg : bool) (ds : pystr) : Z :=
  Z.of_int (if neg then Decimal.Neg (chars_uint ds) else Decimal.Pos (chars_uint ds)).

(** [s[idx:idx + len(p)] == p], giving the text after the prefix. *)
Fixpoint strip_prefix (p s : pystr) : option pystr :=
  match p, s with
  | [], _ => Some s
  | a :: p', b :: s' => if a =? b then strip_prefix p' s' else None
  | _ :: _, [] => None
  end.

Definition starts_with (p s : pystr) : bool :=
  match strip_prefix p s with Some _ => true | None => false end.

(** [dict(pairs)]: a repeated key keeps its first position and takes the
    last value. *)
Fixpoint dict_set (d : list (pyval * pyval)) (k : pystr) (v : pyval)
  : list (pyval * pyval) :=
  match d with
  | [] => [(PStr k, v)]
  | (PStr k', v') :: d' =>
    if pystr_eqb k' k then (PStr k', v) :: d'
    else (PStr k', v') :: dict_set d' k v
  | kv :: d' => kv :: dict_set d' k v
  end.

Definition dict_of_pairs (pairs : list (pystr * pyval)) : list (pyval * pyval) :=
  fold_left (fun d kv => dict_set d kv.1 kv.2) pairs [].

Section Decoder.

(** The scanner the container parsers call back into. *)
Variable scan_once : pystr -> exc (pyval * pystr).

(** The loop of [JSONArray], entered before a value. *)
Fixpoint array_loop (fuel : nat) (s : pystr) : exc (list pyval * pystr) :=
  match fuel with
  | O => Raise RecursionError
  | S fuel' =>
    res ← scan_once s;
    match skip_ws res.2 with
    | c :: r =>
      if c =? 93 then Ok ([res.1], r)
      else if c =? 44 then
        more ← array_loop fuel' (skip_ws r);
        Ok (res.1 :: more.1, more.2)
      else Raise JSONDecodeError
    | [] => Raise JSONDecodeError
    end
  end.

Definition JSONArray (fuel : nat) (s : pystr) : exc (pyval * pystr) :=
  match skip_ws s with
  | c :: r =>
    if c =? 93 then Ok (PList [], r)
    else res ← array_loop fuel (c :: r); Ok (PList res.1, res.2)
  | [] => Raise JSONDecodeError
  end.

(** The loop of [JSONObject], entered after the opening quote of a key. *)
Fixpoint object_loop (fuel : nat) (s : pystr) : exc (list (pystr * pyval) * pystr) :=
  match fuel with
  | O => Raise RecursionError
  | S fuel' =>
    key ← scanstring s;
    match skip_ws key.2 with
    | colon :: r =>
      if colon =? 58 then
        res ← scan_once (skip_ws r);
        match skip_ws res.2 with
        | c :: r' =>
          if c =? 125 then Ok ([(key.1, res.1)], r')
          else if c =? 44 then
            match skip_ws r' with
            | q :: r'' =>
              if q =? 34 then
                more ← object_loop fuel' r'';
                Ok ((key.1, res.1) :: more.1, more.2)
              else Raise JSONDecodeError
            | [] => Raise JSONDecodeError
            end
          else Raise JSONDecodeError
        | [] => Raise JSONDecodeError
        end
      else Raise JSONDecodeError
    | [] => Raise JSONDecodeError
    end
  end.

Definition JSONObject (fuel : nat) (s : pystr) : exc (pyval * pystr) :=
  match skip_ws s with
  | c :: r =>
    if c =? 125 then Ok (PDict [], r)
    else if c =? 34 then
      res ← object_loop fuel r; Ok (PDict (dict_of_pairs res.1), res.2)
    else Raise JSONDecodeError
  | [] => Raise JSONDecodeError
  end.

End Decoder.

(** A number at the head of the text: an [int], a [ValueError] where the
    integer has more than [MAX_STR_DIGITS] digits, or [NotModelled] where
    Python parses a float. *)
Definition scan_number (s : pystr) : option (exc (pyval * pystr)) :=
  match match_integer s with
  | Some (neg, ds, rest) =>
    if has_frac rest || has_exp rest then Some (Raise NotModelled)
    else if (MAX_STR_DIGITS <? length ds)%nat then Some (Raise ValueError)
    else Some (Ok (PInt (parse_int neg ds), rest))
  | None => None
  end.

(** [_scan_once] of [py_make_scanner]; [fuel] bounds the nesting depth and
    the number of items. *)
Fixpoint scan_once (fuel : nat) (s : pystr) {struct fuel} : exc (pyval * pystr) :=
  match fuel with
  | O => Raise RecursionError
  | S fuel' =>
    match s with
    | [] => Raise JSONDecodeError
    | c :: r =>
      if c =? 34 then res ← scanstring r; Ok (PStr res.1, res.2)
      else if c =? 123 then JSONObject (scan_once fuel') fuel' r
      else if c =? 91 then JSONArray (scan_once fuel') fuel' r
      else
        match strip_prefix (lit "null") s, strip_prefix (lit "true") s,
              strip_prefix (lit "false") s with
        | Some rest, _, _ => Ok (PNone, rest)
        | _, Some rest, _ => Ok (PBool true, rest)
        | _, _, Some rest => Ok (PBool false, rest)
        | None, None, None =>
          match scan_number s with
          | Some res => res
          | None =>
            if starts_with (lit "NaN") s || starts_with (lit "Infinity") s
               || starts_with (lit "-Infinity") s
            then Raise NotModelled
            else Raise JSONDecodeError
          end
        end
    end
  end.

(** [json.loads(s)]: leading whitespace, one value, trailing whitespace,
    then the end of the text (anything else is [Extra data]). *)
Definition json_loads (s : pystr) : exc pyval :=
  res ← scan_once (S (length s)) (skip_ws s);
  match skip_ws res.2 with
  | [] => Ok res.1
  | _ :: _ => Raise JSONDecodeError
  end.

(** ** Payloads and JSON text in the properties *)

(** Unicode scalar values: code points that are not surrogates. *)
Definition is_scalar (c : N) : bool :=
  ((c <? 55296) || (57343 <? c)) && (c <? 1114112).

Definition no_digit_head (s : pystr) : Prop :=
  match s with c :: _ => is_digit c = false | [] => True end.

(** What may follow a value in the encoder's output: the end of the text, a
    comma or a closing bracket or brace. *)
Definition follow (s : pystr) : Prop :=
  match s with
  | [] => True
  | c :: _ => c = 44 \/ c = 93 \/ c = 125
  end.

Definition key_str (kv : pyval * pyval) : option pystr :=
  match kv.1 with PStr k => Some k | _ => None end.

(** JSON values that [json] converts both ways: [None], booleans,
    integers of at most [MAX_STR_DIGITS] digits, strings of scalar values,
    lists, and dictionaries with distinct string keys. *)
Fixpoint json_value (v : pyval) : bool :=
  match v with
  | PNone | PBool _ => true
  | PInt z => (int_digits z <=? MAX_STR_DIGITS)%nat
  | PStr s => forallb is_scalar s
  | PList l => forallb json_value l
  | PDict d =>
    forallb (fun kv =>
               match kv.1 with PStr k => forallb is_scalar k | _ => false end
               && json_value kv.2) d
    && bool_decide (NoDup (omap key_str d))
  | PTuple _ | PObject _ => false
  end.

(** How deep the containers of a value are nested. *)
Fixpoint nesting (v : pyval) : nat :=
  match v with
  | PList l | PTuple l => S (list_max (map nesting l))
  | PDict d => S (list_max (map (fun kv => nesting kv.2) d))
  | _ => O
  end.

(** A nesting that the recursion limit of the interpreter (1000 frames by
    default) allows wherever the queue and the listener call [json]. *)
Definition MAX_NESTING : nat := 100%nat.

(** JSON-representable payloads within the limits of the interpreter: the
    JSON values above, nested at most [MAX_NESTING] deep. *)
Definition is_json (v : pyval) : bool :=
  json_value v && (nesting v <=? MAX_NESTING)%nat.

(** A value that holds an integer of more than [MAX_STR_DIGITS] digits. *)
Fixpoint has_long_int (v : pyval) : bool :=
  match v with
  | PInt z => (MAX_STR_DIGITS <? int_digits z)%nat
  | PList l | PTuple l => existsb has_long_int l
  | PDict d => existsb (fun kv => has_long_int kv.1 || has_long_int kv.2) d
  | _ => false
  end.

(** The first character of an encoded value: not whitespace, not a closing
    bracket. *)
Definition value_head (t : pystr) : Prop :=
  exists c cs, t = c :: cs /\ is_ws c = false /\ (c =? 93) = false.

(** The text [t] scans to the value [v]: with any fuel from its length on,
    and with a given fuel. *)
Definition scans (v : pyval) (t : pystr) : Prop :=
  value_head t /\
  forall fuel rest, (length t <= fuel)%nat -> follow rest ->
                    scan_once fuel (t ++ rest) = Ok (v, rest).

Definition scans_at (fuel : nat) (v : pyval) (t : pystr) : Prop :=
  value_head t /\
  forall rest, follow rest -> scan_once fuel (t ++ rest) = Ok (v, rest).

Definition str_item (kv : pystr * pyval) : pyval * pyval := (PStr kv.1, kv.2).

(** ** The task record store and the outside world *)

(** A row of the [queue] table, columns [{id, data, status, created_at,
    processed_at}].  The texts are stored as UTF-8: what [sqlite3] hands out
    of a TEXT column holds no surrogate. *)
Record qrow := {
  id : pystr;
  data : pystr;
  status : string;
  created_at : nat;
  processed_at : option nat;
}.

(** A row of the [classifier_outputs] table that
    [update_corrective_action_db] updates. *)
Record corow := {
  payload_id : pystr;
  corrective_action : option pystr;
  co_processed_at : option nat;
  co_updated_at : option nat;
}.

(** What [print] writes, by print site, with the interpolated values. *)
Inductive log_line :=
| WatcherStarted
| NoPendingMessages
| Line (s : pystr)
| Value (v : pyval)
| SouravBlock2
| QueryingRag (description : pystr)
| GeneratedAction (action : pystr)
| ProcessedOk (classifier_id : pyval)
| ProcessingError (e : exn)
| RagQueryError (e : exn)
| DatabaseUpdated (classifier_id : pyval)
| DatabaseError (e : exn).

(** Observable effects, in the order they happen. *)
Inductive event :=
| EvPrint (l : log_line)
| EvSleep (seconds : nat)
| EvInsert (item_id : pystr)
| EvSetProcessed (message_id : pystr)
| EvTransporter (payload : pyval)
| EvSimilaritySearch (query : pystr)
| EvLlmInvoke (prompt : pystr)
| EvUpdateCorrectiveAction (classifier_id : pyval) (action : pystr).

Record world := {
  queue : list qrow;
  classifier_outputs : list corow;
  clock : nat;
  draws : nat;
  trace : list event;
}.

Definition with_queue (q : list qrow) (w : world) : world :=
  {| queue := q; classifier_outputs := classifier_outputs w;
     clock := clock w; draws := draws w; trace := trace w |}.

Definition with_classifier_outputs (t : list corow) (w : world) : world :=
  {| queue := queue w; classifier_outputs := t;
     clock := clock w; draws := draws w; trace := trace w |}.

Definition with_clock (c : nat) (w : world) : world :=
  {| queue := queue w; classifier_outputs := classifier_outputs w;
     clock := c; draws := draws w; trace := trace w |}.

Definition with_draws (n : nat) (w : world) : world :=
  {| queue := queue w; classifier_outputs := classifier_outputs w;
     clock := clock w; draws := n; trace := trace w |}.

Definition with_trace (t : list event) (w : world) : world :=
  {| queue := queue w; classifier_outputs := classifier_outputs w;
     clock := clock w; draws := draws w; trace := t |}.

(** The collaborators outside the repository: the random source of
    [uuid.uuid4], the agent pipeline ([Transporter()] and its [process]), the
    vector store and the LLM endpoint of the RAG query, and opening the
    classifier database file.  Each may raise. *)
Class Collaborators := {
  uuid4 : nat -> pystr;
  Transporter_new : exc unit;
  Transporter_process : pyval -> exc unit;
  similarity_search : pystr -> exc (list pystr);
  llm_invoke : pystr -> exc pystr;
  sqlite3_connect : exc unit;
}.

(** Statements run in a world and end normally or by an exception; the
    effects made before the exception stay. *)
Definition M (A : Type) : Type := world -> exc A * world.

#[global] Instance M_mret : MRet M := fun A a w => (Ok a, w).
#[global] Instance M_mbind : MBind M := fun A B f m w =>
  match m w with
  | (Ok a, w') => f a w'
  | (Raise e, w') => (Raise e, w')
  end.

Definition raise {A} (e : exn) : M A := fun w => (Raise e, w).
Definition lift {A} (r : exc A) : M A := fun w => (r, w).
Definition get_world : M world := fun w => (Ok w, w).
Definition set_classifier_outputs (t : list corow) : M unit := fun w =>
  (Ok tt, with_classifier_outputs t w).

(** [try: body except Exception as e: handler]. *)
Definition try_except {A} (body : M A) (handler : exn -> M A) : M A := fun w =>
  match body w with
  | (Ok a, w') => (Ok a, w')
  | (Raise e, w') => handler e w'
  end.

Definition emit (e : event) : M unit := fun w =>
  (Ok tt, with_trace (trace w ++ [e]) w).

Definition print (l : log_line) : M unit := emit (EvPrint l).

(** The part of [f"{v}"] that is written as it is: a [str] itself; the
    text of any other value is ASCII or a [repr], which escapes what cannot
    be encoded. *)
Definition raw_text (v : pyval) : pystr :=
  match v with PStr s => s | _ => [] end.

(** [print] of a line that interpolates values.  The standard output
    encodes strictly (UTF-8): when one of the values holds a surrogate the
    call raises a [UnicodeEncodeError] and the line is not written.  The
    values passed are those that can hold one: a text read from a TEXT
    column cannot (it was decoded from UTF-8), the text of an exception of
    the interpreter neither. *)
Definition print_values (values : list pystr) (l : log_line) : M unit :=
  if forallb encodable values then print l else raise UnicodeEncodeError.

(** [await asyncio.sleep(seconds)]. *)
Definition sleep (seconds : nat) : M unit := fun w =>
  (Ok tt, with_clock (clock w + seconds)%nat (with_trace (trace w ++ [EvSleep seconds]) w)).

(** ** [QueueModel] *)

Definition is_pending (r : qrow) : bool := String.eqb (status r) "pending".

(** Modelled from the spec: [QueueModel.get_first_pending_item] is not in
    the source.  It is [select_first_pending]: the oldest record with status
    pending, in insertion order, or none. *)
Definition get_first_pending_item (q : list qrow) : option qrow :=
  List.find is_pending q.

Definition mark_row (mid : pystr) (now : nat) (r : qrow) : qrow :=
  if pystr_eqb (id r) mid
  then {| id := id r; data := data r; status := "processed";
          created_at := created_at r; processed_at := Some now |}
  else r.

(** Modelled from the spec: [QueueModel.set_processed] is not in the
    source.  It is [update_status(id, processed, processed_at)], which fails
    with [NotFoundError] when the id is absent. *)
Definition set_processed (mid : pystr) : M unit := fun w =>
  if existsb (fun r => pystr_eqb (id r) mid) (queue w)
  then (Ok tt, with_queue (mark_row mid (clock w) <$> queue w)
                 (with_trace (trace w ++ [EvSetProcessed mid]) w))
  else (Raise NotFoundError, w).

(** [raw_execute("INSERT INTO queue (id, data) VALUES (?, ?)", ...)].
    Modelled from the spec: the table's declaration is not in the source; a
    new record is pending with no [processed_at], and a duplicate id is a
    constraint violation. *)
Definition raw_execute_insert (item_id data_json : pystr) : M unit := fun w =>
  if existsb (fun r => pystr_eqb (id r) item_id) (queue w)
  then (Raise IntegrityError, w)
  else (Ok tt,
        with_queue (queue w ++ [{| id := item_id; data := data_json;
                                   status := "pending"; created_at := clock w;
                                   processed_at := None |}])
          (with_trace (trace w ++ [EvInsert item_id]) w)).

Fixpoint bump (st : string) (groups : list (string * nat)) : list (string * nat) :=
  match groups with
  | [] => [(st, 1%nat)]
  | (s, n) :: rest =>
    if String.eqb s st then (s, S n) :: rest else (s, n) :: bump st rest
  end.

(** [raw_execute("SELECT status, COUNT( * ) as count FROM queue GROUP BY
    status")]: one row per status present, with the number of records. *)
Definition raw_execute_group_by_status (q : list qrow) : list (string * nat) :=
  fold_left (fun groups r => bump (status r) groups) q [].

(** ** [jobs_queue.py] *)

Section Queue.
Context `{Collaborators}.

(** [str(uuid.uuid4())]. *)
Definition draw_uuid4 : M pystr := fun w =>
  (Ok (uuid4 (draws w)), with_draws (S (draws w)) w).

(** [SQLiteQueue.enqueue]. *)
Definition enqueue (payload : pyval) : M pystr :=
  item_id ← draw_uuid4;
  data_json ← lift (json_dumps payload);
  raw_execute_insert item_id data_json;;
  mret item_id.

(** [SQLiteQueue.get_stats]: the dictionary
    [{row['status']: row['count'] for row in items}]. *)
Definition get_stats : M (gmap string nat) :=
  w ← get_world;
  let items := raw_execute_group_by_status (queue w) in
  mret (fold_left (fun stats row => <[row.1 := row.2]> stats) items ∅).

End Queue.

(** ** [corrective_actions.py] *)

(** [str.isspace] on one character. *)
Definition is_space (c : N) : bool :=
  ((9 <=? c) && (c <=? 13)) || ((28 <=? c) && (c <=? 32))
  || (c =? 133) || (c =? 160) || (c =? 5760)
  || ((8192 <=? c) && (c <=? 8202))
  || (c =? 8232) || (c =? 8233) || (c =? 8239) || (c =? 8287) || (c =? 12288).

Fixpoint lstrip (s : pystr) : pystr :=
  match s with
  | c :: r => if is_space c then lstrip r else s
  | [] => []
  end.

(** [s.strip()]. *)
Definition strip (s : pystr) : pystr := rev (lstrip (rev (lstrip s))).

(** Binding one statement parameter in [sqlite3], as the text it is
    compared with: [str], [int] and [bool] are accepted ([None] is NULL and
    equals nothing); a [str] that UTF-8 cannot encode is a
    [UnicodeEncodeError], an [int] outside 64 bits an [OverflowError], a list,
    a dictionary or another object a [ProgrammingError]. *)
Definition bind_parameter (v : pyval) : exc (option pystr) :=
  match v with
  | PNone => Ok None
  | PBool b => Ok (Some (if b then lit "1" else lit "0"))
  | PInt z =>
    if ((- 2 ^ 63 <=? z) && (z <? 2 ^ 63))%Z then Ok (Some (int_repr z))
    else Raise OverflowError
  | PStr s => if encodable s then Ok (Some s) else Raise UnicodeEncodeError
  | _ => Raise ProgrammingError
  end.

Definition update_row (key : option pystr) (action : pystr) (now : nat) (r : corow)
  : corow :=
  match key with
  | Some k =>
    if pystr_eqb (payload_id r) k
    then {| payload_id := payload_id r; corrective_action := Some action;
            co_processed_at := Some now; co_updated_at := Some now |}
    else r
  | None => r
  end.

Definition matches (key : option pystr) (r : corow) : bool :=
  match key with
  | Some k => pystr_eqb (payload_id r) k
  | None => false
  end.

(** The prompt of [get_corrective_action_from_rag], an f-string over the
    query and the context. *)
Definition prompt_of (query context : pystr) : pystr :=
  lit "Based on the following incident and similar historical cases, provide a clear and actionable corrective action.

**Current Incident:**
" ++ query ++ lit "

**Similar Historical Cases:**
" ++ context ++ lit "

**Instructions:**
- Provide specific, actionable steps
- Be concise and clear
- Focus on resolution and prevention
- If no similar cases exist, provide general best practices

**Corrective Action:**".

(** [f"Case {i+1}: {doc.page_content}"] over [enumerate(results)]. *)
Definition cases (results : list pystr) : list pystr :=
  imap (fun i content =>
          lit "Case " ++ int_repr (Z.of_nat (S i)) ++ lit ": " ++ content) results.

Section CorrectiveActions.
Context `{Collaborators}.

(** [get_corrective_action_from_rag]: any exception is printed and
    raised again. *)
Definition get_corrective_action_from_rag (query : pystr) : M pystr :=
  try_except
    (emit (EvSimilaritySearch query);;
     results ← lift (similarity_search query);
     let context :=
       if Nat.eqb (length results) 0
       then lit "No similar historical cases found."
       else join [10; 10] (cases results) in
     let prompt := prompt_of query context in
     emit (EvLlmInvoke prompt);;
     response ← lift (llm_invoke prompt);
     let corrective_action := strip response in
     mret corrective_action)
    (fun e => print (RagQueryError e);; raise e).

(** [update_corrective_action_db]: the update runs in a transaction that
    is committed when a row was updated and rolled back on any exception,
    which is printed and raised again.  [cursor.execute] binds its parameters
    in order, the action first and the id last.  The line printed after the
    commit cannot fail, since an id that was bound can be encoded, so
    restoring the table is what the rollback does.  The declaration of
    [classifier_outputs] is not in the source: its columns are those the
    UPDATE statement names, and [payload_id] is taken as a text column. *)
Definition update_corrective_action_db (classifier_id : pyval)
           (corrective_action : pystr) : M unit :=
  saved ← get_world;
  try_except
    (lift sqlite3_connect;;
     emit (EvUpdateCorrectiveAction classifier_id corrective_action);;
     lift (bind_parameter (PStr corrective_action));;
     key ← lift (bind_parameter classifier_id);
     w ← get_world;
     let now := clock w in
     let rowcount := length (List.filter (matches key) (classifier_outputs w)) in
     set_classifier_outputs
       (update_row key corrective_action now <$> classifier_outputs w);;
     (if Nat.eqb rowcount 0 then raise ValueError else mret tt);;
     print_values [raw_text classifier_id] (DatabaseUpdated classifier_id))
    (fun e =>
       set_classifier_outputs (classifier_outputs saved);;
       print (DatabaseError e);;
       raise e).

(** The [try] block of [process_corrective_action]. *)
Definition process_corrective_action_try (data : pyval) : M bool :=
  classifier_id ← lift (dict_get data (lit "payload_id") PNone);
  incident_description ← lift (dict_get data (lit "error_message") (PStr []));
  (if negb (truthy classifier_id) then raise ValueError else mret tt);;
  let incident_description := lit "No incident description provided" in
  print (QueryingRag (take 100 incident_description));;
  corrective_action ← get_corrective_action_from_rag incident_description;
  print_values [take 100 corrective_action]
    (GeneratedAction (take 100 corrective_action));;
  update_corrective_action_db classifier_id corrective_action;;
  print_values [raw_text classifier_id] (ProcessedOk classifier_id);;
  mret true.

(** [process_corrective_action]: every exception of the [try] block is
    caught, printed, and turned into the result [False]. *)
Definition process_corrective_action (data : pyval) : M bool :=
  try_except
    (process_corrective_action_try data)
    (fun e => print (ProcessingError e);; mret false).

(** [v == 'literal'] for a string literal. *)
Definition eq_str (v : pyval) (s : pystr) : bool :=
  match v with PStr s' => pystr_eqb s' s | _ => false end.

(** [handle_message]. *)
Definition handle_message (message : pyval) : M unit :=
  task ← lift (dict_get message (lit "task") PNone);
  if eq_str task (lit "set_corrective_action") then
    data ← lift (subscript message (lit "data"));
    process_corrective_action data;;
    mret tt
  else mret tt.

End CorrectiveActions.

(** ** [queue_listener.py] *)

Definition POLL_INTERVAL : nat := 1.

Section Listener.
Context `{Collaborators}.

(** [get_pending_message]: the id and the deserialized payload of the
    first pending record, or [None]. *)
Definition get_pending_message : M (option (pystr * pyval)) :=
  w ← get_world;
  match get_first_pending_item (queue w) with
  | Some row =>
    payload ← lift (json_loads (data row));
    mret (Some (id row, payload))
  | None => mret None
  end.

Definition mark_message_processed (message_id : pystr) : M unit :=
  set_processed message_id.

(** ["Processing " + task + " with id: " + message_id]: concatenating a
    value that is not a [str] is a [TypeError]. *)
Definition processing_log (task : pyval) (message_id : pystr) : exc pystr :=
  match task with
  | PStr t => Ok (lit "Processing " ++ t ++ lit " with id: " ++ message_id)
  | _ => Raise TypeError
  end.

(** The loop body of [watch_queue] once a message was fetched: the log
    line, the dispatch on the task tag, the sleep.  The log line holds the
    tag, which comes out of the JSON text and can hold a surrogate, and the
    id, which is read from a TEXT column.  The payload printed in the
    corrective-action branch is a dictionary, whose text is a [repr]. *)
Definition dispatch (message_id : pystr) (payload : pyval) : M unit :=
  task ← lift (subscript payload (lit "task"));
  log ← lift (processing_log task message_id);
  print_values [raw_text task] (Line log);;
  (if eq_str task (lit "llm_invoke") then
     lift Transporter_new;;
     data ← lift (subscript payload (lit "data"));
     emit (EvTransporter data);;
     lift (Transporter_process data)
   else if eq_str task (lit "set_corrective_action") then
     mark_message_processed message_id;;
     handle_message payload;;
     print (Value payload)
   else if eq_str task (lit "sourav-producer2") then
     print SouravBlock2
   else
     mark_message_processed message_id);;
  sleep POLL_INTERVAL.

(** One pass through the body of the [while True] loop of [watch_queue]. *)
Definition watch_cycle : M unit :=
  message ← get_pending_message;
  match message with
  | None =>
    print NoPendingMessages;;
    sleep POLL_INTERVAL
  | Some (message_id, payload) => dispatch message_id payload
  end.

(** The loop itself, cut after [n] cycles: it goes on until a cycle ends
    by an exception, which ends [watch_queue]. *)
Fixpoint watch_loop (n : nat) : M unit :=
  match n with
  | O => mret tt
  | S n' => watch_cycle;; watch_loop n'
  end.

Definition watch_queue (n : nat) : M unit :=
  print WatcherStarted;;
  watch_loop n.

End Listener.

(** ** Scenarios, worlds after an effect, concrete records *)

Section Scenarios.
Context `{Collaborators}.

(** Enqueueing the tasks of a list in order, collecting the ids. *)
Fixpoint enqueue_each (tasks : list pyval) : M (list pystr) :=
  match tasks with
  | [] => mret []
  | t :: rest =>
    item_id ← enqueue t;
    ids ← enqueue_each rest;
    mret (item_id :: ids)
  end.

(** Marking the records of a list of ids processed, in order. *)
Fixpoint mark_each (ids : list pystr) : M unit :=
  match ids with
  | [] => mret tt
  | i :: rest => mark_message_processed i;; mark_each rest
  end.

End Scenarios.

(** The status of the records with a given id. *)
Definition status_of (mid : pystr) (q : list qrow) : list string :=
  status <$> List.filter (fun r => pystr_eqb (id r) mid) q.

Definition no_pending (q : list qrow) : Prop :=
  Forall (fun r => is_pending r = false) q.

Definition fresh (item_id : pystr) (q : list qrow) : Prop :=
  Forall (fun r => id r <> item_id) q.

Definition new_row (item_id data_json : pystr) (now : nat) : qrow :=
  {| id := item_id; data := data_json; status := "pending";
     created_at := now; processed_at := None |}.

(** Collaborators that all succeed: ids [id-0], [id-1], ..., no similar
    case in the vector store, a fixed answer of the LLM. *)
Definition quiet : Collaborators :=
  {| uuid4 := fun n => lit "id-" ++ int_repr (Z.of_nat n);
     Transporter_new := Ok tt;
     Transporter_process := fun _ => Ok tt;
     similarity_search := fun _ => Ok [];
     llm_invoke := fun _ => Ok (lit " Restart the service. ");
     sqlite3_connect := Ok tt |}.

(** Collaborators whose agent pipeline and LLM endpoint fail. *)
Definition failing : Collaborators :=
  {| uuid4 := fun n => lit "id-" ++ int_repr (Z.of_nat n);
     Transporter_new := Ok tt;
     Transporter_process := fun _ => Raise (External 1);
     similarity_search := fun _ => Ok [];
     llm_invoke := fun _ => Raise (External 2);
     sqlite3_connect := Ok tt |}.

Definition empty_world : world :=
  {| queue := []; classifier_outputs := []; clock := 0; draws := 0; trace := [] |}.

(** The wire format [{"task": tag, "data": data}]. *)
Definition task_payload (tag : pystr) (data : pyval) : pyval :=
  PDict [(PStr (lit "task"), PStr tag); (PStr (lit "data"), data)].

(** The world after one effect. *)
Definition emitted (e : event) (w : world) : world :=
  with_trace (trace w ++ [e]) w.

Definition printed (l : log_line) (w : world) : world := emitted (EvPrint l) w.

Definition slept (w : world) : world :=
  with_clock (clock w + POLL_INTERVAL)%nat (emitted (EvSleep POLL_INTERVAL) w).

Definition marked (mid : pystr) (w : world) : world :=
  with_queue (mark_row mid (clock w) <$> queue w) (emitted (EvSetProcessed mid) w).

(** A statement that leaves the [queue] table as it is, and one that never
    ends by an exception. *)
Definition keeps_queue {A} (m : M A) : Prop := forall w, queue (m w).2 = queue w.

Definition returns {A} (m : M A) : Prop := forall w, exists a, (m w).1 = Ok a.

Definition log_of (tag message_id : pystr) : log_line :=
  Line (lit "Processing " ++ tag ++ lit " with id: " ++ message_id).

(** A statement whose new events all satisfy [P]; the trace only grows. *)
Definition emits {A} (P : event -> Prop) (m : M A) : Prop :=
  forall w, exists new, trace (m w).2 = trace w ++ new /\ Forall P new.

Section AfterSearch.
Context `{Collaborators}.

(** The corrective-action handler from the point where the similarity
    search was issued: the rest of [get_corrective_action_from_rag]. *)
Definition rag_answer (query : pystr) : M pystr :=
  results ← lift (similarity_search query);
  let context :=
    if Nat.eqb (length results) 0
    then lit "No similar historical cases found."
    else join [10; 10] (cases results) in
  let prompt := prompt_of query context in
  emit (EvLlmInvoke prompt);;
  response ← lift (llm_invoke prompt);
  let corrective_action := strip response in
  mret corrective_action.

(** The rest of [process_corrective_action] around it. *)
Definition process_after_search (classifier_id : pyval) (query : pystr) : M bool :=
  try_except
    (corrective_action ←
       try_except (rag_answer query) (fun e => print (RagQueryError e);; raise e);
     print_values [take 100 corrective_action]
       (GeneratedAction (take 100 corrective_action));;
     update_corrective_action_db classifier_id corrective_action;;
     print_values [raw_text classifier_id] (ProcessedOk classifier_id);;
     mret true)
    (fun e => print (ProcessingError e);; mret false).

End AfterSearch.

(** The JSON text of a payload, as [enqueue] stores it. *)
Definition text_of (p : pyval) : pystr :=
  match json_dumps p with Ok t => t | Raise _ => [] end.

(** A store with one pending record, id [id-0]. *)
Definition one_pending (data_text : pystr) : world :=
  {| queue := [new_row (lit "id-0") data_text 0]; classifier_outputs := [];
     clock := 0; draws := 1; trace := [] |}.

Definition sourav_task : pyval := task_payload (lit "sourav-producer2") (PDict []).
Definition llm_task : pyval :=
  task_payload (lit "llm_invoke") (PDict [(PStr (lit "query"), PStr (lit "status"))]).
Definition unknown_task : pyval := task_payload (lit "unrecognized_xyz") (PDict []).
Definition X1_data : pyval := PDict [(PStr (lit "payload_id"), PStr (lit "X1"))].
Definition X1_task : pyval := task_payload (lit "set_corrective_action") X1_data.

Definition id0 : pystr := lit "id-0".
Definition row_of (p : pyval) : qrow := new_row id0 (text_of p) 0.

(** What one cycle does to the world on a [sourav-producer2] record. *)
Definition sourav_cycle (w : world) : world :=
  slept (printed SouravBlock2 (printed (log_of (lit "sourav-producer2") id0) w)).

(** Every similarity search is made with the constant description. *)
Definition queries_constant (ev : event) : Prop :=
  forall q, ev = EvSimilaritySearch q -> q = lit "No incident description provided".

Definition X1_disk_full : pyval :=
  PDict [(PStr (lit "payload_id"), PStr (lit "X1"));
         (PStr (lit "error_message"), PStr (lit "disk full"))].

Definition X1_timeout : pyval :=
  PDict [(PStr (lit "error_message"), PStr (lit "upstream timeout"));
         (PStr (lit "payload_id"), PStr (lit "X1"))].

Definition processed_row (now : nat) (r : qrow) : qrow :=
  {| id := id r; data := data r; status := "processed";
     created_at := created_at r; processed_at := Some now |}.

(** A record after the records of the ids [mids] were marked. *)
Definition marked_by (mids : list pystr) (now : nat) (r : qrow) : qrow :=
  if bool_decide (id r ∈ mids) then processed_row now r else r.

(** The records that enqueueing texts under ids appends. *)
Definition rows_of (ids texts : list pystr) (now : nat) : list qrow :=
  zip_with (fun i x => new_row i x now) ids texts.

Definition three_tasks : list pyval := [X1_task; llm_task; unknown_task].

(** The number of records with a given status. *)
Definition count_status (st : string) (q : list qrow) : nat :=
  length (List.filter (fun r => String.eqb (status r) st) q).

(** The count of a status in the result of the GROUP BY. *)
Fixpoint assoc (groups : list (string * nat)) (st : string) : option nat :=
  match groups with
  | [] => None
  | (s, n) :: rest => if String.eqb s st then Some n else assoc rest st
  end.

Definition five_tasks : list pyval :=
  [X1_task; llm_task; unknown_task; sourav_task;
   task_payload (lit "llm_invoke") (PTuple [PInt 1; PInt 2])].

(** ** Vocabulary of the further properties *)

(** What one idle cycle does to the world. *)
Definition idle_cycle (w : world) : world := slept (printed NoPendingMessages w).

(** The exception of the log line of [watch_queue] on a payload without a
    string task tag: subscripting what is not a dictionary and concatenating
    what is not a string are [TypeError]s, a missing key is a [KeyError]. *)
Definition tag_error (payload : pyval) : exn :=
  match payload with
  | PDict d =>
    match dict_find d (lit "task") with
    | None => KeyError
    | Some _ => TypeError
    end
  | _ => TypeError
  end.

(** A record before and after some statements: the same id, text and
    creation time, and a status that is as before or processed. *)
Definition aged (r r' : qrow) : Prop :=
  id r' = id r /\ data r' = data r /\ created_at r' = created_at r /\
  (r' = r \/ status r' = "processed").

(** A table before and after: the same records in the same order, each one
    aged. *)
Definition ages (q q' : list qrow) : Prop := Forall2 aged q q'.

Definition ages_queue {A} (m : M A) : Prop :=
  forall w, ages (queue w) (queue (m w).2).

(** The ids marked processed in a trace, in order. *)
Definition marks (t : list event) : list pystr :=
  omap (fun ev => match ev with EvSetProcessed i => Some i | _ => None end) t.

Definition no_mark (ev : event) : Prop := forall i, ev <> EvSetProcessed i.

(** A record the watcher consumes: its text is a JSON object with a string
    task tag that the standard output can encode and that is neither
    [llm_invoke] nor [sourav-producer2], and with a [data] entry when the tag
    is [set_corrective_action]. *)
Definition consumable (r : qrow) : Prop :=
  exists payload tag,
    json_loads (data r) = Ok payload /\
    subscript payload (lit "task") = Ok (PStr tag) /\
    encodable tag = true /\
    tag <> lit "llm_invoke" /\ tag <> lit "sourav-producer2" /\
    (tag = lit "set_corrective_action" ->
     exists d, subscript payload (lit "data") = Ok d).

(** Payloads that lack an entry of the wire format. *)
Definition tagless_task : pyval := PDict [(PStr (lit "data"), PDict [])].
Definition corrective_no_data : pyval :=
  PDict [(PStr (lit "task"), PStr (lit "set_corrective_action"))].
Definition llm_no_data : pyval := PDict [(PStr (lit "task"), PStr (lit "llm_invoke"))].

(** A store whose only record is processed. *)
Definition done_world : world :=
  {| queue := [processed_row 0 (row_of unknown_task)]; classifier_outputs := [];
     clock := 7; draws := 1; trace := [] |}.

(** A store with a processed record and two pending ones. *)
Definition backlog : world :=
  {| queue := [processed_row 0 (row_of llm_task);
               new_row (lit "id-1") (text_of unknown_task) 1;
               new_row (lit "id-2") (text_of X1_task) 2];
     classifier_outputs := []; clock := 3; draws := 3; trace := [] |}.

(** The context of the prompt for the documents of a similarity search. *)
Definition context_of (results : list pystr) : pystr :=
  if Nat.eqb (length results) 0
  then lit "No similar historical cases found."
  else join [10; 10] (cases results).

(** The description every RAG query is made with. *)
Definition description : pystr := lit "No incident description provided".

(** A string without white space at either end. *)
Definition stripped (s : pystr) : Prop := lstrip s = s /\ lstrip (rev s) = rev s.

(** A row of [classifier_outputs] that no corrective action was written
    to, and a table of two of them. *)
Definition open_corow (k : pystr) : corow :=
  {| payload_id := k; corrective_action := None;
     co_processed_at := None; co_updated_at := None |}.

Definition classified : world :=
  {| queue := []; classifier_outputs := [open_corow (lit "X1"); open_corow (lit "X2")];
     clock := 5; draws := 0; trace := [] |}.

(** Collaborators whose vector store fails. *)
Definition no_store : Collaborators :=
  {| uuid4 := fun n => lit "id-" ++ int_repr (Z.of_nat n);
     Transporter_new := Ok tt;
     Transporter_process := fun _ => Ok tt;
     similarity_search := fun _ => Raise (External 3);
     llm_invoke := fun _ => Ok (lit "unused");
     sqlite3_connect := Ok tt |}.

(** Printable ASCII. *)
Definition printable (c : N) : Prop := 32 <= c /\ c <= 126.

(** The total of the counts of a statistics dictionary. *)
Definition total (stats : gmap string nat) : nat :=
  map_fold (fun _ n acc => (n + acc)%nat) 0%nat stats.

(** An approved record as the approval page sends it: the payload of an
    [llm_invoke] task is the JSON text of the record. *)
Definition approved_record : pyval :=
  PDict [(PStr (lit "id"), PInt 7);
         (PStr (lit "approved_by"), PStr (lit "ADMIN"))].

(** The payloads handed to [Transporter.process], in order. *)
Definition deliveries (t : list event) : list pyval :=
  omap (fun ev => match ev with EvTransporter d => Some d | _ => None end) t.

(** What one cycle does to the world on an [llm_invoke] record that the
    agent pipeline accepts. *)
Definition llm_cycle (mid : pystr) (d : pyval) (w : world) : world :=
  slept (emitted (EvTransporter d) (printed (log_of (lit "llm_invoke") mid) w)).



Definition garbled : Collaborators :=
  {| uuid4 := fun n => lit "id-" ++ int_repr (Z.of_nat n);
     Transporter_new := Ok tt;
     Transporter_process := fun _ => Ok tt;
     similarity_search := fun _ => Ok [];
     llm_invoke := fun _ => Ok (lit "Restart " ++ [55296]);
     sqlite3_connect := Ok tt |}.

(** * Properties *)

(** ** Round trip of the JSON text *)

Lemma hexval_hexdigit d : d < 16 -> hexval (hexdigit d) = Some d.
Proof.
  intros Hd. unfold hexdigit, hexval.
  destruct (d <? 10) eqn:E.
  - apply N.ltb_lt in E.
    replace ((48 <=? 48 + d) && (48 + d <=? 57)) with true.
    + f_equal. lia.
    + symmetry. apply andb_true_iff. split; apply N.leb_le; lia.
  - apply N.ltb_ge in E.
    replace ((48 <=? 87 + d) && (87 + d <=? 57)) with false.
    + replace ((97 <=? 87 + d) && (87 + d <=? 102)) with true.
      * f_equal. lia.
      * symmetry. apply andb_true_iff. split; apply N.leb_le; lia.
    + symmetry. apply andb_false_iff. right. apply N.leb_gt. lia.
Qed.

Lemma hex4_value_hex4 n :
  n < 65536 ->
  hex4_value (hexdigit (n / 4096 mod 16)) (hexdigit (n / 256 mod 16))
             (hexdigit (n / 16 mod 16)) (hexdigit (n mod 16)) = Some n.
Proof.
  intros Hn. unfold hex4_value.
  rewrite !hexval_hexdigit by (apply N.mod_upper_bound; lia).
  cbn. f_equal.
  pose proof (N.div_mod n 16 ltac:(lia)) as H1.
  pose proof (N.div_mod (n / 16) 16 ltac:(lia)) as H2.
  pose proof (N.div_mod (n / 256) 16 ltac:(lia)) as H3.
  pose proof (N.div_mod (n / 4096) 16 ltac:(lia)) as H4.
  rewrite (N.Div0.div_div n 16 16) in H2.
  rewrite (N.Div0.div_div n 256 16) in H3.
  rewrite (N.Div0.div_div n 4096 16) in H4.
  change (16 * 16) with 256 in *. change (256 * 16) with 4096 in *.
  change (4096 * 16) with 65536 in *.
  assert (n / 65536 = 0) as H5 by (apply N.div_small; lia).
  rewrite H5 in H4.
  assert (n / 4096 mod 16 = n / 4096) as -> by lia.
  lia.
Qed.

Lemma lor_pow2_add a x k : x < 2 ^ k -> N.lor (a * 2 ^ k) x = a * 2 ^ k + x.
Proof.
  intros Hx.
  assert (N.land (a * 2 ^ k) x = 0) as Hl.
  { apply N.bits_inj. intros i. rewrite N.land_spec, N.bits_0.
    destruct (N.lt_ge_cases i k) as [Hi|Hi].
    - rewrite N.mul_pow2_bits_low by assumption. reflexivity.
    - rewrite <- (N.mod_small x (2 ^ k)) by assumption.
      rewrite N.mod_pow2_bits_high by assumption. apply andb_false_r. }
  rewrite <- N.lxor_lor by assumption.
  symmetry. apply N.add_nocarry_lxor. assumption.
Qed.

Lemma surrogate_high n :
  n < 1048576 ->
  N.lor 55296 (N.land (N.shiftr n 10) 1023) = 55296 + n / 1024.
Proof.
  intros Hn.
  change 1023 with (N.ones 10). rewrite N.land_ones, N.shiftr_div_pow2.
  change (2 ^ 10) with 1024.
  assert (n / 1024 < 1024) by (apply N.Div0.div_lt_upper_bound; lia).
  rewrite N.mod_small by assumption.
  change 55296 with (54 * 2 ^ 10). apply lor_pow2_add. assumption.
Qed.

Lemma surrogate_low n :
  N.lor 56320 (N.land n 1023) = 56320 + n mod 1024.
Proof.
  change 1023 with (N.ones 10). rewrite N.land_ones.
  change 56320 with (55 * 2 ^ 10). apply lor_pow2_add.
  apply N.mod_upper_bound. discriminate.
Qed.

Lemma surrogate_join n :
  65536 + N.lor (N.shiftl (n / 1024) 10) (n mod 1024) = 65536 + n.
Proof.
  rewrite N.shiftl_mul_pow2, lor_pow2_add
    by (apply N.mod_upper_bound; discriminate).
  change (2 ^ 10) with 1024. f_equal.
  rewrite (N.div_mod n 1024) at 3 by discriminate. lia.
Qed.

(** Decoding the escape of one scalar value gives it back, whatever
    follows. *)
Lemma scanstring_encode_char c k :
  is_scalar c = true ->
  scanstring (encode_char c ++ k) = (res ← scanstring k; Ok (c :: res.1, res.2)).
Proof.
  unfold is_scalar. intros Hs.
  apply andb_true_iff in Hs as [Hs Hmax]. apply N.ltb_lt in Hmax.
  unfold encode_char.
  destruct (c =? 92) eqn:E92; [apply N.eqb_eq in E92; subst; reflexivity|].
  destruct (c =? 34) eqn:E34; [apply N.eqb_eq in E34; subst; reflexivity|].
  destruct (c =? 8) eqn:E8; [apply N.eqb_eq in E8; subst; reflexivity|].
  destruct (c =? 12) eqn:E12; [apply N.eqb_eq in E12; subst; reflexivity|].
  destruct (c =? 10) eqn:E10; [apply N.eqb_eq in E10; subst; reflexivity|].
  destruct (c =? 13) eqn:E13; [apply N.eqb_eq in E13; subst; reflexivity|].
  destruct (c =? 9) eqn:E9; [apply N.eqb_eq in E9; subst; reflexivity|].
  destruct ((32 <=? c) && (c <=? 126)) eqn:Eprint.
  - apply andb_true_iff in Eprint as [Hlo Hhi].
    apply N.leb_le in Hlo.
    cbn [app scanstring]. rewrite E34, E92.
    replace (c <? 32) with false by (symmetry; apply N.ltb_ge; lia).
    reflexivity.
  - destruct (c <? 65536) eqn:Ebmp.
    + apply N.ltb_lt in Ebmp.
      unfold hex4. cbn [app scanstring].
      change (92 =? 34) with false. change (92 =? 92) with true.
      change (117 =? 117) with true. cbv iota.
      rewrite hex4_value_hex4 by assumption.
      replace ((55296 <=? c) && (c <=? 56319)) with false; [reflexivity|].
      symmetry. apply andb_false_iff.
      apply orb_true_iff in Hs as [H|H].
      * left. apply N.leb_gt. apply N.ltb_lt in H. assumption.
      * right. apply N.leb_gt. apply N.ltb_lt in H. lia.
    + apply N.ltb_ge in Ebmp.
      assert (exists n, c = 65536 + n /\ n < 1048576) as (n & -> & Hn)
        by (exists (c - 65536); lia).
      clear - Hn. cbv zeta. replace (65536 + n - 65536) with n by lia.
      rewrite surrogate_high, surrogate_low by assumption.
      assert (n / 1024 < 1024) by (apply N.Div0.div_lt_upper_bound; lia).
      assert (n mod 1024 < 1024) by (apply N.mod_upper_bound; discriminate).
      unfold hex4. cbn [app scanstring].
      change (92 =? 34) with false. change (92 =? 92) with true.
      change (117 =? 117) with true. cbv iota.
      rewrite hex4_value_hex4 by lia.
      replace ((55296 <=? 55296 + n / 1024) && (55296 + n / 1024 <=? 56319))
        with true
        by (symmetry; apply andb_true_iff; split; apply N.leb_le; lia).
      cbn [andb]. cbv iota.
      rewrite hex4_value_hex4 by lia.
      replace ((56320 <=? 56320 + n mod 1024) && (56320 + n mod 1024 <=? 57343))
        with true
        by (symmetry; apply andb_true_iff; split; apply N.leb_le; lia).
      replace (55296 + n / 1024 - 55296) with (n / 1024) by lia.
      replace (56320 + n mod 1024 - 56320) with (n mod 1024) by lia.
      rewrite surrogate_join.
      reflexivity.
Qed.

Lemma scanstring_encode s rest :
  forallb is_scalar s = true ->
  scanstring (concat (encode_char <$> s) ++ 34 :: rest) = Ok (s, rest).
Proof.
  induction s as [|c s IH]; intros Hs; [reflexivity|].
  cbn [forallb] in Hs. apply andb_true_iff in Hs as [Hc Hs].
  cbn [fmap list_fmap concat]. rewrite <- app_assoc.
  rewrite scanstring_encode_char by assumption.
  change (list_fmap N pystr encode_char s) with (encode_char <$> s).
  rewrite IH by assumption. reflexivity.
Qed.

Lemma span_digits_uint u rest :
  no_digit_head rest ->
  span_digits (uint_chars u ++ rest) = (uint_chars u, rest).
Proof.
  intros Hr.
  induction u; cbn [uint_chars app span_digits];
    try (change (is_digit _) with true; cbv iota; rewrite IHu; reflexivity).
  destruct rest as [|c r]; [reflexivity|].
  cbn [span_digits]. cbn in Hr. rewrite Hr. reflexivity.
Qed.

Lemma chars_uint_chars u : chars_uint (uint_chars u) = u.
Proof. induction u; cbn [uint_chars chars_uint]; congruence. Qed.

Lemma unorm_head_zero d d' : Decimal.unorm d = Decimal.D0 d' -> d' = Decimal.Nil.
Proof.
  induction d; cbn [Decimal.unorm]; intros H; try discriminate; auto.
  injection H as <-. reflexivity.
Qed.

Lemma pos_to_uint_head p :
  exists c cs, uint_chars (Pos.to_uint p) = c :: cs /\ is_digit c = true /\ c <> 48.
Proof.
  assert (Decimal.unorm (Pos.to_uint p) = Pos.to_uint p) as Hn.
  { rewrite <- (DecimalPos.Unsigned.to_of (Pos.to_uint p)).
    rewrite DecimalPos.Unsigned.of_to. reflexivity. }
  pose proof (DecimalPos.Unsigned.to_uint_nonzero p) as Hz.
  destruct (Pos.to_uint p) as [|d|d|d|d|d|d|d|d|d|d] eqn:E;
    cbn [uint_chars]; try (eexists _, _; split; [reflexivity|split; [reflexivity|discriminate]]).
  - exfalso. apply (DecimalPos.Unsigned.to_uint_nonnil p). assumption.
  - exfalso. apply Hz.
    apply unorm_head_zero in Hn. subst. reflexivity.
Qed.

Lemma follow_no_digit rest : follow rest -> no_digit_head rest.
Proof. destruct rest; cbn; [auto|]. intros [->|[->| ->]]; reflexivity. Qed.

Lemma follow_not_float rest : follow rest -> has_frac rest || has_exp rest = false.
Proof.
  destruct rest as [|c r]; [reflexivity|]. cbn [follow].
  intros [->|[->| ->]]; destruct r; reflexivity.
Qed.

Lemma follow_skip_ws rest : follow rest -> skip_ws rest = rest.
Proof. destruct rest; cbn; [auto|]. intros [->|[->| ->]]; reflexivity. Qed.

Lemma scan_number_int_repr z rest :
  (int_digits z <= MAX_STR_DIGITS)%nat ->
  follow rest ->
  scan_number (int_repr z ++ rest) = Some (Ok (PInt z, rest)).
Proof.
  intros Hdig Hf. unfold scan_number, int_repr.
  pose proof (DecimalZ.of_to z) as Hz.
  apply Nat.ltb_ge in Hdig. unfold int_digits in Hdig.
  destruct z as [|p|p]; cbn [Z.to_int] in *.
  - cbn [app uint_chars Pos.to_uint]. unfold match_integer.
    cbn. rewrite follow_not_float by assumption. reflexivity.
  - destruct (pos_to_uint_head p) as (c & cs & E & Hd & H0).
    assert (match_integer (uint_chars (Pos.to_uint p) ++ rest)
            = Some (false, uint_chars (Pos.to_uint p), rest)) as ->.
    { pose proof (span_digits_uint (Pos.to_uint p) rest (follow_no_digit _ Hf)) as Hsp.
      rewrite E in *. cbn [app] in *.
      cbn [span_digits] in Hsp. rewrite Hd in Hsp.
      destruct (span_digits (cs ++ rest)) as [ds r'] eqn:Esp.
      injection Hsp as -> ->. unfold match_integer.
      replace (c =? 45) with false
        by (symmetry; apply N.eqb_neq; intros ->; discriminate).
      replace (c =? 48) with false by (symmetry; apply N.eqb_neq; assumption).
      rewrite Hd, Esp. reflexivity. }
    rewrite follow_not_float by assumption. rewrite Hdig.
    unfold parse_int. rewrite chars_uint_chars, Hz. reflexivity.
  - destruct (pos_to_uint_head p) as (c & cs & E & Hd & H0).
    assert (match_integer (45 :: uint_chars (Pos.to_uint p) ++ rest)
            = Some (true, uint_chars (Pos.to_uint p), rest)) as Hm.
    { pose proof (span_digits_uint (Pos.to_uint p) rest (follow_no_digit _ Hf)) as Hsp.
      rewrite E in *. cbn [app] in *.
      cbn [span_digits] in Hsp. rewrite Hd in Hsp.
      destruct (span_digits (cs ++ rest)) as [ds r'] eqn:Esp.
      injection Hsp as -> ->. unfold match_integer.
      change (45 =? 45) with true. cbv iota.
      replace (c =? 48) with false by (symmetry; apply N.eqb_neq; assumption).
      rewrite Hd, Esp. reflexivity. }
    cbn [app]. rewrite Hm.
    rewrite follow_not_float by assumption. rewrite Hdig.
    unfold parse_int. rewrite chars_uint_chars, Hz. reflexivity.
Qed.

Lemma pyval_nested_ind (P : pyval -> Prop) :
  P PNone -> (forall b, P (PBool b)) -> (forall z, P (PInt z)) ->
  (forall s, P (PStr s)) ->
  (forall l, Forall P l -> P (PList l)) ->
  (forall l, Forall P l -> P (PTuple l)) ->
  (forall d, Forall (fun kv => P kv.1 /\ P kv.2) d -> P (PDict d)) ->
  (forall n, P (PObject n)) ->
  forall v, P v.
Proof.
  intros HN HB HI HS HL HT HD HO.
  fix IH 1. intros [| b | z | s | l | l | d | n].
  - exact HN.
  - apply HB.
  - apply HI.
  - apply HS.
  - apply HL. revert l. fix IHl 1. intros [|x l]; constructor; [apply IH|apply IHl].
  - apply HT. revert l. fix IHl 1. intros [|x l]; constructor; [apply IH|apply IHl].
  - apply HD. revert d. fix IHd 1.
    intros [|[k x] d]; constructor; [split; apply IH|apply IHd].
  - apply HO.
Qed.

Lemma value_head_skip_ws t k : value_head t -> skip_ws (t ++ k) = t ++ k.
Proof. intros (c & cs & -> & Hw & _). cbn. rewrite Hw. reflexivity. Qed.

Lemma value_head_length t : value_head t -> (1 <= length t)%nat.
Proof. intros (c & cs & -> & _). cbn. lia. Qed.

Lemma int_repr_head z :
  exists c cs, int_repr z = c :: cs /\ (is_digit c = true \/ c = 45).
Proof.
  unfold int_repr. destruct z as [|p|p]; cbn [Z.to_int].
  - eexists _, _. split; [reflexivity|]. left. reflexivity.
  - destruct (pos_to_uint_head p) as (c & cs & E & Hd & _).
    exists c, cs. auto.
  - eexists _, _. split; [reflexivity|]. right. reflexivity.
Qed.

Lemma scan_once_int z rest fuel :
  (int_digits z <= MAX_STR_DIGITS)%nat ->
  follow rest -> scan_once (S fuel) (int_repr z ++ rest) = Ok (PInt z, rest).
Proof.
  intros Hdig Hf. pose proof (scan_number_int_repr z rest Hdig Hf) as Hn.
  destruct (int_repr_head z) as (c & cs & E & Hc). rewrite E in *.
  assert (47 < c < 58 \/ c = 45) as Hr.
  { destruct Hc as [Hc|Hc]; [left|right; assumption].
    unfold is_digit in Hc. apply andb_true_iff in Hc as [H1 H2].
    apply N.leb_le in H1, H2. lia. }
  cbn [app] in *. cbn [scan_once].
  replace (c =? 34) with false by (symmetry; apply N.eqb_neq; lia).
  replace (c =? 123) with false by (symmetry; apply N.eqb_neq; lia).
  replace (c =? 91) with false by (symmetry; apply N.eqb_neq; lia).
  cbn [lit list_ascii_of_string fmap list_fmap strip_prefix].
  replace (N_of_ascii "n" =? c) with false by (symmetry; apply N.eqb_neq; cbn; lia).
  replace (N_of_ascii "t" =? c) with false by (symmetry; apply N.eqb_neq; cbn; lia).
  replace (N_of_ascii "f" =? c) with false by (symmetry; apply N.eqb_neq; cbn; lia).
  rewrite Hn. reflexivity.
Qed.

Lemma int_repr_value_head z : value_head (int_repr z).
Proof.
  destruct (int_repr_head z) as (c & cs & E & Hc).
  exists c, cs. split; [assumption|].
  destruct Hc as [Hc| ->]; [|split; reflexivity].
  unfold is_digit in Hc. apply andb_true_iff in Hc as [H1 H2].
  apply N.leb_le in H1, H2. unfold is_ws.
  split; [|apply N.eqb_neq; lia].
  repeat (apply orb_false_iff; split); apply N.eqb_neq; lia.
Qed.

(** [join] on a non-empty list starts with the first item. *)
Lemma join_cons sep x items :
  join sep (x :: items)
  = x ++ match items with [] => [] | _ :: _ => sep ++ join sep items end.
Proof. destruct items; cbn [join]; [rewrite app_nil_r|]; reflexivity. Qed.

Lemma join_length_item sep items t :
  t ∈ items -> (length t <= length (join sep items))%nat.
Proof.
  induction items as [|x items IH]; intros Hin; [inversion Hin|].
  rewrite join_cons, length_app.
  apply elem_of_cons in Hin as [->|Hin]; [lia|].
  destruct items as [|y items]; [inversion Hin|].
  specialize (IH Hin). rewrite length_app. lia.
Qed.

Lemma join_length_count sep items :
  Forall (fun t => (1 <= length t)%nat) items ->
  (length items <= length (join sep items))%nat.
Proof.
  induction 1 as [|x items Hx _ IH]; [cbn; lia|].
  rewrite join_cons, length_app. cbn [length].
  destruct items; [cbn; lia|]. rewrite length_app. lia.
Qed.

Ltac exc_simpl := cbn [mbind exc_mbind exc_bind mret exc_mret fst snd].

Lemma scans_scans_at fuel l items :
  Forall2 scans l items ->
  (forall t, t ∈ items -> (length t <= fuel)%nat) ->
  Forall2 (scans_at fuel) l items.
Proof.
  induction 1 as [|v t l items [Hh Hv] _ IH]; intros Hfuel; constructor.
  - split; [assumption|]. intros rest Hf. apply Hv; [|assumption].
    apply Hfuel. left.
  - apply IH. intros t' Hin. apply Hfuel. right. assumption.
Qed.

Lemma array_loop_ok f1 l items :
  Forall2 (scans_at f1) l items ->
  l <> [] ->
  forall f2 rest, (length l <= f2)%nat ->
  array_loop (scan_once f1) f2 (join (lit ", ") items ++ 93 :: rest) = Ok (l, rest).
Proof.
  change (lit ", ") with [44; 32].
  induction 1 as [|v t l items [Hh Hv] Hrest IH]; intros Hne f2 rest Hlen;
    [congruence|].
  destruct f2 as [|f2]; [cbn in Hlen; lia|].
  cbn [array_loop]. rewrite join_cons, <- app_assoc.
  inversion Hrest as [|v' t' l' items' [Hh' Hv'] Hrest' El Ei]; subst.
  - cbn [app]. rewrite Hv by (cbn; auto). exc_simpl. reflexivity.
  - cbn [app].
    rewrite Hv by (cbn; auto). exc_simpl.
    cbn [skip_ws is_ws N.eqb Pos.eqb orb].
    rewrite join_cons, <- app_assoc.
    rewrite value_head_skip_ws by assumption.
    rewrite app_assoc, <- join_cons.
    rewrite IH; [reflexivity|discriminate|cbn in *; lia].
Qed.

Lemma object_loop_ok f1 (d : list (pystr * pyval)) items :
  Forall2 (fun kv t =>
             exists vt,
               t = encode_basestring_ascii kv.1 ++ lit ": " ++ vt /\
               forallb is_scalar kv.1 = true /\ value_head vt /\
               forall rest, follow rest ->
                            scan_once f1 (vt ++ rest) = Ok (kv.2, rest))
          d items ->
  d <> [] ->
  forall f2 rest s, (length d <= f2)%nat ->
  join (lit ", ") items ++ 125 :: rest = 34 :: s ->
  object_loop (scan_once f1) f2 s = Ok (d, rest).
Proof.
  change (lit ", ") with [44; 32]. change (lit ": ") with [58; 32].
  induction 1 as [|[k v] t d items (vt & -> & Hk & Hh & Hv) Hrest IH];
    intros Hne f2 rest s Hlen Hs; [congruence|].
  destruct f2 as [|f2]; [cbn in Hlen; lia|].
  cbn [fst snd] in *.
  rewrite join_cons in Hs. unfold encode_basestring_ascii in Hs.
  rewrite <- !app_assoc in Hs. cbn [app] in Hs. injection Hs as <-.
  cbn [object_loop]. rewrite scanstring_encode by assumption. exc_simpl.
  cbn [skip_ws is_ws N.eqb Pos.eqb orb].
  rewrite value_head_skip_ws by assumption.
  inversion Hrest as [|[k' v'] t' d' items' (vt' & -> & Hk' & Hh' & Hv') Hrest' El Ei];
    subst.
  - cbn [app]. rewrite Hv by (cbn; auto). exc_simpl. reflexivity.
  - cbn [app].
    rewrite Hv by (cbn; auto). exc_simpl.
    cbn [skip_ws is_ws N.eqb Pos.eqb orb].
    rewrite join_cons. unfold encode_basestring_ascii at 1.
    rewrite <- !app_assoc. cbn [app skip_ws is_ws N.eqb Pos.eqb orb].
    erewrite IH; [reflexivity|discriminate|cbn in *; lia|].
    rewrite join_cons. unfold encode_basestring_ascii at 1.
    rewrite <- !app_assoc. reflexivity.
Qed.

Lemma dict_set_fresh (done : list (pystr * pyval)) k v :
  k ∉ done.*1 ->
  dict_set (str_item <$> done) k v = str_item <$> (done ++ [(k, v)]).
Proof.
  induction done as [|[k' v'] done IH]; intros Hk; [reflexivity|].
  cbn [fmap list_fmap str_item fst snd dict_set app] in *.
  apply not_elem_of_cons in Hk as [Hne Hk].
  unfold pystr_eqb. rewrite bool_decide_eq_false_2 by congruence.
  f_equal. apply IH. assumption.
Qed.

Lemma dict_of_pairs_distinct pairs :
  NoDup pairs.*1 -> dict_of_pairs pairs = str_item <$> pairs.
Proof.
  unfold dict_of_pairs.
  change (@nil (pyval * pyval)) with (str_item <$> []).
  rewrite <- (app_nil_l pairs) at 1 3.
  generalize (@nil (pystr * pyval)) as done.
  induction pairs as [|[k v] pairs IH]; intros done Hnd.
  - rewrite app_nil_r. reflexivity.
  - cbn [fold_left fst snd].
    rewrite fmap_app in Hnd. apply NoDup_app in Hnd as (Hd & Hdisj & Hp).
    rewrite dict_set_fresh.
    + rewrite IH; [rewrite <- app_assoc; reflexivity|].
      rewrite <- app_assoc. rewrite fmap_app. apply NoDup_app.
      split; [assumption|]. split; [assumption|assumption].
    + intros Hin. apply (Hdisj _ Hin). cbn. left.
Qed.

(** A dictionary whose keys are strings is a list of [(str, value)] pairs. *)
Lemma str_keys_pairs d :
  forallb (fun kv => match kv.1 with PStr _ => true | _ => false end) d = true ->
  exists pairs, d = str_item <$> pairs /\ omap key_str d = pairs.*1.
Proof.
  induction d as [|[k v] d IH]; intros H.
  - exists []. split; reflexivity.
  - cbn [forallb fst] in H. apply andb_true_iff in H as [Hk H].
    destruct (IH H) as (pairs & -> & Ek).
    destruct k; try discriminate.
    exists ((s, v) :: pairs). split; [reflexivity|].
    cbn. f_equal. assumption.
Qed.

Lemma exc_mapM_Forall2 {A B} (f : A -> exc B) (Q : A -> B -> Prop) l :
  Forall (fun x => exists y, f x = Ok y /\ Q x y) l ->
  exists ys, exc_mapM f l = Ok ys /\ Forall2 Q l ys.
Proof.
  induction 1 as [|x l (y & Ey & Hy) _ (ys & Eys & Hys)].
  - exists []. split; [reflexivity|constructor].
  - exists (y :: ys). split; [|constructor; assumption].
    cbn [exc_mapM]. rewrite Ey. exc_simpl.
    change ((fix go (l0 : list A) : exc (list B) :=
               match l0 with
               | [] => Ok []
               | x0 :: l' => y0 ← f x0; ys0 ← go l'; Ok (y0 :: ys0)
               end) l) with (exc_mapM f l).
    rewrite Eys. reflexivity.
Qed.

Lemma Forall2_right {A B} (P : A -> B -> Prop) (Q : B -> Prop) l k :
  Forall2 P l k -> (forall x y, P x y -> Q y) -> Forall Q k.
Proof. induction 1; intros HPQ; constructor; eauto. Qed.

Lemma JSONArray_value sc fuel t k :
  value_head t ->
  JSONArray sc fuel (t ++ k)
  = (res ← array_loop sc fuel (t ++ k); Ok (PList res.1, res.2)).
Proof.
  intros Hh. unfold JSONArray. rewrite value_head_skip_ws by assumption.
  destruct Hh as (c & cs & -> & _ & Hc). cbn [app]. rewrite Hc. reflexivity.
Qed.

Lemma JSONObject_ok fuel (pairs : list (pystr * pyval)) items rest :
  Forall2 (fun kv t =>
             exists vt,
               t = encode_basestring_ascii kv.1 ++ lit ": " ++ vt /\
               forallb is_scalar kv.1 = true /\ scans kv.2 vt)
          pairs items ->
  NoDup pairs.*1 ->
  (length (join (lit ", ") items) <= fuel)%nat ->
  JSONObject (scan_once fuel) fuel (join (lit ", ") items ++ 125 :: rest)
  = Ok (PDict (str_item <$> pairs), rest).
Proof.
  intros Hi Hnd Hlen. unfold JSONObject.
  destruct pairs as [|kv pairs].
  { inversion Hi; subst. reflexivity. }
  assert (forall t, t ∈ items -> (length t <= fuel)%nat) as Hfuel.
  { intros t Hin. pose proof (join_length_item (lit ", ") items t Hin). lia. }
  assert (Forall (fun t => exists s, t = 34 :: s) items) as Hq.
  { apply (Forall2_right _ _ _ _ Hi). intros ? ? (vt & -> & _).
    eexists. reflexivity. }
  assert (length (kv :: pairs) <= fuel)%nat as Hcount.
  { assert (Forall (fun t => (1 <= length t)%nat) items) as Hne.
    { eapply Forall_impl; [exact Hq|]. intros ? [? ->]. cbn. lia. }
    pose proof (join_length_count (lit ", ") _ Hne).
    rewrite (Forall2_length _ _ _ Hi). lia. }
  assert (Forall2 (fun kv t =>
             exists vt,
               t = encode_basestring_ascii kv.1 ++ lit ": " ++ vt /\
               forallb is_scalar kv.1 = true /\ value_head vt /\
               forall rest, follow rest ->
                            scan_once fuel (vt ++ rest) = Ok (kv.2, rest))
          (kv :: pairs) items) as Hobj.
  { clear - Hi Hfuel.
    induction Hi as [|kv' t ps its (vt & -> & Hk & Hh & Hv) _ IH]; constructor.
    - exists vt. split; [reflexivity|]. split; [assumption|].
      split; [assumption|]. intros rest Hf. apply Hv; [|assumption].
      specialize (Hfuel _ ltac:(left)). rewrite !length_app in Hfuel. lia.
    - apply IH. intros t Hin. apply Hfuel. right. assumption. }
  destruct items as [|t items]; [inversion Hi|].
  assert (exists s, join (lit ", ") (t :: items) ++ 125 :: rest = 34 :: s)
    as [s Es].
  { inversion Hq as [|? ? [s' ->] _]; subst.
    rewrite join_cons. cbn [app]. eexists. reflexivity. }
  rewrite Es. cbn [skip_ws is_ws N.eqb Pos.eqb orb].
  rewrite (object_loop_ok fuel _ _ Hobj ltac:(discriminate) fuel rest s Hcount Es).
  exc_simpl. rewrite dict_of_pairs_distinct by assumption. reflexivity.
Qed.

(** The representable payloads are encoded without error, and scanning the
    text gives the payload back. *)
Lemma encode_scan_once v :
  json_value v = true -> exists text, encode v = Ok text /\ scans v text.
Proof.
  induction v as [| b | z | s | l IHl | l IHl | d IHd | n] using pyval_nested_ind;
    intros Hj; try discriminate.
  - exists (lit "null"). split; [reflexivity|]. split.
    + eexists _, _. split; [reflexivity|]. split; reflexivity.
    + intros [|fuel] rest Hlen _; [cbn in Hlen; lia|]. reflexivity.
  - exists (if b then lit "true" else lit "false").
    split; [destruct b; reflexivity|]. split.
    + destruct b; eexists _, _; (split; [reflexivity|]); split; reflexivity.
    + intros [|fuel] rest Hlen _; [destruct b; cbn in Hlen; lia|].
      destruct b; reflexivity.
  - cbn [json_value] in Hj. apply Nat.leb_le in Hj.
    exists (int_repr z). split.
    { cbn [encode]. unfold int_str.
      replace (MAX_STR_DIGITS <? int_digits z)%nat with false
        by (symmetry; apply Nat.ltb_ge; exact Hj).
      reflexivity. }
    split.
    + apply int_repr_value_head.
    + intros [|fuel] rest Hlen Hf.
      * pose proof (value_head_length _ (int_repr_value_head z)). lia.
      * apply scan_once_int; assumption.
  - cbn [json_value] in Hj.
    exists (encode_basestring_ascii s). split; [reflexivity|]. split.
    + eexists _, _. split; [reflexivity|]. split; reflexivity.
    + intros [|fuel] rest Hlen _; [cbn in Hlen; lia|].
      unfold encode_basestring_ascii. rewrite <- !app_assoc.
      cbn [app scan_once]. change (34 =? 34) with true. cbv iota.
      rewrite scanstring_encode by assumption. reflexivity.
  - cbn [json_value] in Hj. rewrite forallb_forall in Hj.
    destruct (exc_mapM_Forall2 encode scans l) as (items & Ei & Hi).
    { apply Forall_forall. intros x Hx.
      rewrite Forall_forall in IHl. apply IHl; [assumption|].
      apply Hj. apply list_elem_of_In. assumption. }
    exists ([91] ++ join (lit ", ") items ++ [93]). split.
    { cbn [encode]. rewrite Ei. reflexivity. }
    split.
    { eexists _, _. split; [reflexivity|]. split; reflexivity. }
    intros [|fuel] rest Hlen Hf; [cbn in Hlen; lia|].
    rewrite length_app, length_app in Hlen. cbn [length] in Hlen.
    rewrite <- !app_assoc. cbn [app scan_once].
    change (91 =? 34) with false. change (91 =? 123) with false.
    change (91 =? 91) with true. cbv iota.
    destruct l as [|x l'].
    { inversion Hi; subst. reflexivity. }
    destruct items as [|t items']; [inversion Hi|].
    assert (value_head t) as Hh by (inversion Hi as [|? ? ? ? [? _]]; assumption).
    rewrite join_cons, <- app_assoc.
    rewrite JSONArray_value by assumption.
    rewrite app_assoc, <- join_cons.
    rewrite (array_loop_ok fuel (x :: l') (t :: items'));
      [reflexivity| |discriminate|].
    + apply scans_scans_at; [assumption|]. intros t' Hin.
      pose proof (join_length_item (lit ", ") _ t' Hin). lia.
    + assert (Forall (fun t => (1 <= length t)%nat) (t :: items')) as Hne.
      { apply (Forall2_right _ _ _ _ Hi). intros ? ? [? _].
        apply value_head_length. assumption. }
      pose proof (join_length_count (lit ", ") _ Hne) as Hc.
      rewrite (Forall2_length _ _ _ Hi). lia.
  - cbn [json_value] in Hj. apply andb_true_iff in Hj as [Hall Hnd].
    apply bool_decide_eq_true in Hnd.
    destruct (str_keys_pairs d) as (pairs & -> & Ek).
    { rewrite forallb_forall in Hall |- *. intros kv Hin.
      specialize (Hall kv Hin). destruct kv.1; try discriminate. reflexivity. }
    rewrite Ek in Hnd.
    destruct (exc_mapM_Forall2
                (fun kv => ks ← encode_key kv.1; vs ← encode kv.2;
                           Ok (encode_basestring_ascii ks ++ lit ": " ++ vs))
                (fun kv t =>
                   exists k vt,
                     kv.1 = PStr k /\
                     t = encode_basestring_ascii k ++ lit ": " ++ vt /\
                     forallb is_scalar k = true /\ scans kv.2 vt)
                (str_item <$> pairs)) as (items & Ei & Hi).
    { rewrite forallb_forall in Hall. rewrite Forall_forall in IHd |- *.
      intros [k v] Hin. specialize (IHd _ Hin) as [_ IHv].
      apply list_elem_of_In in Hin. specialize (Hall _ Hin).
      cbn [fst snd] in *. destruct k; try discriminate.
      apply andb_true_iff in Hall as [Hk Hv].
      destruct (IHv Hv) as (vt & Ev & Hvt).
      eexists. split.
      - cbn [encode_key]. exc_simpl. rewrite Ev. exc_simpl. reflexivity.
      - eexists _, _. eauto. }
    exists ([123] ++ join (lit ", ") items ++ [125]). split.
    { cbn [encode]. rewrite Ei. reflexivity. }
    split.
    { eexists _, _. split; [reflexivity|]. split; reflexivity. }
    intros [|fuel] rest Hlen Hf; [cbn in Hlen; lia|].
    rewrite length_app, length_app in Hlen. cbn [length] in Hlen.
    rewrite <- !app_assoc. cbn [app scan_once].
    change (123 =? 34) with false. change (123 =? 123) with true. cbv iota.
    apply JSONObject_ok; [|assumption|lia].
    apply Forall2_fmap_l in Hi.
    eapply Forall2_impl; [exact Hi|].
    intros [k v] t (k' & vt & Hk & -> & Hs & Hv). cbn in Hk.
    injection Hk as <-. exists vt. auto.
Qed.

(** [json.loads(json.dumps(p)) == p] on the representable payloads. *)
Lemma json_loads_dumps v :
  is_json v = true ->
  exists text, json_dumps v = Ok text /\ json_loads text = Ok v.
Proof.
  intros Hj. apply andb_true_iff in Hj as [Hj _].
  destruct (encode_scan_once v Hj) as (text & Et & Hh & Hs).
  exists text. split; [assumption|]. unfold json_loads.
  rewrite <- (app_nil_r text) at 2.
  rewrite value_head_skip_ws by assumption.
  rewrite Hs; [reflexivity|lia|exact I].
Qed.

(** What is serializable without being representable does not come back
    as it was: a tuple comes back as a list, an integer key as a string, and
    two surrogate code points in a row as the one code point they encode. *)
Example tuple_comes_back_as_list :
  (text ← json_dumps (PTuple [PInt 1; PInt 2]); json_loads text)
  = Ok (PList [PInt 1; PInt 2]).
Proof. vm_compute. reflexivity. Qed.

Example int_key_comes_back_as_str :
  (text ← json_dumps (PDict [(PInt 1, PNone)]); json_loads text)
  = Ok (PDict [(PStr (lit "1"), PNone)]).
Proof. vm_compute. reflexivity. Qed.

Example surrogates_come_back_joined :
  (text ← json_dumps (PStr [55357; 56832]); json_loads text) = Ok (PStr [128512]).
Proof. vm_compute. reflexivity. Qed.

Lemma exc_mapM_error {A B} (f : A -> exc B) (P : exn -> Prop) l e :
  Forall (fun x => forall e, f x = Raise e -> P e) l ->
  exc_mapM f l = Raise e -> P e.
Proof.
  induction 1 as [|x l Hx _ IH]; [discriminate|].
  cbn [exc_mapM]. destruct (f x) as [y|e'] eqn:Ey; exc_simpl.
  - change ((fix go (l0 : list A) : exc (list B) :=
               match l0 with
               | [] => Ok []
               | x0 :: l' => y0 ← f x0; ys0 ← go l'; Ok (y0 :: ys0)
               end) l) with (exc_mapM f l).
    destruct (exc_mapM f l) as [ys|e''] eqn:Eys; exc_simpl; [discriminate|].
    intros [= ->]. apply IH. reflexivity.
  - intros [= ->]. apply Hx. reflexivity.
Qed.

Lemma exc_mapM_raise {A B} (f : A -> exc B) l e :
  exc_mapM f l = Raise e -> exists x, In x l /\ f x = Raise e.
Proof.
  induction l as [|x l IH]; [discriminate|].
  cbn [exc_mapM]. destruct (f x) as [y|e'] eqn:Ey; exc_simpl.
  - fold (exc_mapM f l).
    destruct (exc_mapM f l) as [ys|e''] eqn:Eys; exc_simpl; [discriminate|].
    intros [= ->]. destruct (IH eq_refl) as (x' & Hin & Hx').
    exists x'. split; [right; exact Hin|exact Hx'].
  - intros [= ->]. exists x. split; [left; reflexivity|exact Ey].
Qed.

(** Every exception of [json.dumps] on these values is a [TypeError], or
    the [ValueError] of an integer of too many digits. *)
Lemma json_dumps_error v e :
  json_dumps v = Raise e ->
  e = TypeError \/ (e = ValueError /\ has_long_int v = true).
Proof.
  unfold json_dumps. revert e.
  induction v as [| b | z | s | l IHl | l IHl | d IHd | n] using pyval_nested_ind;
    intros e; cbn [encode]; try discriminate.
  - destruct b; discriminate.
  - unfold int_str. cbn [has_long_int].
    destruct (MAX_STR_DIGITS <? int_digits z)%nat; [|discriminate].
    intros [= <-]. right. split; reflexivity.
  - destruct (exc_mapM encode l) eqn:E; exc_simpl; [discriminate|].
    intros [= ->]. apply exc_mapM_raise in E as (x & Hin & Hx).
    rewrite Forall_forall in IHl.
    destruct (IHl x (proj2 (list_elem_of_In _ _) Hin) e Hx) as [->|[-> Hl]];
      [left; reflexivity|right]. split; [reflexivity|].
    cbn [has_long_int]. apply existsb_exists. exists x. split; assumption.
  - destruct (exc_mapM encode l) eqn:E; exc_simpl; [discriminate|].
    intros [= ->]. apply exc_mapM_raise in E as (x & Hin & Hx).
    rewrite Forall_forall in IHl.
    destruct (IHl x (proj2 (list_elem_of_In _ _) Hin) e Hx) as [->|[-> Hl]];
      [left; reflexivity|right]. split; [reflexivity|].
    cbn [has_long_int]. apply existsb_exists. exists x. split; assumption.
  - match goal with |- context [exc_mapM ?f d] =>
      destruct (exc_mapM f d) eqn:E end; exc_simpl; [discriminate|].
    intros [= ->]. apply exc_mapM_raise in E as ([k v] & Hin & Hx).
    rewrite Forall_forall in IHd.
    destruct (IHd (k, v) (proj2 (list_elem_of_In _ _) Hin)) as [_ Hv].
    cbn [fst snd] in *.
    assert (e = TypeError \/ (e = ValueError /\ has_long_int k || has_long_int v = true))
      as [->|[-> Hl]]; [|left; reflexivity|].
    { destruct (encode_key k) as [ks|ek] eqn:Ek; exc_simpl.
      - destruct (encode v) eqn:Ev; exc_simpl; [discriminate|].
        injection Hx as ->. destruct (Hv e eq_refl) as [->|[-> Hl]];
          [left; reflexivity|right]. split; [reflexivity|].
        rewrite Hl. apply orb_true_r.
      - injection Hx as ->.
        destruct k as [| [] | z | | | | |]; cbn [encode_key] in Ek;
          try discriminate; try (injection Ek as <-; left; reflexivity).
        unfold int_str in Ek. cbn [has_long_int].
        destruct (MAX_STR_DIGITS <? int_digits z)%nat; [|discriminate].
        injection Ek as <-. right. split; reflexivity. }
    right. split; [reflexivity|]. cbn [has_long_int]. apply existsb_exists.
    exists (k, v). split; assumption.
  - intros [= <-]. left. reflexivity.
Qed.

(** ** The store *)

Lemma pystr_eqb_refl s : pystr_eqb s s = true.
Proof. unfold pystr_eqb. apply bool_decide_eq_true. reflexivity. Qed.

Lemma pystr_eqb_eq a b : pystr_eqb a b = true <-> a = b.
Proof. unfold pystr_eqb. apply bool_decide_eq_true. Qed.

Lemma pystr_eqb_neq a b : pystr_eqb a b = false <-> a <> b.
Proof. unfold pystr_eqb. apply bool_decide_eq_false. Qed.

Lemma fresh_existsb item_id q :
  fresh item_id q -> existsb (fun r => pystr_eqb (id r) item_id) q = false.
Proof.
  induction 1 as [|r q Hr _ IH]; [reflexivity|].
  cbn [existsb]. rewrite IH. apply pystr_eqb_neq in Hr. rewrite Hr. reflexivity.
Qed.

Lemma existsb_fresh item_id q :
  existsb (fun r => pystr_eqb (id r) item_id) q = false -> fresh item_id q.
Proof.
  induction q as [|r q IH]; intros Hq; [constructor|].
  cbn [existsb] in Hq. apply orb_false_iff in Hq as [Hr Hq].
  constructor; [apply pystr_eqb_neq; assumption|apply IH; assumption].
Qed.

Lemma find_no_pending q : no_pending q -> List.find is_pending q = None.
Proof.
  induction 1 as [|r q Hr _ IH]; [reflexivity|].
  cbn [List.find]. rewrite Hr. assumption.
Qed.

Lemma find_app_no_pending q q' :
  no_pending q -> List.find is_pending (q ++ q') = List.find is_pending q'.
Proof.
  induction 1 as [|r q Hr _ IH]; [reflexivity|].
  cbn [app List.find]. rewrite Hr. assumption.
Qed.

(** The first pending record is pending, is in the table, and no record
    inserted before it is pending. *)
Lemma get_first_pending_item_spec q r :
  get_first_pending_item q = Some r <->
  exists before after,
    q = before ++ r :: after /\ no_pending before /\ is_pending r = true.
Proof.
  unfold get_first_pending_item. split.
  - induction q as [|x q IH]; [discriminate|].
    cbn [List.find]. destruct (is_pending x) eqn:Ex.
    + intros [= ->]. exists [], q. split; [reflexivity|]. split; [constructor|assumption].
    + intros Hf. destruct (IH Hf) as (before & after & -> & Hb & Hr).
      exists (x :: before), after. split; [reflexivity|].
      split; [constructor; assumption|assumption].
  - intros (before & after & -> & Hb & Hr).
    rewrite find_app_no_pending by assumption.
    cbn [List.find]. rewrite Hr. reflexivity.
Qed.

Lemma get_first_pending_item_none q :
  get_first_pending_item q = None <-> no_pending q.
Proof.
  unfold get_first_pending_item, no_pending. split.
  - induction q as [|x q IH]; [constructor|].
    cbn [List.find]. destruct (is_pending x) eqn:Ex; [discriminate|].
    intros Hf. constructor; auto.
  - apply find_no_pending.
Qed.

Section QueueFacts.
Context `{Collaborators}.

Lemma enqueue_ok payload text w :
  json_dumps payload = Ok text ->
  fresh (uuid4 (draws w)) (queue w) ->
  enqueue payload w
  = (Ok (uuid4 (draws w)),
     with_queue (queue w ++ [new_row (uuid4 (draws w)) text (clock w)])
       (with_trace (trace w ++ [EvInsert (uuid4 (draws w))])
          (with_draws (S (draws w)) w))).
Proof.
  intros Ht Hf. unfold enqueue, draw_uuid4, lift, raw_execute_insert.
  unfold mbind, M_mbind, mret, M_mret. rewrite Ht.
  cbn [queue with_draws]. rewrite (fresh_existsb _ _ Hf). reflexivity.
Qed.

Lemma enqueue_error payload e w :
  json_dumps payload = Raise e ->
  enqueue payload w = (Raise e, with_draws (S (draws w)) w).
Proof.
  intros Ht. unfold enqueue, draw_uuid4, lift.
  unfold mbind, M_mbind. rewrite Ht. reflexivity.
Qed.

End QueueFacts.

(** ** Claims on [SQLiteQueue.enqueue] *)

Section EnqueueClaims.
Context `{Collaborators}.

(** C9: when serializing the payload fails, [enqueue] raises the exception
    of [json.dumps] (a [TypeError]; a [ValueError] only when the payload holds
    an integer of more than 4300 digits) before the insert: the [queue]
    table, the other table and the trace are as before; only the random
    source has advanced. *)
Theorem enqueue_serialization_error_atomic (payload : pyval) (e : exn) (w : world) :
  json_dumps payload = Raise e ->
  (e = TypeError \/ (e = ValueError /\ has_long_int payload = true)) /\
  enqueue payload w = (Raise e, with_draws (S (draws w)) w) /\
  queue (enqueue payload w).2 = queue w /\
  trace (enqueue payload w).2 = trace w.
Proof.
  intros He. split; [exact (json_dumps_error _ _ He)|].
  rewrite (enqueue_error _ _ _ He). repeat split.
Qed.


End EnqueueClaims.

Lemma enqueue_serialization_error_atomic_witness :
  json_dumps (task_payload (lit "llm_invoke") (PObject "set")) = Raise TypeError /\
  ((TypeError = TypeError \/
    (TypeError = ValueError /\
     has_long_int (task_payload (lit "llm_invoke") (PObject "set")) = true)) /\
   enqueue (H := quiet) (task_payload (lit "llm_invoke") (PObject "set")) empty_world
   = (Raise TypeError, with_draws 1 empty_world) /\
   queue (enqueue (H := quiet) (task_payload (lit "llm_invoke") (PObject "set"))
            empty_world).2 = [] /\
   trace (enqueue (H := quiet) (task_payload (lit "llm_invoke") (PObject "set"))
            empty_world).2 = []).
Proof.
  split; [reflexivity|].
  apply (enqueue_serialization_error_atomic (H := quiet)
           (task_payload (lit "llm_invoke") (PObject "set")) TypeError empty_world).
  reflexivity.
Defined.






(** ** Reasoning on statements *)

Lemma bind_run {A B} (m : M A) (f : A -> M B) w :
  (m ≫= f) w
  = match m w with (Ok a, w') => f a w' | (Raise e, w') => (Raise e, w') end.
Proof. reflexivity. Qed.

Lemma keeps_queue_bind {A B} (m : M A) (f : A -> M B) :
  keeps_queue m -> (forall a, keeps_queue (f a)) -> keeps_queue (m ≫= f).
Proof.
  intros Hm Hf w. rewrite bind_run. specialize (Hm w).
  destruct (m w) as [[a|e] w']; cbn [snd] in *; [|assumption].
  rewrite Hf. assumption.
Qed.

Lemma keeps_queue_try {A} (body : M A) (handler : exn -> M A) :
  keeps_queue body -> (forall e, keeps_queue (handler e)) ->
  keeps_queue (try_except body handler).
Proof.
  intros Hm Hf w. unfold try_except. specialize (Hm w).
  destruct (body w) as [[a|e] w']; cbn [snd] in *; [assumption|].
  rewrite Hf. assumption.
Qed.

Lemma keeps_queue_mret {A} (a : A) : keeps_queue (mret a).
Proof. intros w. reflexivity. Qed.

Lemma keeps_queue_raise {A} e : keeps_queue (@raise A e).
Proof. intros w. reflexivity. Qed.

Lemma keeps_queue_lift {A} (r : exc A) : keeps_queue (lift r).
Proof. intros w. reflexivity. Qed.

Lemma keeps_queue_emit e : keeps_queue (emit e).
Proof. intros w. reflexivity. Qed.

Lemma keeps_queue_print l : keeps_queue (print l).
Proof. intros w. reflexivity. Qed.

Lemma keeps_queue_print_values vs l : keeps_queue (print_values vs l).
Proof. intros w. unfold print_values. destruct (forallb encodable vs); reflexivity. Qed.

Lemma keeps_queue_get_world : keeps_queue get_world.
Proof. intros w. reflexivity. Qed.

Lemma keeps_queue_set_classifier_outputs t : keeps_queue (set_classifier_outputs t).
Proof. intros w. reflexivity. Qed.

Lemma keeps_queue_if {A} (b : bool) (m1 m2 : M A) :
  keeps_queue m1 -> keeps_queue m2 -> keeps_queue (if b then m1 else m2).
Proof. destruct b; auto. Qed.

Create HintDb keeps discriminated.
#[local] Hint Resolve keeps_queue_mret keeps_queue_raise keeps_queue_lift
  keeps_queue_emit keeps_queue_print keeps_queue_print_values
  keeps_queue_get_world keeps_queue_set_classifier_outputs : keeps.

Ltac keeps :=
  repeat first
    [ apply keeps_queue_bind; [|intros ?]
    | apply keeps_queue_try; [|intros ?]
    | apply keeps_queue_if
    | solve [auto with keeps] ].

Lemma returns_try {A} (body : M A) (handler : exn -> M A) :
  (forall e, returns (handler e)) -> returns (try_except body handler).
Proof.
  intros Hh w. unfold try_except.
  destruct (body w) as [[a|e] w']; [exists a; reflexivity|apply Hh].
Qed.

Section HandlerFacts.
Context `{Collaborators}.

Lemma get_corrective_action_from_rag_keeps_queue query :
  keeps_queue (get_corrective_action_from_rag query).
Proof. unfold get_corrective_action_from_rag. keeps. Qed.

Lemma update_corrective_action_db_keeps_queue classifier_id action :
  keeps_queue (update_corrective_action_db classifier_id action).
Proof. unfold update_corrective_action_db. keeps. Qed.

Lemma process_corrective_action_keeps_queue data :
  keeps_queue (process_corrective_action data).
Proof.
  unfold process_corrective_action, process_corrective_action_try. keeps.
Qed.

(** [process_corrective_action] catches every exception: it always returns
    [True] or [False]. *)
Lemma process_corrective_action_returns data :
  returns (process_corrective_action data).
Proof.
  unfold process_corrective_action, process_corrective_action_try. apply returns_try.
  intros e w. eexists. reflexivity.
Qed.

Lemma handle_message_keeps_queue message : keeps_queue (handle_message message).
Proof.
  unfold handle_message. keeps.
Qed.

End HandlerFacts.

Lemma subscript_dict_get v k x fallback :
  subscript v k = Ok x -> dict_get v k fallback = Ok x.
Proof.
  destruct v; cbn; try discriminate.
  destruct (dict_find d k); [|discriminate]. intros [= ->]. reflexivity.
Qed.

Lemma mark_row_processed mid now q :
  Forall (fun r => id r = mid -> status r = "processed") (mark_row mid now <$> q).
Proof.
  apply Forall_fmap, Forall_forall. intros r _. cbn.
  unfold mark_row. destruct (pystr_eqb (id r) mid) eqn:E; cbn.
  - reflexivity.
  - apply pystr_eqb_neq in E. congruence.
Qed.

Lemma set_processed_run mid w :
  existsb (fun r => pystr_eqb (id r) mid) (queue w) = true ->
  set_processed mid w = (Ok tt, marked mid w).
Proof. intros He. unfold set_processed. rewrite He. reflexivity. Qed.

Lemma first_pending_exists q row :
  get_first_pending_item q = Some row ->
  existsb (fun r => pystr_eqb (id r) (id row)) q = true.
Proof.
  intros Hf. apply get_first_pending_item_spec in Hf as (b & a & -> & _).
  rewrite existsb_app. cbn [existsb]. rewrite pystr_eqb_refl.
  rewrite orb_true_r. reflexivity.
Qed.

Ltac run :=
  repeat (rewrite bind_run; cbn [lift print emit get_world raise]).

Lemma print_values_run vs l w :
  forallb encodable vs = true -> print_values vs l w = (Ok tt, printed l w).
Proof. intros Hv. unfold print_values. rewrite Hv. reflexivity. Qed.


Lemma bind_parameter_encodable v k :
  bind_parameter v = Ok (Some k) -> encodable (raw_text v) = true.
Proof.
  destruct v; cbn [bind_parameter raw_text]; try reflexivity.
  destruct (encodable s); [reflexivity|discriminate].
Qed.

Section ListenerFacts.
Context `{Collaborators}.

Lemma watch_cycle_fetch w row payload :
  get_first_pending_item (queue w) = Some row ->
  json_loads (data row) = Ok payload ->
  watch_cycle w = dispatch (id row) payload w.
Proof.
  intros Hf Hl. unfold watch_cycle, get_pending_message.
  rewrite !bind_run. cbn [get_world]. rewrite Hf.
  rewrite bind_run. unfold lift. rewrite Hl. reflexivity.
Qed.

Lemma watch_cycle_decode_error w row e :
  get_first_pending_item (queue w) = Some row ->
  json_loads (data row) = Raise e ->
  watch_cycle w = (Raise e, w).
Proof.
  intros Hf Hl. unfold watch_cycle, get_pending_message.
  rewrite !bind_run. cbn [get_world]. rewrite Hf.
  rewrite bind_run. unfold lift. rewrite Hl. reflexivity.
Qed.

Lemma watch_cycle_idle w :
  no_pending (queue w) ->
  watch_cycle w = (Ok tt, slept (printed NoPendingMessages w)).
Proof.
  intros Hn. unfold watch_cycle, get_pending_message.
  rewrite !bind_run. cbn [get_world].
  apply get_first_pending_item_none in Hn. rewrite Hn. reflexivity.
Qed.

(** The three branches that need no collaborator. *)
Lemma dispatch_drop mid payload tag w :
  subscript payload (lit "task") = Ok (PStr tag) ->
  encodable tag = true ->
  tag <> lit "llm_invoke" -> tag <> lit "set_corrective_action" ->
  tag <> lit "sourav-producer2" ->
  existsb (fun r => pystr_eqb (id r) mid) (queue w) = true ->
  dispatch mid payload w = (Ok tt, slept (marked mid (printed (log_of tag mid) w))).
Proof.
  intros Ht Henc H1 H2 H3 He. unfold dispatch. rewrite bind_run. unfold lift at 1.
  rewrite Ht. cbn [processing_log eq_str raw_text].
  apply pystr_eqb_neq in H1, H2, H3. rewrite H1, H2, H3.
  run. rewrite print_values_run by (cbn [forallb]; rewrite Henc; reflexivity).
  run. unfold mark_message_processed.
  rewrite set_processed_run by exact He. reflexivity.
Qed.


Lemma dispatch_sourav mid payload w :
  subscript payload (lit "task") = Ok (PStr (lit "sourav-producer2")) ->
  dispatch mid payload w
  = (Ok tt, slept (printed SouravBlock2
                     (printed (log_of (lit "sourav-producer2") mid) w))).
Proof.
  intros Ht. unfold dispatch. rewrite bind_run. unfold lift at 1.
  rewrite Ht. cbn [processing_log raw_text]. run.
  rewrite print_values_run by reflexivity. reflexivity.
Qed.

Lemma dispatch_llm_invoke mid payload d w :
  subscript payload (lit "task") = Ok (PStr (lit "llm_invoke")) ->
  subscript payload (lit "data") = Ok d ->
  Transporter_new = Ok tt ->
  dispatch mid payload w
  = match Transporter_process d with
    | Ok _ => (Ok tt, slept (emitted (EvTransporter d)
                               (printed (log_of (lit "llm_invoke") mid) w)))
    | Raise e => (Raise e, emitted (EvTransporter d)
                             (printed (log_of (lit "llm_invoke") mid) w))
    end.
Proof.
  intros Ht Hd Hn. unfold dispatch. rewrite bind_run. unfold lift at 1.
  rewrite Ht. cbn [processing_log eq_str raw_text].
  change (pystr_eqb (lit "llm_invoke") (lit "llm_invoke")) with true. cbv iota.
  run. rewrite print_values_run by reflexivity.
  run. rewrite Hn. run. rewrite Hd. run.
  destruct (Transporter_process d) as [[]|e]; reflexivity.
Qed.

Lemma dispatch_set_corrective_action mid payload d w :
  subscript payload (lit "task") = Ok (PStr (lit "set_corrective_action")) ->
  subscript payload (lit "data") = Ok d ->
  existsb (fun r => pystr_eqb (id r) mid) (queue w) = true ->
  dispatch mid payload w
  = match process_corrective_action d
            (marked mid (printed (log_of (lit "set_corrective_action") mid) w)) with
    | (Ok _, w') => (Ok tt, slept (printed (Value payload) w'))
    | (Raise e, w') => (Raise e, w')
    end.
Proof.
  intros Ht Hd He. unfold dispatch. rewrite bind_run. unfold lift at 1.
  rewrite Ht. cbn [processing_log eq_str raw_text].
  change (pystr_eqb (lit "set_corrective_action") (lit "llm_invoke")) with false.
  change (pystr_eqb (lit "set_corrective_action") (lit "set_corrective_action"))
    with true.
  cbv iota. run. rewrite print_values_run by reflexivity. run.
  unfold mark_message_processed. rewrite set_processed_run by exact He.
  run. unfold handle_message. run.
  rewrite (subscript_dict_get _ _ _ PNone Ht).
  cbn [eq_str].
  change (pystr_eqb (lit "set_corrective_action") (lit "set_corrective_action"))
    with true.
  cbv iota. run. rewrite Hd. run.
  destruct (process_corrective_action d _) as [[b|e] w']; reflexivity.
Qed.

End ListenerFacts.

Lemma emits_bind {A B} P (m : M A) (f : A -> M B) :
  emits P m -> (forall a, emits P (f a)) -> emits P (m ≫= f).
Proof.
  intros Hm Hf w. rewrite bind_run. destruct (Hm w) as (n1 & E1 & H1).
  destruct (m w) as [[a|e] w']; cbn [snd] in *.
  - destruct (Hf a w') as (n2 & E2 & H2). exists (n1 ++ n2).
    rewrite E2, E1, app_assoc. split; [reflexivity|].
    apply Forall_app. split; assumption.
  - exists n1. split; assumption.
Qed.

Lemma emits_try {A} P (body : M A) (handler : exn -> M A) :
  emits P body -> (forall e, emits P (handler e)) -> emits P (try_except body handler).
Proof.
  intros Hm Hf w. unfold try_except. destruct (Hm w) as (n1 & E1 & H1).
  destruct (body w) as [[a|e] w']; cbn [snd] in *.
  - exists n1. split; assumption.
  - destruct (Hf e w') as (n2 & E2 & H2). exists (n1 ++ n2).
    rewrite E2, E1, app_assoc. split; [reflexivity|].
    apply Forall_app. split; assumption.
Qed.

Lemma emits_silent {A} P (m : M A) :
  (forall w, trace (m w).2 = trace w) -> emits P m.
Proof.
  intros Hm w. exists []. rewrite app_nil_r. split; [apply Hm|constructor].
Qed.

Lemma emits_mret {A} P (a : A) : emits P (mret a).
Proof. apply emits_silent. reflexivity. Qed.

Lemma emits_raise {A} P e : emits P (@raise A e).
Proof. apply emits_silent. reflexivity. Qed.

Lemma emits_lift {A} P (r : exc A) : emits P (lift r).
Proof. apply emits_silent. reflexivity. Qed.

Lemma emits_get_world P : emits P get_world.
Proof. apply emits_silent. reflexivity. Qed.

Lemma emits_set_classifier_outputs P t : emits P (set_classifier_outputs t).
Proof. apply emits_silent. reflexivity. Qed.

Lemma emits_emit (P : event -> Prop) e : P e -> emits P (emit e).
Proof.
  intros He w. exists [e]. split; [reflexivity|]. constructor; [assumption|constructor].
Qed.

Lemma emits_print (P : event -> Prop) l : P (EvPrint l) -> emits P (print l).
Proof. apply emits_emit. Qed.

Lemma emits_print_values (P : event -> Prop) vs l :
  P (EvPrint l) -> emits P (print_values vs l).
Proof.
  intros Hl. unfold print_values. destruct (forallb encodable vs).
  - apply emits_print. exact Hl.
  - apply emits_raise.
Qed.

Lemma emits_if {A} P (b : bool) (m1 m2 : M A) :
  emits P m1 -> emits P m2 -> emits P (if b then m1 else m2).
Proof. destruct b; auto. Qed.

#[local] Hint Resolve emits_mret emits_raise emits_lift emits_get_world
  emits_set_classifier_outputs : keeps.

Ltac emits :=
  repeat first
    [ apply emits_bind; [|intros ?]
    | apply emits_try; [|intros ?]
    | apply emits_if
    | apply emits_print_values
    | apply emits_print
    | apply emits_emit
    | solve [auto with keeps] ].

(** A sequence that ends normally ran both of its parts normally. *)
Lemma bind_ok {A B} (m : M A) (f : A -> M B) w b w' :
  (m ≫= f) w = (Ok b, w') ->
  exists a w1, m w = (Ok a, w1) /\ f a w1 = (Ok b, w').
Proof.
  rewrite bind_run. destruct (m w) as [[a|e] w1]; [|discriminate].
  intros Hf. exists a, w1. split; [reflexivity|assumption].
Qed.

Section HandlerTrace.
Context `{Collaborators}.

(** When [process_corrective_action] returns [False], the last thing it
    did was to print the exception it caught. *)
Lemma process_corrective_action_false data w w' :
  process_corrective_action data w = (Ok false, w') ->
  exists e wb, w' = printed (ProcessingError e) wb.
Proof.
  unfold process_corrective_action, process_corrective_action_try, try_except.
  match goal with |- context [match ?body w with _ => _ end] =>
    destruct (body w) as [[b|e] wb] eqn:Eb end.
  - intros [= -> ->].
    repeat (apply bind_ok in Eb as (? & ? & _ & Eb)).
    discriminate.
  - intros [= <-]. exists e, wb. reflexivity.
Qed.

End HandlerTrace.

Section AfterSearchFacts.
Context `{Collaborators}.

Lemma process_after_search_emits classifier_id query :
  emits (fun _ => True) (process_after_search classifier_id query).
Proof.
  unfold process_after_search, rag_answer, update_corrective_action_db.
  emits; exact I.
Qed.

(** With a dictionary that has a truthy [payload_id], the handler prints
    its line and issues the search with the constant description. *)
Lemma process_corrective_action_search d classifier_id w :
  dict_find d (lit "payload_id") = Some classifier_id ->
  truthy classifier_id = true ->
  process_corrective_action (PDict d) w
  = process_after_search classifier_id (lit "No incident description provided")
      (emitted (EvSimilaritySearch (lit "No incident description provided"))
         (printed (QueryingRag (lit "No incident description provided")) w)).
Proof.
  intros Hd Ht.
  unfold process_corrective_action, process_corrective_action_try, process_after_search,
    get_corrective_action_from_rag, rag_answer, try_except.
  rewrite !bind_run. cbn [lift dict_get]. rewrite Hd. cbn [default].
  rewrite !bind_run. cbn [lift]. rewrite !bind_run.
  unfold Datatypes.id. rewrite Ht. reflexivity.
Qed.

End AfterSearchFacts.


Lemma exists_filter_matches k (t : list corow) :
  Exists (fun r => payload_id r = k) t ->
  Nat.eqb (length (List.filter (matches (Some k)) t)) 0 = false.
Proof.
  induction 1 as [r t Hr|r t _ IH]; cbn [List.filter matches].
  - rewrite Hr, pystr_eqb_refl. reflexivity.
  - destruct (pystr_eqb (payload_id r) k); [reflexivity|exact IH].
Qed.

Lemma filter_matches_none (t : list corow) : List.filter (matches None) t = [].
Proof. induction t as [|r t IH]; [reflexivity|exact IH]. Qed.

Section HandlerRuns.
Context `{Collaborators}.

(** [update_corrective_action_db], step by step. *)
Lemma update_corrective_action_db_run classifier_id action w :
  update_corrective_action_db classifier_id action w
  = match sqlite3_connect with
    | Raise e =>
      (Raise e, printed (DatabaseError e)
                  (with_classifier_outputs (classifier_outputs w) w))
    | Ok _ =>
      let w1 := emitted (EvUpdateCorrectiveAction classifier_id action) w in
      match bind_parameter (PStr action) with
      | Raise e =>
        (Raise e, printed (DatabaseError e)
                    (with_classifier_outputs (classifier_outputs w) w1))
      | Ok _ =>
        match bind_parameter classifier_id with
        | Raise e =>
          (Raise e, printed (DatabaseError e)
                      (with_classifier_outputs (classifier_outputs w) w1))
        | Ok key =>
          if Nat.eqb (length (List.filter (matches key) (classifier_outputs w))) 0
          then (Raise ValueError,
                printed (DatabaseError ValueError)
                  (with_classifier_outputs (classifier_outputs w) w1))
          else (Ok tt,
                printed (DatabaseUpdated classifier_id)
                  (with_classifier_outputs
                     (update_row key action (clock w) <$> classifier_outputs w) w1))
        end
      end
    end.
Proof.
  unfold update_corrective_action_db, try_except. rewrite bind_run.
  cbn [get_world]. rewrite !bind_run. unfold lift at 1.
  destruct sqlite3_connect as [[]|e]; [|reflexivity].
  rewrite !bind_run. cbn [emit]. rewrite !bind_run. unfold lift at 1.
  destruct (bind_parameter (PStr action)) as [ka|e]; [|reflexivity].
  rewrite !bind_run. unfold lift at 1.
  destruct (bind_parameter classifier_id) as [key|e] eqn:Eb; [|reflexivity].
  rewrite !bind_run. cbn [get_world]. rewrite !bind_run.
  cbn [set_classifier_outputs classifier_outputs with_trace emitted].
  destruct key as [k|].
  - destruct (Nat.eqb _ 0); [reflexivity|].
    rewrite !bind_run. cbn [mret M_mret].
    rewrite print_values_run
      by (cbn [forallb]; rewrite (bind_parameter_encodable _ _ Eb); reflexivity).
    reflexivity.
  - rewrite filter_matches_none. reflexivity.
Qed.

(** When the update returns, its id can be encoded. *)
Lemma update_corrective_action_db_ok classifier_id action w w' :
  update_corrective_action_db classifier_id action w = (Ok tt, w') ->
  encodable (raw_text classifier_id) = true.
Proof.
  rewrite update_corrective_action_db_run.
  destruct sqlite3_connect as [[]|e]; [|discriminate]. cbv zeta.
  destruct (bind_parameter (PStr action)); [|discriminate].
  destruct (bind_parameter classifier_id) as [[k|]|e] eqn:Eb; [| |discriminate].
  - intros _. eapply bind_parameter_encodable. exact Eb.
  - rewrite filter_matches_none. discriminate.
Qed.

(** [process_corrective_action] from the similarity search on, step by
    step. *)
Lemma process_after_search_run classifier_id query w :
  process_after_search classifier_id query w
  = match similarity_search query with
    | Raise e => (Ok false, printed (ProcessingError e) (printed (RagQueryError e) w))
    | Ok results =>
      let prompt := prompt_of query (context_of results) in
      let w1 := emitted (EvLlmInvoke prompt) w in
      match llm_invoke prompt with
      | Raise e =>
        (Ok false, printed (ProcessingError e) (printed (RagQueryError e) w1))
      | Ok response =>
        let action := strip response in
        if encodable (take 100 action) then
          let w2 := printed (GeneratedAction (take 100 action)) w1 in
          match update_corrective_action_db classifier_id action w2 with
          | (Ok _, w3) => (Ok true, printed (ProcessedOk classifier_id) w3)
          | (Raise e, w3) => (Ok false, printed (ProcessingError e) w3)
          end
        else (Ok false, printed (ProcessingError UnicodeEncodeError) w1)
      end
    end.
Proof.
  unfold process_after_search, rag_answer, try_except, context_of.
  rewrite !bind_run. unfold lift at 1.
  destruct (similarity_search query) as [results|e]; [|reflexivity].
  rewrite !bind_run. cbn [emit]. rewrite !bind_run. unfold lift at 1.
  destruct (llm_invoke _) as [response|e]; [|reflexivity].
  cbn [mret M_mret]. rewrite !bind_run. cbv zeta.
  unfold print_values at 1. cbn [forallb]. rewrite andb_true_r.
  destruct (encodable (take 100 (strip response))); [|reflexivity].
  cbn [print emit]. rewrite !bind_run. unfold printed, emitted.
  match goal with |- context [update_corrective_action_db ?c ?a ?w] =>
    destruct (update_corrective_action_db c a w) as [[[]|e] w3] eqn:Eu end;
    [|reflexivity].
  rewrite !bind_run.
  rewrite print_values_run
    by (cbn [forallb]; rewrite (update_corrective_action_db_ok _ _ _ _ Eu);
        reflexivity).
  reflexivity.
Qed.

End HandlerRuns.


Section HandlerTry.
Context `{Collaborators}.

(** The [try] block returns nothing but [True]. *)
Lemma process_corrective_action_try_true data w b w' :
  process_corrective_action_try data w = (Ok b, w') -> b = true.
Proof.
  unfold process_corrective_action_try. intros Hb.
  repeat (apply bind_ok in Hb as (? & ? & _ & Hb)).
  injection Hb as <- _. reflexivity.
Qed.

(** The handler around it. *)
Lemma process_corrective_action_run data w :
  process_corrective_action data w
  = match process_corrective_action_try data w with
    | (Ok b, w') => (Ok b, w')
    | (Raise e, wb) => (Ok false, printed (ProcessingError e) wb)
    end.
Proof.
  unfold process_corrective_action, try_except.
  destruct (process_corrective_action_try data w) as [[b|e] wb]; reflexivity.
Qed.

End HandlerTry.

Lemma encodable_take n s : encodable s = true -> encodable (take n s) = true.
Proof.
  unfold encodable. rewrite !forallb_forall. intros Hs c Hc.
  apply Hs. apply list_elem_of_In. apply list_elem_of_In in Hc.
  eapply subseteq_take. exact Hc.
Qed.

(** ** Claims on [watch_queue] *)

Section WatcherClaims.
Context `{Collaborators}.

(** C3, amended: a pending record whose task tag is a string that the
    standard output can encode (it holds no surrogate) and that is none of
    [llm_invoke], [set_corrective_action] and [sourav-producer2] is marked
    processed in its cycle, and the cycle does nothing else than log the
    line, mark and sleep: no handler runs. *)
Theorem unknown_tag_drop (w : world) (row : qrow) (payload : pyval) (tag : pystr) :
  get_first_pending_item (queue w) = Some row ->
  json_loads (data row) = Ok payload ->
  subscript payload (lit "task") = Ok (PStr tag) ->
  encodable tag = true ->
  tag <> lit "llm_invoke" ->
  tag <> lit "set_corrective_action" ->
  tag <> lit "sourav-producer2" ->
  watch_cycle w
  = (Ok tt, slept (marked (id row) (printed (log_of tag (id row)) w))) /\
  trace (watch_cycle w).2
  = trace w ++ [EvPrint (log_of tag (id row)); EvSetProcessed (id row);
                EvSleep POLL_INTERVAL] /\
  queue (watch_cycle w).2 = mark_row (id row) (clock w) <$> queue w /\
  Forall (fun r => id r = id row -> status r = "processed") (queue (watch_cycle w).2).
Proof.
  intros Hf Hl Ht He H1 H2 H3.
  rewrite (watch_cycle_fetch w row payload Hf Hl).
  rewrite (dispatch_drop _ _ tag w Ht He H1 H2 H3 (first_pending_exists _ _ Hf)).
  split; [reflexivity|]. split.
  - cbn. rewrite <- !app_assoc. reflexivity.
  - split; [reflexivity|]. apply mark_row_processed.
Qed.

(** C4, amended: when the first pending record's text is not valid JSON,
    [get_pending_message] raises and nothing catches it: the cycle ends by
    the exception with the world untouched (the record stays pending,
    nothing is logged) and [watch_queue] ends by the same exception. *)
Theorem undecodable_payload_ends_watch_queue (w : world) (row : qrow) (n : nat) :
  get_first_pending_item (queue w) = Some row ->
  json_loads (data row) = Raise JSONDecodeError ->
  watch_cycle w = (Raise JSONDecodeError, w) /\
  watch_queue (S n) w = (Raise JSONDecodeError, printed WatcherStarted w) /\
  get_first_pending_item (queue (watch_queue (S n) w).2) = Some row.
Proof.
  intros Hf Hl.
  pose proof (watch_cycle_decode_error w row _ Hf Hl) as Hc.
  split; [assumption|].
  assert (watch_queue (S n) w = (Raise JSONDecodeError, printed WatcherStarted w))
    as Hq.
  { unfold watch_queue. rewrite bind_run. cbn [print emit watch_loop].
    rewrite bind_run.
    rewrite (watch_cycle_decode_error _ row JSONDecodeError);
      [reflexivity|exact Hf|exact Hl]. }
  split; [assumption|]. rewrite Hq. exact Hf.
Qed.

(** C2, amended: for a pending [set_corrective_action] record with a
    [data] entry, whatever the collaborators do, the cycle ends normally.
    When the [try] block of [process_corrective_action] ends by an exception,
    the exception is caught there, its line is printed, the result is
    [False], and the cycle goes on to print the payload and to sleep; when
    the block ends normally the result is [True] and nothing more is printed
    by the handler.  Either way the record is processed, and the loop goes
    on to the next cycle. *)
Theorem corrective_action_failure_isolated
        (w : world) (row : qrow) (payload d : pyval) :
  get_first_pending_item (queue w) = Some row ->
  json_loads (data row) = Ok payload ->
  subscript payload (lit "task") = Ok (PStr (lit "set_corrective_action")) ->
  subscript payload (lit "data") = Ok d ->
  let w1 :=
    marked (id row) (printed (log_of (lit "set_corrective_action") (id row)) w) in
  (forall e wb,
      process_corrective_action_try d w1 = (Raise e, wb) ->
      process_corrective_action d w1 = (Ok false, printed (ProcessingError e) wb) /\
      watch_cycle w
      = (Ok tt, slept (printed (Value payload) (printed (ProcessingError e) wb))) /\
      trace (watch_cycle w).2
      = trace wb ++ [EvPrint (ProcessingError e); EvPrint (Value payload);
                     EvSleep POLL_INTERVAL]) /\
  (forall b w',
      process_corrective_action_try d w1 = (Ok b, w') ->
      process_corrective_action d w1 = (Ok true, w') /\
      watch_cycle w = (Ok tt, slept (printed (Value payload) w'))) /\
  (exists b w',
      process_corrective_action d w1 = (Ok b, w') /\
      watch_cycle w = (Ok tt, slept (printed (Value payload) w')) /\
      (b = false -> exists e wb, w' = printed (ProcessingError e) wb)) /\
  Forall (fun r => id r = id row -> status r = "processed")
         (queue (watch_cycle w).2) /\
  forall n, watch_loop (S n) w = watch_loop n (watch_cycle w).2.
Proof.
  intros Hf Hl Ht Hd w1.
  pose proof (watch_cycle_fetch w row payload Hf Hl) as Hc.
  rewrite (dispatch_set_corrective_action _ _ d w Ht Hd (first_pending_exists _ _ Hf))
    in Hc.
  fold w1 in Hc.
  pose proof (process_corrective_action_keeps_queue d w1) as Hq.
  pose proof (process_corrective_action_run d w1) as Hrun.
  destruct (process_corrective_action_returns d w1) as [b0 Hb0].
  split; [|split; [|split; [|split]]].
  - intros e wb He. rewrite He in Hrun. rewrite Hrun in Hc.
    split; [exact Hrun|]. split; [exact Hc|]. rewrite Hc.
    cbn [snd trace slept printed emitted with_clock with_trace].
    rewrite <- !app_assoc. reflexivity.
  - intros b w' Hb. rewrite Hb in Hrun.
    rewrite (process_corrective_action_try_true _ _ _ _ Hb) in Hrun.
    rewrite Hrun in Hc. split; [exact Hrun|exact Hc].
  - destruct (process_corrective_action d w1) as [r w'] eqn:Ep.
    cbn [fst] in Hb0. subst r. exists b0, w'.
    split; [reflexivity|]. split; [exact Hc|].
    intros ->. eapply process_corrective_action_false. exact Ep.
  - destruct (process_corrective_action d w1) as [r w'] eqn:Ep.
    cbn [fst snd] in Hb0, Hq. subst r. rewrite Hc.
    cbn [snd slept printed emitted with_clock with_trace queue].
    rewrite Hq. apply mark_row_processed.
  - intros n. cbn [watch_loop]. rewrite bind_run.
    destruct (process_corrective_action d w1) as [r w'] eqn:Ep.
    cbn [fst] in Hb0. subst r. rewrite Hc. reflexivity.
Qed.

(** C5: for the pending record [{"task": "set_corrective_action", "data":
    {"payload_id": "X1"}}] the cycle marks the record processed, then runs
    [process_corrective_action] on [{"payload_id": "X1"}] in the world
    where it is already marked; the handler starts by querying the RAG; a
    failure of the handler (the vector store, the LLM, the database that
    cannot be opened, no row for the id) is caught and printed, with the
    result [False]; the cycle ends normally with the record processed. *)
Theorem corrective_action_scenario (w : world) (row : qrow) :
  get_first_pending_item (queue w) = Some row ->
  json_loads (data row) = Ok X1_task ->
  let log := log_of (lit "set_corrective_action") (id row) in
  let w1 := marked (id row) (printed log w) in
  exists b w2 rest,
    process_corrective_action X1_data w1 = (Ok b, w2) /\
    watch_cycle w = (Ok tt, slept (printed (Value X1_task) w2)) /\
    trace (watch_cycle w).2
    = trace w ++ [EvPrint log; EvSetProcessed (id row);
                  EvPrint (QueryingRag (lit "No incident description provided"));
                  EvSimilaritySearch (lit "No incident description provided")]
              ++ rest /\
    (b = false -> exists e wb, w2 = printed (ProcessingError e) wb) /\
    queue (watch_cycle w).2 = mark_row (id row) (clock w) <$> queue w /\
    Forall (fun r => id r = id row -> status r = "processed")
           (queue (watch_cycle w).2) /\
    (forall e,
        similarity_search description = Raise e ->
        b = false /\
        rest = [EvPrint (RagQueryError e); EvPrint (ProcessingError e);
                EvPrint (Value X1_task); EvSleep POLL_INTERVAL]) /\
    (forall results e,
        similarity_search description = Ok results ->
        llm_invoke (prompt_of description (context_of results)) = Raise e ->
        b = false /\
        rest = [EvLlmInvoke (prompt_of description (context_of results));
                EvPrint (RagQueryError e); EvPrint (ProcessingError e);
                EvPrint (Value X1_task); EvSleep POLL_INTERVAL]) /\
    (forall results response e,
        similarity_search description = Ok results ->
        llm_invoke (prompt_of description (context_of results)) = Ok response ->
        encodable (take 100 (strip response)) = true ->
        sqlite3_connect = Raise e ->
        b = false /\
        classifier_outputs (watch_cycle w).2 = classifier_outputs w /\
        rest = [EvLlmInvoke (prompt_of description (context_of results));
                EvPrint (GeneratedAction (take 100 (strip response)));
                EvPrint (DatabaseError e); EvPrint (ProcessingError e);
                EvPrint (Value X1_task); EvSleep POLL_INTERVAL]) /\
    (forall results response,
        similarity_search description = Ok results ->
        llm_invoke (prompt_of description (context_of results)) = Ok response ->
        encodable (strip response) = true ->
        sqlite3_connect = Ok tt ->
        Forall (fun r => payload_id r <> lit "X1") (classifier_outputs w) ->
        b = false /\
        classifier_outputs (watch_cycle w).2 = classifier_outputs w /\
        rest = [EvLlmInvoke (prompt_of description (context_of results));
                EvPrint (GeneratedAction (take 100 (strip response)));
                EvUpdateCorrectiveAction (PStr (lit "X1")) (strip response);
                EvPrint (DatabaseError ValueError);
                EvPrint (ProcessingError ValueError);
                EvPrint (Value X1_task); EvSleep POLL_INTERVAL]).
Proof.
  intros Hf Hl log w1.
  pose proof (watch_cycle_fetch w row X1_task Hf Hl) as Hc.
  rewrite (dispatch_set_corrective_action (id row) X1_task X1_data w eq_refl eq_refl
             (first_pending_exists _ _ Hf)) in Hc.
  fold log in Hc. fold w1 in Hc.
  destruct (process_corrective_action_returns X1_data w1) as [b Hb'].
  pose proof (process_corrective_action_keeps_queue X1_data w1) as Hk.
  destruct (process_corrective_action X1_data w1) as [r w2] eqn:Hp.
  cbn [fst snd] in Hb', Hk. subst r.
  assert (b = false -> exists e wb, w2 = printed (ProcessingError e) wb) as Hb
    by (intros ->; eapply process_corrective_action_false; exact Hp).
  assert (Forall (fun r => id r = id row -> status r = "processed")
                 (queue (watch_cycle w).2)) as Hq.
  { rewrite Hc. cbn [snd slept printed emitted with_clock with_trace queue].
    rewrite Hk. apply mark_row_processed. }
  set (w3 := emitted (EvSimilaritySearch description)
               (printed (QueryingRag description) w1)).
  assert (process_corrective_action X1_data w1
          = process_after_search (PStr (lit "X1")) description w3) as Hs
    by (apply process_corrective_action_search; reflexivity).
  rewrite Hp in Hs. symmetry in Hs.
  destruct (process_after_search_emits (PStr (lit "X1")) description w3)
    as (new & Hnew & _).
  rewrite Hs in Hnew. cbn [snd] in Hnew.
  assert (trace w3 = trace w ++ [EvPrint log; EvSetProcessed (id row);
                                 EvPrint (QueryingRag description);
                                 EvSimilaritySearch description]) as Hw3.
  { subst w3 w1. cbn [trace emitted printed with_trace marked with_queue].
    rewrite <- !app_assoc. reflexivity. }
  assert (forall w2' tail,
             w2 = w2' -> trace w2' = trace w3 ++ tail ->
             new ++ [EvPrint (Value X1_task); EvSleep POLL_INTERVAL]
             = tail ++ [EvPrint (Value X1_task); EvSleep POLL_INTERVAL]) as Hrest.
  { intros w2' tail <- Et. rewrite Hnew in Et.
    apply app_inv_head in Et. rewrite Et. reflexivity. }
  rewrite process_after_search_run in Hs.
  exists b, w2, (new ++ [EvPrint (Value X1_task); EvSleep POLL_INTERVAL]).
  split; [reflexivity|]. split; [exact Hc|]. split.
  { rewrite Hc. cbn [snd slept printed emitted with_clock with_trace trace].
    rewrite Hnew, Hw3. unfold description. rewrite <- !app_assoc. reflexivity. }
  split; [exact Hb|]. split.
  { rewrite Hc. cbn [snd slept printed emitted with_clock with_trace queue].
    rewrite Hk. reflexivity. }
  split; [exact Hq|].
  split; [|split; [|split]].
  - intros e He. rewrite He in Hs. injection Hs as <- Hw.
    split; [reflexivity|].
    apply (Hrest _ [EvPrint (RagQueryError e); EvPrint (ProcessingError e)]
             (eq_sym Hw)).
    cbn [trace printed emitted with_trace]. rewrite <- !app_assoc. reflexivity.
  - intros results e Hr He. rewrite Hr in Hs. cbv zeta in Hs. rewrite He in Hs.
    injection Hs as <- Hw. split; [reflexivity|].
    apply (Hrest _ [EvLlmInvoke (prompt_of description (context_of results));
                    EvPrint (RagQueryError e); EvPrint (ProcessingError e)]
             (eq_sym Hw)).
    cbn [trace printed emitted with_trace]. rewrite <- !app_assoc. reflexivity.
  - intros results response e Hr Hl' He Hcn. rewrite Hr in Hs. cbv zeta in Hs.
    rewrite Hl', He, update_corrective_action_db_run, Hcn in Hs.
    injection Hs as <- Hw. split; [reflexivity|]. split.
    { rewrite Hc, <- Hw. reflexivity. }
    apply (Hrest _ [EvLlmInvoke (prompt_of description (context_of results));
                    EvPrint (GeneratedAction (take 100 (strip response)));
                    EvPrint (DatabaseError e); EvPrint (ProcessingError e)]
             (eq_sym Hw)).
    cbn [trace printed emitted with_trace with_classifier_outputs].
    rewrite <- !app_assoc. reflexivity.
  - intros results response Hr Hl' He Hcn Hno. rewrite Hr in Hs. cbv zeta in Hs.
    rewrite Hl', (encodable_take _ _ He), update_corrective_action_db_run, Hcn in Hs.
    cbv zeta in Hs. cbn [bind_parameter] in Hs. rewrite He in Hs.
    change (encodable (lit "X1")) with true in Hs. cbv iota in Hs.
    cbn [classifier_outputs printed emitted with_trace] in Hs.
    assert (classifier_outputs w3 = classifier_outputs w) as Hco by reflexivity.
    rewrite !Hco in Hs.
    assert (List.filter (matches (Some (lit "X1"))) (classifier_outputs w) = [])
      as Hnone.
    { clear - Hno. induction Hno as [|r t Hr _ IH]; [reflexivity|].
      cbn [List.filter matches]. apply pystr_eqb_neq in Hr. rewrite Hr. exact IH. }
    rewrite Hnone in Hs. cbn [length Nat.eqb] in Hs.
    injection Hs as <- Hw. split; [reflexivity|]. split.
    { rewrite Hc, <- Hw. reflexivity. }
    apply (Hrest _ [EvLlmInvoke (prompt_of description (context_of results));
                    EvPrint (GeneratedAction (take 100 (strip response)));
                    EvUpdateCorrectiveAction (PStr (lit "X1")) (strip response);
                    EvPrint (DatabaseError ValueError);
                    EvPrint (ProcessingError ValueError)]
             (eq_sym Hw)).
    cbn [trace printed emitted with_trace with_classifier_outputs].
    rewrite <- !app_assoc. reflexivity.
Qed.

End WatcherClaims.

Lemma unknown_tag_drop_witness :
  let w := one_pending (text_of unknown_task) in
  let row := row_of unknown_task in
  let tag := lit "unrecognized_xyz" in
  get_first_pending_item (queue w) = Some row /\
  json_loads (data row) = Ok unknown_task /\
  subscript unknown_task (lit "task") = Ok (PStr tag) /\
  encodable tag = true /\
  tag <> lit "llm_invoke" /\ tag <> lit "set_corrective_action" /\
  tag <> lit "sourav-producer2" /\
  watch_cycle (H := quiet) w
  = (Ok tt, slept (marked (id row) (printed (log_of tag (id row)) w))) /\
  trace (watch_cycle (H := quiet) w).2
  = trace w ++ [EvPrint (log_of tag (id row)); EvSetProcessed (id row);
                EvSleep POLL_INTERVAL] /\
  queue (watch_cycle (H := quiet) w).2 = mark_row (id row) (clock w) <$> queue w /\
  Forall (fun r => id r = id row -> status r = "processed")
         (queue (watch_cycle (H := quiet) w).2).
Proof.
  intros w row tag.
  assert (get_first_pending_item (queue w) = Some row) as H1 by reflexivity.
  assert (json_loads (data row) = Ok unknown_task) as H2 by (vm_compute; reflexivity).
  assert (subscript unknown_task (lit "task") = Ok (PStr tag)) as H3 by reflexivity.
  assert (encodable tag = true) as He by reflexivity.
  assert (tag <> lit "llm_invoke") as H4 by (vm_compute; discriminate).
  assert (tag <> lit "set_corrective_action") as H5 by (vm_compute; discriminate).
  assert (tag <> lit "sourav-producer2") as H6 by (vm_compute; discriminate).
  repeat (split; [assumption|]).
  exact (unknown_tag_drop (H := quiet) w row unknown_task tag H1 H2 H3 He H4 H5 H6).
Defined.

(** C3, as stated, fails on the tag [sourav-producer2]: it is neither
    [llm_invoke] nor [set_corrective_action], and after the cycle the record
    is still pending. *)
Lemma unknown_tag_drop_counterexample :
  let w := one_pending (text_of sourav_task) in
  get_pending_message w = (Ok (Some (id0, sourav_task)), w) /\
  subscript sourav_task (lit "task") = Ok (PStr (lit "sourav-producer2")) /\
  lit "sourav-producer2" <> lit "llm_invoke" /\
  lit "sourav-producer2" <> lit "set_corrective_action" /\
  (watch_cycle (H := quiet) w).1 = Ok tt /\
  status_of id0 (queue (watch_cycle (H := quiet) w).2) = ["pending"].
Proof.
  intros w. split; [vm_compute; reflexivity|]. split; [reflexivity|].
  split; [vm_compute; discriminate|]. split; [vm_compute; discriminate|].
  split; vm_compute; reflexivity.
Qed.

Lemma undecodable_payload_ends_watch_queue_witness :
  let w := one_pending (lit "not json") in
  let row := new_row id0 (lit "not json") 0 in
  get_first_pending_item (queue w) = Some row /\
  json_loads (data row) = Raise JSONDecodeError /\
  watch_cycle (H := quiet) w = (Raise JSONDecodeError, w) /\
  watch_queue (H := quiet) 3 w = (Raise JSONDecodeError, printed WatcherStarted w) /\
  get_first_pending_item (queue (watch_queue (H := quiet) 3 w).2) = Some row.
Proof.
  intros w row.
  assert (get_first_pending_item (queue w) = Some row) as H1 by reflexivity.
  assert (json_loads (data row) = Raise JSONDecodeError) as H2
      by (vm_compute; reflexivity).
  repeat (split; [assumption|]).
  exact (undecodable_payload_ends_watch_queue (H := quiet) w row 2 H1 H2).
Defined.

(** C4, as stated, fails on a record whose text is [not json]: the record is
    not marked processed, nothing is logged, and the loop does not go on. *)
Lemma undecodable_payload_counterexample :
  let w := one_pending (lit "not json") in
  json_loads (lit "not json") = Raise JSONDecodeError /\
  (watch_queue (H := quiet) 3 w).1 = Raise JSONDecodeError /\
  status_of id0 (queue (watch_queue (H := quiet) 3 w).2) = ["pending"] /\
  trace (watch_queue (H := quiet) 3 w).2 = [EvPrint WatcherStarted].
Proof. intros w. repeat split; vm_compute; reflexivity. Qed.

Lemma corrective_action_failure_isolated_witness :
  let w := one_pending (text_of X1_task) in
  let row := row_of X1_task in
  let log := log_of (lit "set_corrective_action") (id row) in
  let w1 := marked (id row) (printed log w) in
  let e := External 2 in
  let wb := (process_corrective_action_try (H := failing) X1_data w1).2 in
  get_first_pending_item (queue w) = Some row /\
  json_loads (data row) = Ok X1_task /\
  subscript X1_task (lit "task") = Ok (PStr (lit "set_corrective_action")) /\
  subscript X1_task (lit "data") = Ok X1_data /\
  process_corrective_action_try (H := failing) X1_data w1 = (Raise e, wb) /\
  process_corrective_action (H := failing) X1_data w1
  = (Ok false, printed (ProcessingError e) wb) /\
  watch_cycle (H := failing) w
  = (Ok tt, slept (printed (Value X1_task) (printed (ProcessingError e) wb))) /\
  trace (watch_cycle (H := failing) w).2
  = [EvPrint log; EvSetProcessed (id row);
     EvPrint (QueryingRag description); EvSimilaritySearch description;
     EvLlmInvoke (prompt_of description (context_of []));
     EvPrint (RagQueryError e); EvPrint (ProcessingError e);
     EvPrint (Value X1_task); EvSleep POLL_INTERVAL] /\
  Forall (fun r => id r = id row -> status r = "processed")
         (queue (watch_cycle (H := failing) w).2) /\
  watch_loop (H := failing) 3 w
  = watch_loop (H := failing) 2 (watch_cycle (H := failing) w).2.
Proof.
  intros w row log w1 e wb.
  assert (get_first_pending_item (queue w) = Some row) as H1 by reflexivity.
  assert (json_loads (data row) = Ok X1_task) as H2 by (vm_compute; reflexivity).
  assert (subscript X1_task (lit "task") = Ok (PStr (lit "set_corrective_action")))
    as H3 by reflexivity.
  assert (subscript X1_task (lit "data") = Ok X1_data) as H4 by reflexivity.
  assert (process_corrective_action_try (H := failing) X1_data w1 = (Raise e, wb))
    as H5 by (vm_compute; reflexivity).
  assert (trace wb = [EvPrint log; EvSetProcessed (id row);
                      EvPrint (QueryingRag description);
                      EvSimilaritySearch description;
                      EvLlmInvoke (prompt_of description (context_of []));
                      EvPrint (RagQueryError e)]) as H6
      by (vm_compute; reflexivity).
  destruct (corrective_action_failure_isolated (H := failing) w row X1_task X1_data
              H1 H2 H3 H4) as (Hraise & _ & _ & Hq & Hloop).
  destruct (Hraise e wb H5) as (Hp & Hc & Ht).
  split; [exact H1|]. split; [exact H2|]. split; [exact H3|]. split; [exact H4|].
  split; [exact H5|]. split; [exact Hp|]. split; [exact Hc|].
  split; [rewrite Ht, H6; reflexivity|]. split; [exact Hq|]. exact (Hloop 2%nat).
Defined.

(** C2, as stated, fails on an [llm_invoke] record whose handler raises: the
    exception is not caught, nothing is printed about it, and [watch_queue]
    ends by it in the first cycle. *)
Lemma handler_exception_counterexample :
  let w := one_pending (text_of llm_task) in
  let d := PDict [(PStr (lit "query"), PStr (lit "status"))] in
  get_pending_message w = (Ok (Some (id0, llm_task)), w) /\
  Transporter_process (Collaborators := failing) d = Raise (External 1) /\
  (watch_queue (H := failing) 3 w).1 = Raise (External 1) /\
  trace (watch_queue (H := failing) 3 w).2
  = [EvPrint WatcherStarted; EvPrint (log_of (lit "llm_invoke") id0); EvTransporter d] /\
  status_of id0 (queue (watch_queue (H := failing) 3 w).2) = ["pending"].
Proof. intros w d. repeat split; vm_compute; reflexivity. Qed.

Lemma corrective_action_scenario_witness :
  let w := one_pending (text_of X1_task) in
  let row := row_of X1_task in
  let log := log_of (lit "set_corrective_action") (id row) in
  let w1 := marked (id row) (printed log w) in
  get_first_pending_item (queue w) = Some row /\
  json_loads (data row) = Ok X1_task /\
  exists w2,
    process_corrective_action (H := failing) X1_data w1 = (Ok false, w2) /\
    watch_cycle (H := failing) w = (Ok tt, slept (printed (Value X1_task) w2)) /\
    trace (watch_cycle (H := failing) w).2
    = trace w ++ [EvPrint log; EvSetProcessed (id row);
                  EvPrint (QueryingRag (lit "No incident description provided"));
                  EvSimilaritySearch (lit "No incident description provided")]
              ++ [EvLlmInvoke (prompt_of description (context_of []));
                  EvPrint (RagQueryError (External 2));
                  EvPrint (ProcessingError (External 2));
                  EvPrint (Value X1_task); EvSleep POLL_INTERVAL] /\
    (exists e wb, w2 = printed (ProcessingError e) wb) /\
    queue (watch_cycle (H := failing) w).2 = mark_row (id row) (clock w) <$> queue w /\
    Forall (fun r => id r = id row -> status r = "processed")
           (queue (watch_cycle (H := failing) w).2).
Proof.
  intros w row log w1.
  assert (get_first_pending_item (queue w) = Some row) as H1 by reflexivity.
  assert (json_loads (data row) = Ok X1_task) as H2 by (vm_compute; reflexivity).
  split; [exact H1|]. split; [exact H2|].
  destruct (corrective_action_scenario (H := failing) w row H1 H2)
    as (b & w2 & rest & Hp & Hc & Ht & Hb & Hq & Hm & _ & Hllm & _ & _).
  destruct (Hllm [] (External 2) eq_refl eq_refl) as [-> ->].
  exists w2. split; [exact Hp|]. split; [exact Hc|]. split; [exact Ht|].
  split; [exact (Hb eq_refl)|]. split; [exact Hq|exact Hm].
Defined.

(** ** Records that are never marked *)

Lemma sourav_cycles_queue n w : queue (Nat.iter n sourav_cycle w) = queue w.
Proof. induction n as [|n IH]; [reflexivity|]. cbn [Nat.iter]. exact IH. Qed.

Lemma sourav_cycles_trace n w :
  trace (Nat.iter n sourav_cycle w)
  = trace w ++ concat (replicate n [EvPrint (log_of (lit "sourav-producer2") id0);
                                    EvPrint SouravBlock2; EvSleep POLL_INTERVAL]).
Proof.
  revert w. induction n as [|n IH]; intros w.
  - cbn. rewrite app_nil_r. reflexivity.
  - rewrite Nat.iter_succ_r, IH. cbn [replicate concat]. unfold sourav_cycle.
    cbn [trace slept printed emitted with_clock with_trace].
    rewrite <- !app_assoc. reflexivity.
Qed.

Section NeverMarked.
Context `{Collaborators}.

Lemma sourav_loop n w :
  get_first_pending_item (queue w) = Some (row_of sourav_task) ->
  watch_loop n w = (Ok tt, Nat.iter n sourav_cycle w).
Proof.
  revert w. induction n as [|n IH]; intros w Hf; [reflexivity|].
  cbn [watch_loop]. rewrite bind_run.
  rewrite (watch_cycle_fetch w _ sourav_task Hf) by (vm_compute; reflexivity).
  rewrite dispatch_sourav by reflexivity.
  change (id (row_of sourav_task)) with id0.
  fold (sourav_cycle w). rewrite IH by exact Hf.
  rewrite Nat.iter_succ_r. reflexivity.
Qed.

(** C1 (where the code departs from it): a pending record tagged
    [sourav-producer2] is fetched and dispatched in every cycle and never
    marked: after any number [n] of cycles the loop is still running, the
    table is as it was, the record is pending, and it was delivered [n]
    times. *)
Theorem sourav_record_never_processed (n : nat) :
  let w := one_pending (text_of sourav_task) in
  exists wn,
    watch_loop n w = (Ok tt, wn) /\
    queue wn = queue w /\
    status_of id0 (queue wn) = ["pending"] /\
    get_first_pending_item (queue wn) = Some (row_of sourav_task) /\
    trace wn = concat (replicate n [EvPrint (log_of (lit "sourav-producer2") id0);
                                    EvPrint SouravBlock2; EvSleep POLL_INTERVAL]).
Proof.
  intros w. exists (Nat.iter n sourav_cycle w).
  split; [apply sourav_loop; reflexivity|].
  rewrite sourav_cycles_queue, sourav_cycles_trace.
  repeat split; reflexivity.
Qed.

(** The same for an [llm_invoke] record whose handler succeeds: the cycle
    ends normally and leaves the table as it was. *)
Lemma llm_invoke_not_marked w row payload d :
  get_first_pending_item (queue w) = Some row ->
  json_loads (data row) = Ok payload ->
  subscript payload (lit "task") = Ok (PStr (lit "llm_invoke")) ->
  subscript payload (lit "data") = Ok d ->
  Transporter_new = Ok tt ->
  Transporter_process d = Ok tt ->
  (watch_cycle w).1 = Ok tt /\ queue (watch_cycle w).2 = queue w.
Proof.
  intros Hf Hl Ht Hd Hn Hp.
  rewrite (watch_cycle_fetch w row payload Hf Hl).
  rewrite (dispatch_llm_invoke _ _ d w Ht Hd Hn), Hp. split; reflexivity.
Qed.

End NeverMarked.

(** ** Claim on [process_corrective_action] *)

Section IndependenceClaim.
Context `{Collaborators}.

(** C10: two inputs of [process_corrective_action] with the same
    [payload_id] (whatever their [error_message]) give the same result, the
    same world and the same trace; and every RAG query the handler makes is
    the constant ['No incident description provided']. *)
Theorem corrective_action_ignores_error_message (data1 data2 : pyval) (w : world) :
  dict_get data1 (lit "payload_id") PNone = dict_get data2 (lit "payload_id") PNone ->
  process_corrective_action data1 w = process_corrective_action data2 w /\
  exists new,
    trace (process_corrective_action data1 w).2 = trace w ++ new /\
    Forall queries_constant new.
Proof.
  intros Hid. split.
  - unfold process_corrective_action, process_corrective_action_try, try_except. rewrite !bind_run.
    cbn [lift]. rewrite Hid.
    destruct data1, data2; cbn in Hid; try discriminate; reflexivity.
  - revert w. change (emits queries_constant (process_corrective_action data1)).
    unfold process_corrective_action, process_corrective_action_try, get_corrective_action_from_rag,
      update_corrective_action_db.
    emits; intros q Hq; try discriminate.
    injection Hq as <-. reflexivity.
Qed.

End IndependenceClaim.

Lemma corrective_action_ignores_error_message_witness :
  dict_get X1_disk_full (lit "payload_id") PNone
  = dict_get X1_timeout (lit "payload_id") PNone /\
  process_corrective_action (H := quiet) X1_disk_full empty_world
  = process_corrective_action (H := quiet) X1_timeout empty_world /\
  exists new,
    trace (process_corrective_action (H := quiet) X1_disk_full empty_world).2
    = trace empty_world ++ new /\
    Forall queries_constant new.
Proof.
  split; [reflexivity|].
  apply (corrective_action_ignores_error_message (H := quiet)
           X1_disk_full X1_timeout empty_world).
  reflexivity.
Defined.

(** ** Sequences of enqueues and marks *)

Lemma marked_by_nil now r : marked_by [] now r = r.
Proof. unfold marked_by. rewrite bool_decide_eq_false_2; [reflexivity|]. apply not_elem_of_nil. Qed.

Lemma marked_by_cons m mids now r :
  marked_by mids now (mark_row m now r) = marked_by (m :: mids) now r.
Proof.
  unfold marked_by, mark_row.
  destruct (pystr_eqb (id r) m) eqn:E.
  - apply pystr_eqb_eq in E. cbn [id processed_row].
    rewrite (bool_decide_eq_true_2 (id r ∈ m :: mids)) by (rewrite E; left).
    destruct (bool_decide (id r ∈ mids)); reflexivity.
  - apply pystr_eqb_neq in E.
    destruct (bool_decide (id r ∈ mids)) eqn:Em.
    + apply bool_decide_eq_true in Em.
      rewrite bool_decide_eq_true_2 by (right; assumption). reflexivity.
    + apply bool_decide_eq_false in Em.
      rewrite bool_decide_eq_false_2; [reflexivity|].
      intros Hin. apply elem_of_cons in Hin as [?|?]; congruence.
Qed.

Lemma marked_by_skip m mids now r :
  id r <> m -> marked_by (m :: mids) now r = marked_by mids now r.
Proof.
  intros Hne. unfold marked_by.
  destruct (bool_decide (id r ∈ mids)) eqn:Em.
  - apply bool_decide_eq_true in Em.
    rewrite bool_decide_eq_true_2 by (right; assumption). reflexivity.
  - apply bool_decide_eq_false in Em.
    rewrite bool_decide_eq_false_2; [reflexivity|].
    intros Hin. apply elem_of_cons in Hin as [?|?]; congruence.
Qed.

Lemma marked_by_id mids now r : id (marked_by mids now r) = id r.
Proof. unfold marked_by. destruct (bool_decide _); reflexivity. Qed.

Lemma marked_by_no_pending mids now q :
  no_pending q -> no_pending (marked_by mids now <$> q).
Proof.
  intros Hq. apply Forall_fmap. eapply Forall_impl; [exact Hq|].
  intros r Hr. cbn. unfold marked_by. destruct (bool_decide _); [reflexivity|assumption].
Qed.

Lemma existsb_mark_row m now mid q :
  existsb (fun r => pystr_eqb (id r) mid) (mark_row m now <$> q)
  = existsb (fun r => pystr_eqb (id r) mid) q.
Proof.
  induction q as [|r q IH]; [reflexivity|].
  cbn [fmap list_fmap existsb] in *. rewrite IH. f_equal.
  unfold mark_row. destruct (pystr_eqb (id r) m); reflexivity.
Qed.

Lemma rows_of_ids ids texts now r : r ∈ rows_of ids texts now -> id r ∈ ids.
Proof.
  revert texts. induction ids as [|i ids IH]; intros [|x texts] Hin;
    cbn in Hin; try (inversion Hin; fail).
  apply elem_of_cons in Hin as [->|Hin]; [left|right; eapply IH; eassumption].
Qed.

Lemma find_rows_of ids texts now k :
  NoDup ids ->
  List.find is_pending (marked_by (take k ids) now <$> rows_of ids texts now)
  = rows_of ids texts now !! k.
Proof.
  pose proof rows_of_ids as Hids. unfold rows_of in *.
  revert texts k. induction ids as [|i ids IH]; intros texts k Hnd.
  - destruct k; reflexivity.
  - apply NoDup_cons in Hnd as [Hi Hnd].
    destruct texts as [|x texts]; [destruct k; reflexivity|].
    destruct k as [|k].
    + cbn [take rows_of zip_with fmap list_fmap List.find lookup list_lookup].
      rewrite marked_by_nil. reflexivity.
    + cbn [take rows_of zip_with fmap list_fmap List.find lookup list_lookup].
      unfold marked_by at 1. cbn [id new_row].
      rewrite bool_decide_eq_true_2 by left.
      cbn [is_pending processed_row status String.eqb Ascii.eqb Bool.eqb].
      etransitivity; [|exact (IH texts k Hnd)]. f_equal.
      apply list_fmap_ext. intros j r Hr.
      apply marked_by_skip. intros E. apply Hi. rewrite <- E.
      apply (Hids ids texts now r).
      apply list_elem_of_lookup. eauto.
Qed.

Section Sequences.
Context `{Collaborators}.

Lemma mark_each_run mids w :
  Forall (fun m => existsb (fun r => pystr_eqb (id r) m) (queue w) = true) mids ->
  exists w',
    mark_each mids w = (Ok tt, w') /\
    queue w' = marked_by mids (clock w) <$> queue w /\
    clock w' = clock w.
Proof.
  revert w. induction mids as [|m mids IH]; intros w Hall.
  - exists w. split; [reflexivity|]. split; [|reflexivity].
    rewrite <- (list_fmap_id (queue w)) at 1. apply list_fmap_ext.
    intros ? r _. symmetry. apply marked_by_nil.
  - apply Forall_cons in Hall as [Hm Hall].
    destruct (IH (marked m w)) as (w' & Hrun & Hq & Hc).
    { eapply Forall_impl; [exact Hall|]. intros m' Hm'. cbn beta in *.
      cbn [queue marked with_queue]. rewrite existsb_mark_row. exact Hm'. }
    exists w'. split.
    + cbn [mark_each]. rewrite bind_run. unfold mark_message_processed.
      rewrite set_processed_run by exact Hm. exact Hrun.
    + split; [|exact Hc]. rewrite Hq.
      cbn [queue clock marked emitted with_queue with_trace].
      rewrite <- list_fmap_compose. apply list_fmap_ext.
      intros ? r _. cbn. apply marked_by_cons.
Qed.

Lemma enqueue_each_run tasks texts w :
  Forall2 (fun t x => json_dumps t = Ok x) tasks texts ->
  NoDup (uuid4 <$> seq (draws w) (length tasks)) ->
  Forall (fun i => fresh i (queue w)) (uuid4 <$> seq (draws w) (length tasks)) ->
  exists w1,
    enqueue_each tasks w = (Ok (uuid4 <$> seq (draws w) (length tasks)), w1) /\
    queue w1 = queue w
               ++ rows_of (uuid4 <$> seq (draws w) (length tasks)) texts (clock w) /\
    clock w1 = clock w.
Proof.
  intros Hd. revert w.
  induction Hd as [|t x tasks texts Ht _ IH]; intros w Hnd Hfr.
  - exists w. cbn. rewrite app_nil_r. repeat split.
  - cbn [length seq fmap list_fmap] in Hnd, Hfr |- *.
    apply NoDup_cons in Hnd as [Hi Hnd].
    apply Forall_cons in Hfr as [Hf0 Hfr].
    pose proof (enqueue_ok t x w Ht Hf0) as He.
    set (w' := with_queue _ _) in He.
    destruct (IH w') as (w1 & Hrun & Hq & Hc).
    { exact Hnd. }
    { cbn [queue draws w' with_queue with_trace with_draws].
      apply Forall_forall. intros i Hin.
      rewrite Forall_forall in Hfr. specialize (Hfr i Hin).
      apply Forall_app. split; [exact Hfr|].
      constructor; [|constructor]. cbn [id new_row]. intros E.
      apply Hi. rewrite E. exact Hin. }
    exists w1. split.
    + cbn [enqueue_each]. rewrite bind_run, He. rewrite bind_run, Hrun. reflexivity.
    + split; [|exact Hc]. rewrite Hq.
      cbn [queue draws clock w' with_queue with_trace with_draws].
      rewrite <- app_assoc. reflexivity.
Qed.

End Sequences.

Lemma json_texts tasks :
  Forall (fun t => is_json t = true) tasks ->
  exists texts,
    Forall2 (fun t x => json_dumps t = Ok x /\ json_loads x = Ok t) tasks texts.
Proof.
  induction 1 as [|t tasks Ht _ (texts & IH)].
  - exists []. constructor.
  - destruct (json_loads_dumps t Ht) as (x & Hx). exists (x :: texts).
    constructor; assumption.
Qed.

Lemma rows_of_existsb ids texts now m :
  m ∈ ids -> length ids = length texts ->
  existsb (fun r => pystr_eqb (id r) m) (rows_of ids texts now) = true.
Proof.
  unfold rows_of. revert texts.
  induction ids as [|i ids IH]; intros texts Hin Hlen; [inversion Hin|].
  destruct texts as [|x texts]; [discriminate|].
  cbn [zip_with existsb id new_row].
  apply elem_of_cons in Hin as [->|Hin].
  - rewrite pystr_eqb_refl. reflexivity.
  - rewrite IH; [apply orb_true_r|assumption|]. cbn in Hlen. congruence.
Qed.

Section FifoClaim.
Context `{Collaborators}.

(** C6: [get_first_pending_item] is the oldest pending record of the
    table, or none; and after enqueueing tasks [t1..tN] in order onto a
    store without pending records and marking the first [k] of them
    processed, [get_pending_message] gives the task number [k+1] with its
    id, and none once [k = N]. *)
Theorem fifo_among_pending (tasks : list pyval) (w : world) (k : nat) :
  Forall (fun t => is_json t = true) tasks ->
  no_pending (queue w) ->
  let ids := uuid4 <$> seq (draws w) (length tasks) in
  NoDup ids ->
  Forall (fun i => fresh i (queue w)) ids ->
  (k <= length tasks)%nat ->
  (forall q r,
      get_first_pending_item q = Some r <->
      exists before after,
        q = before ++ r :: after /\ no_pending before /\ is_pending r = true) /\
  (forall q, get_first_pending_item q = None <-> no_pending q) /\
  exists w1 wk,
    enqueue_each tasks w = (Ok ids, w1) /\
    mark_each (take k ids) w1 = (Ok tt, wk) /\
    get_pending_message wk
    = (Ok match ids !! k, tasks !! k with
          | Some i, Some t => Some (i, t)
          | _, _ => None
          end, wk).
Proof.
  intros Hj Hp ids Hnd Hfr Hk.
  split; [exact get_first_pending_item_spec|].
  split; [exact get_first_pending_item_none|].
  destruct (json_texts tasks Hj) as (texts & Htx).
  assert (length ids = length texts) as Hlen.
  { unfold ids. rewrite length_fmap, length_seq. eapply Forall2_length. exact Htx. }
  destruct (enqueue_each_run tasks texts w) as (w1 & Hrun & Hq1 & Hc1);
    [eapply Forall2_impl; [exact Htx|]; intros ? ? [? _]; assumption
    |exact Hnd|exact Hfr|].
  fold ids in Hrun, Hq1.
  destruct (mark_each_run (take k ids) w1) as (wk & Hmark & Hqk & Hck).
  { apply Forall_forall. intros m Hm. rewrite Hq1, existsb_app.
    rewrite (rows_of_existsb ids texts (clock w) m); [apply orb_true_r| |exact Hlen].
    exact (subseteq_take k ids m Hm). }
  exists w1, wk. split; [exact Hrun|]. split; [exact Hmark|].
  assert (get_first_pending_item (queue wk) = rows_of ids texts (clock w) !! k) as Hfind.
  { unfold get_first_pending_item. rewrite Hqk, Hq1, Hc1, fmap_app.
    rewrite find_app_no_pending by (apply marked_by_no_pending; exact Hp).
    apply find_rows_of. exact Hnd. }
  unfold get_pending_message. rewrite bind_run. cbn [get_world].
  rewrite Hfind. unfold rows_of. rewrite lookup_zip_with.
  destruct (ids !! k) as [i|] eqn:Ei; cbn [mbind option_bind].
  - destruct (texts !! k) as [x|] eqn:Ex; cbn [mbind option_bind].
    + destruct (Forall2_lookup_r _ _ _ _ _ Htx Ex) as (t & Et & _ & Hl).
      rewrite Et. rewrite bind_run. cbn [lift data new_row id]. rewrite Hl.
      reflexivity.
    + apply lookup_ge_None in Ex. apply lookup_lt_Some in Ei. lia.
  - reflexivity.
Qed.

End FifoClaim.

Lemma fifo_among_pending_witness :
  let ids := uuid4 (Collaborators := quiet) <$> seq 0 3 in
  Forall (fun t => is_json t = true) three_tasks /\
  no_pending [] /\ NoDup ids /\ Forall (fun i => fresh i []) ids /\ (1 <= 3)%nat /\
  exists w1 wk,
    enqueue_each (H := quiet) three_tasks empty_world = (Ok ids, w1) /\
    mark_each (take 1 ids) w1 = (Ok tt, wk) /\
    get_pending_message wk = (Ok (Some (lit "id-1", llm_task)), wk).
Proof.
  intros ids.
  assert (Forall (fun t => is_json t = true) three_tasks) as H1
      by (repeat constructor).
  assert (no_pending []) as H2 by constructor.
  assert (NoDup ids) as H3
      by (apply (bool_decide_eq_true_1 (NoDup ids)); vm_compute; reflexivity).
  assert (Forall (fun i => fresh i []) ids) as H4 by (repeat constructor).
  assert (1 <= 3)%nat as H5 by lia.
  repeat (split; [assumption|]).
  exact (proj2 (proj2 (fifo_among_pending (H := quiet) three_tasks empty_world 1
                         H1 H2 H3 H4 H5))).
Defined.


(** ** [SQLiteQueue.get_stats] *)

Lemma assoc_bump st0 groups st :
  assoc (bump st0 groups) st
  = if String.eqb st0 st then Some (S (default 0%nat (assoc groups st0)))
    else assoc groups st.
Proof.
  induction groups as [|[s n] rest IH]; cbn [bump assoc].
  - destruct (String.eqb st0 st); reflexivity.
  - destruct (String.eqb s st0) eqn:E0; cbn [assoc default].
    + apply String.eqb_eq in E0. subst s.
      destruct (String.eqb st0 st); reflexivity.
    + rewrite IH. destruct (String.eqb s st) eqn:Es.
      * apply String.eqb_eq in Es. subst s.
        rewrite String.eqb_sym, E0. reflexivity.
      * reflexivity.
Qed.

Lemma count_status_snoc st q r :
  count_status st (q ++ [r])
  = (count_status st q + if String.eqb (status r) st then 1 else 0)%nat.
Proof.
  unfold count_status. rewrite List.filter_app, length_app. cbn [List.filter].
  destruct (String.eqb (status r) st); reflexivity.
Qed.

Lemma assoc_group_by_status q st :
  assoc (raw_execute_group_by_status q) st
  = if Nat.eqb (count_status st q) 0 then None else Some (count_status st q).
Proof.
  unfold raw_execute_group_by_status.
  induction q as [|r q IH] using rev_ind; [reflexivity|].
  rewrite fold_left_app. cbn [fold_left]. rewrite assoc_bump, count_status_snoc.
  destruct (String.eqb (status r) st) eqn:E.
  - apply String.eqb_eq in E. subst st. rewrite IH.
    destruct (count_status (status r) q); cbn [Nat.eqb default Nat.add].
    + reflexivity.
    + rewrite Nat.add_comm. reflexivity.
  - rewrite Nat.add_0_r. exact IH.
Qed.

Lemma bump_keys st0 groups k :
  k ∈ (bump st0 groups).*1 -> k = st0 \/ k ∈ groups.*1.
Proof.
  induction groups as [|[s n] rest IH]; cbn [bump].
  - cbn. intros Hk. apply list_elem_of_singleton in Hk. left. assumption.
  - destruct (String.eqb s st0); cbn [fmap list_fmap fst]; intros Hk.
    + right. assumption.
    + apply elem_of_cons in Hk as [->|Hk]; [right; left|].
      destruct (IH Hk) as [?|?]; [left; assumption|right; right; assumption].
Qed.

Lemma bump_keys_NoDup st0 groups : NoDup groups.*1 -> NoDup (bump st0 groups).*1.
Proof.
  induction groups as [|[s n] rest IH]; cbn [bump]; intros Hnd.
  - cbn. apply NoDup_singleton.
  - cbn [fmap list_fmap fst] in Hnd. apply NoDup_cons in Hnd as [Hs Hnd].
    destruct (String.eqb s st0) eqn:E; cbn [fmap list_fmap fst].
    + apply NoDup_cons. split; assumption.
    + apply NoDup_cons. split; [|apply IH; assumption].
      intros Hk. apply bump_keys in Hk as [->|Hk]; [|contradiction].
      rewrite String.eqb_refl in E. discriminate.
Qed.

Lemma group_by_status_NoDup q : NoDup (raw_execute_group_by_status q).*1.
Proof.
  unfold raw_execute_group_by_status.
  induction q as [|r q IH] using rev_ind; [constructor|].
  rewrite fold_left_app. cbn [fold_left]. apply bump_keys_NoDup. exact IH.
Qed.

Lemma assoc_absent groups st : st ∉ groups.*1 -> assoc groups st = None.
Proof.
  induction groups as [|[s n] rest IH]; [reflexivity|].
  cbn [fmap list_fmap fst assoc]. intros Hk.
  apply not_elem_of_cons in Hk as [Hne Hk].
  destruct (String.eqb s st) eqn:E; [apply String.eqb_eq in E; congruence|].
  apply IH. assumption.
Qed.

(** The dictionary comprehension over rows with distinct keys. *)
Lemma stats_dict_lookup (items : list (string * nat)) (m : gmap string nat) st :
  NoDup items.*1 ->
  fold_left (fun stats row => <[row.1 := row.2]> stats) items m !! st
  = match assoc items st with Some n => Some n | None => m !! st end.
Proof.
  revert m. induction items as [|[s n] rest IH]; intros m Hnd; [reflexivity|].
  cbn [fmap list_fmap fst] in Hnd. apply NoDup_cons in Hnd as [Hs Hnd].
  cbn [fold_left assoc fst snd]. rewrite IH by assumption.
  destruct (String.eqb s st) eqn:E.
  - apply String.eqb_eq in E. subst s.
    rewrite assoc_absent by assumption. apply lookup_insert_eq.
  - apply String.eqb_neq in E. rewrite lookup_insert_ne by assumption. reflexivity.
Qed.

Section StatsFacts.
Context `{Collaborators}.

(** [get_stats] maps every status that occurs to its number of records. *)
Lemma get_stats_lookup w :
  exists stats,
    get_stats w = (Ok stats, w) /\
    forall st, stats !! st
               = if Nat.eqb (count_status st (queue w)) 0 then None
                 else Some (count_status st (queue w)).
Proof.
  eexists. split; [reflexivity|]. intros st.
  rewrite stats_dict_lookup by apply group_by_status_NoDup.
  rewrite assoc_group_by_status, lookup_empty.
  destruct (Nat.eqb (count_status st (queue w)) 0); reflexivity.
Qed.

End StatsFacts.

Lemma count_marked_rows st done now ids texts :
  length ids = length texts ->
  count_status st (marked_by done now <$> rows_of ids texts now)
  = if String.eqb "processed" st then length (filter (fun i => i ∈ done) ids)
    else if String.eqb "pending" st then length (filter (fun i => i ∉ done) ids)
    else 0%nat.
Proof.
  unfold rows_of, count_status.
  remember (String.eqb "processed" st) as b1 eqn:E1.
  remember (String.eqb "pending" st) as b2 eqn:E2.
  revert texts.
  induction ids as [|i ids IH]; intros [|x texts] Hlen; try discriminate.
  - destruct b1, b2; reflexivity.
  - cbn [zip_with fmap list_fmap List.filter].
    change (list_fmap qrow qrow (marked_by done now)) with (fmap (marked_by done now)).
    specialize (IH texts ltac:(cbn in Hlen; congruence)).
    unfold marked_by at 1. cbn [id new_row].
    destruct (decide (i ∈ done)) as [Hin|Hin].
    + rewrite bool_decide_eq_true_2 by assumption. cbn [status processed_row].
      rewrite filter_cons_True by assumption.
      rewrite filter_cons_False by (intros Hn; apply Hn; assumption).
      rewrite <- E1. destruct b1; cbn [length]; rewrite IH; reflexivity.
    + rewrite bool_decide_eq_false_2 by assumption. cbn [status new_row].
      rewrite filter_cons_False by assumption.
      rewrite filter_cons_True by assumption.
      rewrite <- E2. destruct b2.
      * symmetry in E2. apply String.eqb_eq in E2. subst st.
        change (String.eqb "processed" "pending") with false in E1. subst b1.
        cbn [length]. rewrite IH. reflexivity.
      * destruct b1; rewrite IH; reflexivity.
Qed.

Lemma length_filter_done (ids done : list pystr) :
  NoDup ids -> NoDup done -> done ⊆ ids ->
  length (filter (fun i => i ∈ done) ids) = length done /\
  length (filter (fun i => i ∉ done) ids) = (length ids - length done)%nat.
Proof.
  intros Hi Hd Hsub.
  assert (length (filter (fun i => i ∈ done) ids) = length done) as Hin.
  { apply Permutation_length, NoDup_Permutation;
      [apply NoDup_filter; assumption|assumption|].
    intros x. rewrite list_elem_of_filter. split; [tauto|].
    intros Hx. split; [assumption|apply Hsub; assumption]. }
  split; [assumption|].
  pose proof (filter_app_complement (fun i => i ∈ done) ids) as Hp.
  apply Permutation_length in Hp. rewrite length_app in Hp. lia.
Qed.

Section StatsClaim.
Context `{Collaborators}.

(** Enqueueing [N] tasks onto an empty store and marking [K] of them,
    with [0 < K < N], gives the statistics [{pending: N - K,
    processed: K}]. *)
Lemma stats_after tasks texts done w :
  queue w = [] ->
  Forall2 (fun t x => json_dumps t = Ok x) tasks texts ->
  let ids := uuid4 <$> seq (draws w) (length tasks) in
  NoDup ids -> NoDup done -> done ⊆ ids ->
  (0 < length done < length tasks)%nat ->
  exists w1 w2,
    enqueue_each tasks w = (Ok ids, w1) /\
    mark_each done w1 = (Ok tt, w2) /\
    get_stats w2
    = (Ok {[ "pending" := (length tasks - length done)%nat;
             "processed" := length done ]}, w2).
Proof.
  intros Hq Htx ids Hnd Hdone Hsub Hlen.
  assert (length ids = length texts) as Hl.
  { unfold ids. rewrite length_fmap, length_seq. eapply Forall2_length. exact Htx. }
  destruct (enqueue_each_run tasks texts w Htx Hnd) as (w1 & Hrun & Hq1 & Hc1).
  { rewrite Hq. apply Forall_forall. intros ? _. constructor. }
  fold ids in Hrun, Hq1. rewrite Hq, app_nil_l in Hq1.
  destruct (mark_each_run done w1) as (w2 & Hmark & Hq2 & Hc2).
  { apply Forall_forall. intros m Hm. rewrite Hq1.
    apply rows_of_existsb; [apply Hsub; exact Hm|exact Hl]. }
  exists w1, w2. split; [exact Hrun|]. split; [exact Hmark|].
  destruct (get_stats_lookup w2) as (stats & Hs & Hlook). rewrite Hs.
  f_equal. f_equal. apply map_eq. intros st. rewrite Hlook, Hq2, Hq1, Hc1.
  rewrite count_marked_rows by exact Hl.
  destruct (length_filter_done ids done Hnd Hdone Hsub) as [-> ->].
  replace (length ids) with (length tasks)
    by (unfold ids; rewrite length_fmap, length_seq; reflexivity).
  destruct (String.eqb "processed" st) eqn:E1.
  - apply String.eqb_eq in E1. subst st.
    rewrite lookup_insert_ne by discriminate. rewrite lookup_singleton_eq.
    destruct (length done); [lia|reflexivity].
  - destruct (String.eqb "pending" st) eqn:E2.
    + apply String.eqb_eq in E2. subst st. rewrite lookup_insert_eq.
      destruct (length tasks - length done)%nat eqn:E; [lia|reflexivity].
    + apply String.eqb_neq in E1, E2.
      rewrite lookup_insert_ne by assumption.
      rewrite lookup_singleton_ne by assumption. reflexivity.
Qed.

(** C8: starting from an empty store, after enqueueing 5 tasks and
    marking 2 of them processed, [get_stats] returns exactly
    [{pending: 3, processed: 2}]. *)
Theorem stats_consistency (tasks : list pyval) (done : list pystr) (w : world) :
  queue w = [] ->
  length tasks = 5%nat ->
  Forall (fun t => raises (json_dumps t) = false) tasks ->
  let ids := uuid4 <$> seq (draws w) 5 in
  NoDup ids -> NoDup done -> done ⊆ ids -> length done = 2%nat ->
  exists w1 w2,
    enqueue_each tasks w = (Ok ids, w1) /\
    mark_each done w1 = (Ok tt, w2) /\
    get_stats w2 = (Ok {[ "pending" := 3%nat; "processed" := 2%nat ]}, w2).
Proof.
  intros Hq Hn Hser ids Hnd Hdone Hsub Hk.
  assert (exists texts, Forall2 (fun t x => json_dumps t = Ok x) tasks texts)
    as [texts Htx].
  { clear - Hser. induction Hser as [|t tasks Ht _ (texts & IH)].
    - exists []. constructor.
    - destruct (json_dumps t) as [x|e] eqn:E; [|discriminate].
      exists (x :: texts). constructor; assumption. }
  pose proof (stats_after tasks texts done w Hq Htx) as Hst.
  rewrite Hn, Hk in Hst. cbn zeta in Hst.
  apply Hst; [exact Hnd|exact Hdone|exact Hsub|lia].
Qed.

End StatsClaim.

Lemma stats_consistency_witness :
  let ids := uuid4 (Collaborators := quiet) <$> seq 0 5 in
  let done := [lit "id-3"; lit "id-1"] in
  queue empty_world = [] /\
  length five_tasks = 5%nat /\
  Forall (fun t => raises (json_dumps t) = false) five_tasks /\
  NoDup ids /\ NoDup done /\ done ⊆ ids /\ length done = 2%nat /\
  exists w1 w2,
    enqueue_each (H := quiet) five_tasks empty_world = (Ok ids, w1) /\
    mark_each done w1 = (Ok tt, w2) /\
    get_stats w2 = (Ok {[ "pending" := 3%nat; "processed" := 2%nat ]}, w2).
Proof.
  intros ids done.
  assert (queue empty_world = []) as H1 by reflexivity.
  assert (length five_tasks = 5%nat) as H2 by reflexivity.
  assert (Forall (fun t => raises (json_dumps t) = false) five_tasks) as H3
      by (repeat constructor).
  assert (NoDup ids) as H4
      by (apply (bool_decide_eq_true_1 (NoDup ids)); vm_compute; reflexivity).
  assert (NoDup done) as H5
      by (apply (bool_decide_eq_true_1 (NoDup done)); vm_compute; reflexivity).
  assert (done ⊆ ids) as H6
      by (apply (bool_decide_eq_true_1 (done ⊆ ids)); vm_compute; reflexivity).
  assert (length done = 2%nat) as H7 by reflexivity.
  repeat (split; [assumption|]).
  exact (stats_consistency (H := quiet) five_tasks done empty_world
           H1 H2 H3 H4 H5 H6 H7).
Defined.


(** * Further properties of the listener, the queue and the handler *)

(** ** Edge cases of [watch_queue] *)

Lemma idle_cycles_trace n w :
  trace (Nat.iter n idle_cycle w)
  = trace w ++ concat (replicate n [EvPrint NoPendingMessages; EvSleep POLL_INTERVAL]).
Proof.
  revert w. induction n as [|n IH]; intros w.
  - cbn. rewrite app_nil_r. reflexivity.
  - rewrite Nat.iter_succ_r, IH. cbn [replicate concat]. unfold idle_cycle.
    cbn [trace slept printed emitted with_clock with_trace].
    rewrite <- !app_assoc. reflexivity.
Qed.

Lemma idle_cycles_queue n w : queue (Nat.iter n idle_cycle w) = queue w.
Proof. induction n as [|n IH]; [reflexivity|]. cbn [Nat.iter]. exact IH. Qed.

Lemma idle_cycles_clock n w :
  clock (Nat.iter n idle_cycle w) = (clock w + n * POLL_INTERVAL)%nat.
Proof.
  induction n as [|n IH]; [cbn; lia|].
  change (clock (Nat.iter (S n) idle_cycle w))
    with (clock (Nat.iter n idle_cycle w) + POLL_INTERVAL)%nat.
  rewrite IH. unfold POLL_INTERVAL. lia.
Qed.

Section WatcherEdges.
Context `{Collaborators}.

(** X1: on a store without a pending record the watcher never stops and
    never touches the store: [n] cycles print the waiting line and sleep
    [n] times, and the clock has advanced by [n] poll intervals. *)
Theorem idle_watcher_keeps_polling (n : nat) (w : world) :
  no_pending (queue w) ->
  exists w',
    watch_loop n w = (Ok tt, w') /\
    queue w' = queue w /\
    classifier_outputs w' = classifier_outputs w /\
    clock w' = (clock w + n * POLL_INTERVAL)%nat /\
    trace w' = trace w ++ concat (replicate n [EvPrint NoPendingMessages;
                                               EvSleep POLL_INTERVAL]).
Proof.
  intros Hn. exists (Nat.iter n idle_cycle w).
  split; [|split; [apply idle_cycles_queue|split;
                   [|split; [apply idle_cycles_clock|apply idle_cycles_trace]]]].
  - revert w Hn. induction n as [|n IH]; intros w Hn; [reflexivity|].
    cbn [watch_loop]. rewrite bind_run, (watch_cycle_idle w Hn).
    fold (idle_cycle w). rewrite IH by exact Hn.
    rewrite Nat.iter_succ_r. reflexivity.
  - clear Hn. induction n as [|n IH]; [reflexivity|]. cbn [Nat.iter]. exact IH.
Qed.

(** X2: a pending record whose payload is valid JSON but has no string
    task tag (not an object, no [task] key, a tag that is not a string) ends
    the cycle by a [TypeError] or [KeyError] before anything is printed or
    marked: the world is untouched and the record is still the first pending
    one. *)
Theorem payload_without_tag_ends_cycle (w : world) (row : qrow) (payload : pyval) :
  get_first_pending_item (queue w) = Some row ->
  json_loads (data row) = Ok payload ->
  (forall tag, subscript payload (lit "task") <> Ok (PStr tag)) ->
  watch_cycle w = (Raise (tag_error payload), w) /\
  watch_queue 1 w = (Raise (tag_error payload), printed WatcherStarted w).
Proof.
  intros Hf Hl Ht.
  assert (dispatch (id row) payload w = (Raise (tag_error payload), w)) as Hd.
  { unfold dispatch, tag_error. rewrite bind_run. unfold lift at 1.
    destruct payload as [| | | |?|?|d|?]; try reflexivity.
    cbn [subscript] in *. destruct (dict_find d (lit "task")) as [t|]; [|reflexivity].
    rewrite bind_run. unfold lift.
    destruct t; try reflexivity. exfalso. eapply Ht. reflexivity. }
  split.
  - rewrite (watch_cycle_fetch w row payload Hf Hl). exact Hd.
  - unfold watch_queue. rewrite bind_run. cbn [print emit watch_loop].
    rewrite bind_run.
    rewrite (watch_cycle_fetch _ row payload) by assumption.
    fold (printed WatcherStarted w).
    unfold dispatch, tag_error in *. rewrite bind_run in *. unfold lift in *.
    destruct (subscript payload (lit "task")) as [t|e] eqn:Et.
    + rewrite bind_run in *. destruct (processing_log t (id row)) as [l|e] eqn:El.
      * destruct t; try discriminate. exfalso. eapply Ht. reflexivity.
      * injection Hd as <-. reflexivity.
    + injection Hd as <-. reflexivity.
Qed.

(** X3: a [set_corrective_action] record without a [data] entry is marked
    processed first, and then the missing key ends [watch_queue]: the handler
    never ran, nothing more is printed, and the record is consumed. *)
Theorem corrective_action_without_data_is_lost (w : world) (row : qrow) (payload : pyval) :
  get_first_pending_item (queue w) = Some row ->
  json_loads (data row) = Ok payload ->
  subscript payload (lit "task") = Ok (PStr (lit "set_corrective_action")) ->
  subscript payload (lit "data") = Raise KeyError ->
  watch_cycle w
  = (Raise KeyError,
     marked (id row) (printed (log_of (lit "set_corrective_action") (id row)) w)) /\
  Forall (fun r => id r = id row -> status r = "processed") (queue (watch_cycle w).2).
Proof.
  intros Hf Hl Ht Hd.
  rewrite (watch_cycle_fetch w row payload Hf Hl).
  assert (dispatch (id row) payload w
          = (Raise KeyError,
             marked (id row) (printed (log_of (lit "set_corrective_action") (id row)) w)))
    as ->.
  { unfold dispatch. rewrite bind_run. unfold lift at 1.
    rewrite Ht. cbn [processing_log eq_str raw_text].
    change (pystr_eqb (lit "set_corrective_action") (lit "llm_invoke")) with false.
    change (pystr_eqb (lit "set_corrective_action") (lit "set_corrective_action"))
      with true.
    cbv iota. run. rewrite print_values_run by reflexivity. run.
    unfold mark_message_processed.
    rewrite set_processed_run by (eapply first_pending_exists; exact Hf).
    run. unfold handle_message. run.
    rewrite (subscript_dict_get _ _ _ PNone Ht). cbn [eq_str].
    change (pystr_eqb (lit "set_corrective_action") (lit "set_corrective_action"))
      with true.
    cbv iota. run. rewrite Hd. reflexivity. }
  split; [reflexivity|]. apply mark_row_processed.
Qed.

(** X4: an [llm_invoke] record without a [data] entry ends the cycle by the
    [KeyError] before the agent pipeline is called; the record stays
    pending. *)
Theorem llm_invoke_without_data_ends_cycle (w : world) (row : qrow) (payload : pyval) :
  get_first_pending_item (queue w) = Some row ->
  json_loads (data row) = Ok payload ->
  subscript payload (lit "task") = Ok (PStr (lit "llm_invoke")) ->
  subscript payload (lit "data") = Raise KeyError ->
  Transporter_new = Ok tt ->
  watch_cycle w = (Raise KeyError, printed (log_of (lit "llm_invoke") (id row)) w) /\
  get_first_pending_item (queue (watch_cycle w).2) = Some row.
Proof.
  intros Hf Hl Ht Hd Hn.
  rewrite (watch_cycle_fetch w row payload Hf Hl).
  assert (dispatch (id row) payload w
          = (Raise KeyError, printed (log_of (lit "llm_invoke") (id row)) w)) as ->.
  { unfold dispatch. rewrite bind_run. unfold lift at 1.
    rewrite Ht. cbn [processing_log eq_str raw_text].
    change (pystr_eqb (lit "llm_invoke") (lit "llm_invoke")) with true. cbv iota.
    run. rewrite print_values_run by reflexivity.
    run. rewrite Hn. run. rewrite Hd. reflexivity. }
  split; [reflexivity|exact Hf].
Qed.

End WatcherEdges.

(** ** The audit trail under the watcher *)

Lemma aged_refl r : aged r r.
Proof. unfold aged. auto. Qed.

Lemma aged_trans r1 r2 r3 : aged r1 r2 -> aged r2 r3 -> aged r1 r3.
Proof.
  unfold aged. intros (Hi & Hd & Hc & Hs) (Hi' & Hd' & Hc' & Hs').
  repeat split; try congruence.
  destruct Hs' as [->|Hs']; [exact Hs|right; exact Hs'].
Qed.

Lemma ages_refl q : ages q q.
Proof. induction q; constructor; [apply aged_refl|assumption]. Qed.

Lemma ages_trans q1 q2 q3 : ages q1 q2 -> ages q2 q3 -> ages q1 q3.
Proof.
  intros H12. revert q3. induction H12 as [|r1 r2 q1 q2 Hr _ IH]; intros q3 H23.
  - inversion H23. constructor.
  - inversion H23 as [|? r3 ? q3' Hr' H23']; subst.
    constructor; [eapply aged_trans; eassumption|apply IH; assumption].
Qed.

Lemma ages_mark_row mid now q : ages q (mark_row mid now <$> q).
Proof.
  induction q as [|r q IH]; constructor; [|exact IH].
  unfold mark_row, aged. destruct (pystr_eqb (id r) mid); cbn; auto.
Qed.

Lemma ages_queue_keeps {A} (m : M A) : keeps_queue m -> ages_queue m.
Proof. intros Hm w. rewrite Hm. apply ages_refl. Qed.

Lemma ages_queue_bind {A B} (m : M A) (f : A -> M B) :
  ages_queue m -> (forall a, ages_queue (f a)) -> ages_queue (m ≫= f).
Proof.
  intros Hm Hf w. rewrite bind_run. specialize (Hm w).
  destruct (m w) as [[a|e] w']; cbn [snd] in *; [|assumption].
  eapply ages_trans; [exact Hm|apply Hf].
Qed.

Lemma ages_queue_if {A} (b : bool) (m1 m2 : M A) :
  ages_queue m1 -> ages_queue m2 -> ages_queue (if b then m1 else m2).
Proof. destruct b; auto. Qed.

Lemma ages_queue_set_processed mid : ages_queue (set_processed mid).
Proof.
  intros w. unfold set_processed.
  destruct (existsb _ (queue w)); cbn [snd queue with_queue];
    [apply ages_mark_row|apply ages_refl].
Qed.

Lemma keeps_queue_sleep n : keeps_queue (sleep n).
Proof. intros w. reflexivity. Qed.

Section AuditTrail.
Context `{Collaborators}.

Lemma dispatch_ages mid payload : ages_queue (dispatch mid payload).
Proof.
  unfold dispatch.
  repeat first
    [ apply ages_queue_bind; [|intros ?]
    | apply ages_queue_if
    | apply ages_queue_set_processed
    | apply ages_queue_keeps;
      first [ apply process_corrective_action_keeps_queue | apply keeps_queue_sleep
            | solve [auto with keeps] ] ].
Qed.

Lemma watch_cycle_ages : ages_queue watch_cycle.
Proof.
  unfold watch_cycle. apply ages_queue_bind.
  - apply ages_queue_keeps. unfold get_pending_message.
    apply keeps_queue_bind; [auto with keeps|]. intros w.
    destruct (get_first_pending_item (queue w)); keeps.
  - intros [[mid payload]|].
    + apply dispatch_ages.
    + apply ages_queue_keeps. keeps; apply keeps_queue_sleep.
Qed.

(** X5: whatever the collaborators do and however long the watcher runs,
    no record is deleted, added or reordered, no id, payload text or creation
    time changes, and a status only ever moves to processed: the audit trail
    is kept. *)
Theorem watch_queue_keeps_audit_trail (n : nat) (w : world) :
  ages (queue w) (queue (watch_queue n w).2) /\
  length (queue (watch_queue n w).2) = length (queue w) /\
  id <$> queue (watch_queue n w).2 = id <$> queue w /\
  data <$> queue (watch_queue n w).2 = data <$> queue w.
Proof.
  assert (ages (queue w) (queue (watch_queue n w).2)) as Ha.
  { revert w. change (ages_queue (watch_queue n)). unfold watch_queue.
    apply ages_queue_bind; [apply ages_queue_keeps; auto with keeps|].
    intros _. induction n as [|n IH]; cbn [watch_loop].
    - apply ages_queue_keeps. auto with keeps.
    - apply ages_queue_bind; [apply watch_cycle_ages|]. intros _. exact IH. }
  split; [exact Ha|].
  split; [symmetry; eapply Forall2_length; exact Ha|].
  split.
  - induction Ha as [|r r' q q' (Hi & _) _ IH]; [reflexivity|].
    cbn [fmap list_fmap]. f_equal; assumption.
  - induction Ha as [|r r' q q' (_ & Hd & _) _ IH]; [reflexivity|].
    cbn [fmap list_fmap]. f_equal; assumption.
Qed.

End AuditTrail.

(** ** Draining the queue *)

Lemma marks_app t1 t2 : marks (t1 ++ t2) = marks t1 ++ marks t2.
Proof. unfold marks. apply omap_app. Qed.

Lemma marks_no_mark t : Forall no_mark t -> marks t = [].
Proof.
  induction 1 as [|ev t Hev _ IH]; [reflexivity|].
  unfold marks in *. cbn [omap]. destruct ev; cbn; try exact IH.
  exfalso. eapply Hev. reflexivity.
Qed.

Lemma mark_row_other mid now q :
  Forall (fun r => id r <> mid) q -> mark_row mid now <$> q = q.
Proof.
  induction 1 as [|r q Hr _ IH]; [reflexivity|].
  cbn [fmap list_fmap]. change (list_fmap qrow qrow (mark_row mid now) q)
    with (mark_row mid now <$> q). rewrite IH. f_equal.
  unfold mark_row. apply pystr_eqb_neq in Hr. rewrite Hr. reflexivity.
Qed.

Lemma mark_row_unique now before row after :
  NoDup (id <$> before ++ row :: after) ->
  mark_row (id row) now <$> (before ++ row :: after)
  = before ++ processed_row now row :: after.
Proof.
  intros Hnd. rewrite fmap_app in Hnd. cbn [fmap list_fmap] in Hnd.
  apply NoDup_app in Hnd as (_ & Hb & Ha). apply NoDup_cons in Ha as [Ha _].
  rewrite fmap_app. cbn [fmap list_fmap].
  change (list_fmap qrow qrow (mark_row (id row) now)) with (fmap (mark_row (id row) now)).
  rewrite !mark_row_other.
  - unfold mark_row at 1. rewrite pystr_eqb_refl. reflexivity.
  - apply Forall_forall. intros r Hr E. apply Ha. rewrite <- E.
    apply list_elem_of_fmap. exists r. split; [reflexivity|exact Hr].
  - apply Forall_forall. intros r Hr E. apply (Hb (id r)).
    + apply list_elem_of_fmap. exists r. split; [reflexivity|exact Hr].
    + rewrite E. left.
Qed.

Lemma filter_no_pending q : no_pending q -> List.filter is_pending q = [].
Proof.
  induction 1 as [|r q Hr _ IH]; [reflexivity|].
  cbn [List.filter]. rewrite Hr. exact IH.
Qed.

Lemma filter_pending_nil q : List.filter is_pending q = [] -> no_pending q.
Proof.
  induction q as [|r q IH]; [constructor|].
  cbn [List.filter]. destruct (is_pending r) eqn:E; [discriminate|].
  intros Hq. constructor; [exact E|apply IH; exact Hq].
Qed.

Section Drain.
Context `{Collaborators}.

Lemma process_corrective_action_no_mark data :
  emits no_mark (process_corrective_action data).
Proof.
  unfold process_corrective_action, process_corrective_action_try, get_corrective_action_from_rag,
    update_corrective_action_db.
  emits; intros i Hi; discriminate.
Qed.

(** One cycle on a consumable first pending record marks it and ends
    normally. *)
Lemma cycle_consumes w row :
  get_first_pending_item (queue w) = Some row ->
  consumable row ->
  exists w',
    watch_cycle w = (Ok tt, w') /\
    queue w' = mark_row (id row) (clock w) <$> queue w /\
    marks (trace w') = marks (trace w) ++ [id row].
Proof.
  intros Hf (payload & tag & Hl & Ht & He & H1 & H3 & Hd).
  rewrite (watch_cycle_fetch w row payload Hf Hl).
  destruct (decide (tag = lit "set_corrective_action")) as [->|H2].
  - destruct (Hd eq_refl) as [d Hdata].
    rewrite (dispatch_set_corrective_action _ _ d w Ht Hdata
               (first_pending_exists _ _ Hf)).
    set (w1 := marked (id row) _).
    destruct (process_corrective_action_returns d w1) as [b Hb].
    pose proof (process_corrective_action_keeps_queue d w1) as Hq.
    destruct (process_corrective_action_no_mark d w1) as (new & Hnew & Hno).
    destruct (process_corrective_action d w1) as [r w2].
    cbn [fst snd] in *. subst r. eexists. split; [reflexivity|].
    cbn [queue trace slept printed emitted with_clock with_trace].
    rewrite Hq, Hnew. split; [reflexivity|].
    subst w1. cbn [trace marked printed emitted with_queue with_trace].
    rewrite !marks_app, (marks_no_mark new Hno). cbn. rewrite !app_nil_r. reflexivity.
  - rewrite (dispatch_drop _ _ tag w Ht He H1 H2 H3 (first_pending_exists _ _ Hf)).
    eexists. split; [reflexivity|]. split; [reflexivity|].
    cbn [trace slept marked printed emitted with_clock with_queue with_trace].
    rewrite !marks_app. cbn. rewrite !app_nil_r. reflexivity.
Qed.

(** X6: when the ids of the store are distinct and every pending record is
    consumable (a printable tag that is neither [llm_invoke] nor
    [sourav-producer2], with its [data] entry when it is
    [set_corrective_action]), the watcher drains the store: after as many
    cycles as there are pending records none is pending, no cycle raised, and
    the records were marked in insertion order. *)
Theorem watcher_drains_the_queue (w : world) :
  NoDup (id <$> queue w) ->
  Forall (fun r => is_pending r = true -> consumable r) (queue w) ->
  exists w',
    watch_loop (length (List.filter is_pending (queue w))) w = (Ok tt, w') /\
    no_pending (queue w') /\
    marks (trace w') = marks (trace w) ++ (id <$> List.filter is_pending (queue w)).
Proof.
  remember (length (List.filter is_pending (queue w))) as k eqn:Ek.
  revert w Ek. induction k as [|k IH]; intros w Ek Hnd Hc.
  - exists w. split; [reflexivity|].
    assert (List.filter is_pending (queue w) = []) as E
        by (destruct (List.filter is_pending (queue w)); [reflexivity|discriminate]).
    split; [apply filter_pending_nil; exact E|]. rewrite E, app_nil_r. reflexivity.
  - destruct (get_first_pending_item (queue w)) as [row|] eqn:Hf.
    2:{ apply get_first_pending_item_none, filter_no_pending in Hf.
        rewrite Hf in Ek. discriminate. }
    pose proof Hf as Hspec.
    apply get_first_pending_item_spec in Hspec as (before & after & Eq & Hb & Hr).
    assert (consumable row) as Hrow.
    { rewrite Forall_forall in Hc. apply Hc; [|exact Hr].
      rewrite Eq. apply elem_of_app. right. left. }
    destruct (cycle_consumes w row Hf Hrow) as (w1 & Hcyc & Hq1 & Hm1).
    rewrite Eq in Hq1. rewrite mark_row_unique in Hq1 by (rewrite <- Eq; exact Hnd).
    assert (List.filter is_pending (queue w) = row :: List.filter is_pending after) as Efw.
    { rewrite Eq, List.filter_app, (filter_no_pending before Hb).
      cbn [app List.filter]. rewrite Hr. reflexivity. }
    assert (List.filter is_pending (queue w1) = List.filter is_pending after) as Efw1.
    { rewrite Hq1, List.filter_app, (filter_no_pending before Hb).
      cbn [app List.filter]. reflexivity. }
    destruct (IH w1) as (w' & Hloop & Hnp & Hm).
    + rewrite Efw1. rewrite Efw in Ek. cbn in Ek. congruence.
    + rewrite Hq1. rewrite Eq in Hnd. rewrite fmap_app in Hnd |- *. exact Hnd.
    + rewrite Hq1. rewrite Eq in Hc.
      apply Forall_app in Hc as [Hcb Hca]. apply Forall_cons in Hca as [_ Hca].
      apply Forall_app. split; [exact Hcb|].
      constructor; [discriminate|exact Hca].
    + exists w'. split; [cbn [watch_loop]; rewrite bind_run, Hcyc; exact Hloop|].
      split; [exact Hnp|].
      rewrite Hm, Hm1, Efw1, Efw. cbn [fmap list_fmap]. rewrite <- app_assoc.
      reflexivity.
Qed.

End Drain.

Lemma idle_watcher_keeps_polling_witness :
  no_pending (queue done_world) /\
  exists w',
    watch_loop (H := quiet) 3 done_world = (Ok tt, w') /\
    queue w' = queue done_world /\
    classifier_outputs w' = classifier_outputs done_world /\
    clock w' = (clock done_world + 3 * POLL_INTERVAL)%nat /\
    trace w' = trace done_world ++ concat (replicate 3 [EvPrint NoPendingMessages;
                                                       EvSleep POLL_INTERVAL]).
Proof.
  assert (no_pending (queue done_world)) as H1 by (repeat constructor).
  split; [exact H1|].
  exact (idle_watcher_keeps_polling (H := quiet) 3 done_world H1).
Defined.

Lemma payload_without_tag_ends_cycle_witness :
  let w := one_pending (text_of tagless_task) in
  let row := row_of tagless_task in
  get_first_pending_item (queue w) = Some row /\
  json_loads (data row) = Ok tagless_task /\
  (forall tag, subscript tagless_task (lit "task") <> Ok (PStr tag)) /\
  watch_cycle (H := quiet) w = (Raise (tag_error tagless_task), w) /\
  watch_queue (H := quiet) 1 w
  = (Raise (tag_error tagless_task), printed WatcherStarted w).
Proof.
  intros w row.
  assert (get_first_pending_item (queue w) = Some row) as H1 by reflexivity.
  assert (json_loads (data row) = Ok tagless_task) as H2 by (vm_compute; reflexivity).
  assert (forall tag, subscript tagless_task (lit "task") <> Ok (PStr tag)) as H3
      by (intros tag; vm_compute; discriminate).
  repeat (split; [assumption|]).
  exact (payload_without_tag_ends_cycle (H := quiet) w row tagless_task H1 H2 H3).
Defined.

Lemma corrective_action_without_data_is_lost_witness :
  let w := one_pending (text_of corrective_no_data) in
  let row := row_of corrective_no_data in
  get_first_pending_item (queue w) = Some row /\
  json_loads (data row) = Ok corrective_no_data /\
  subscript corrective_no_data (lit "task") = Ok (PStr (lit "set_corrective_action")) /\
  subscript corrective_no_data (lit "data") = Raise KeyError /\
  watch_cycle (H := quiet) w
  = (Raise KeyError,
     marked (id row) (printed (log_of (lit "set_corrective_action") (id row)) w)) /\
  Forall (fun r => id r = id row -> status r = "processed")
         (queue (watch_cycle (H := quiet) w).2).
Proof.
  intros w row.
  assert (get_first_pending_item (queue w) = Some row) as H1 by reflexivity.
  assert (json_loads (data row) = Ok corrective_no_data) as H2
      by (vm_compute; reflexivity).
  assert (subscript corrective_no_data (lit "task")
          = Ok (PStr (lit "set_corrective_action"))) as H3 by reflexivity.
  assert (subscript corrective_no_data (lit "data") = Raise KeyError) as H4
      by reflexivity.
  repeat (split; [assumption|]).
  exact (corrective_action_without_data_is_lost (H := quiet) w row corrective_no_data
           H1 H2 H3 H4).
Defined.

Lemma llm_invoke_without_data_ends_cycle_witness :
  let w := one_pending (text_of llm_no_data) in
  let row := row_of llm_no_data in
  get_first_pending_item (queue w) = Some row /\
  json_loads (data row) = Ok llm_no_data /\
  subscript llm_no_data (lit "task") = Ok (PStr (lit "llm_invoke")) /\
  subscript llm_no_data (lit "data") = Raise KeyError /\
  Transporter_new (Collaborators := quiet) = Ok tt /\
  watch_cycle (H := quiet) w
  = (Raise KeyError, printed (log_of (lit "llm_invoke") (id row)) w) /\
  get_first_pending_item (queue (watch_cycle (H := quiet) w).2) = Some row.
Proof.
  intros w row.
  assert (get_first_pending_item (queue w) = Some row) as H1 by reflexivity.
  assert (json_loads (data row) = Ok llm_no_data) as H2 by (vm_compute; reflexivity).
  assert (subscript llm_no_data (lit "task") = Ok (PStr (lit "llm_invoke"))) as H3
      by reflexivity.
  assert (subscript llm_no_data (lit "data") = Raise KeyError) as H4 by reflexivity.
  assert (Transporter_new (Collaborators := quiet) = Ok tt) as H5 by reflexivity.
  repeat (split; [assumption|]).
  exact (llm_invoke_without_data_ends_cycle (H := quiet) w row llm_no_data
           H1 H2 H3 H4 H5).
Defined.

Lemma backlog_consumable :
  Forall (fun r => is_pending r = true -> consumable r) (queue backlog).
Proof.
  repeat constructor.
  - discriminate.
  - intros _. exists unknown_task, (lit "unrecognized_xyz").
    split; [vm_compute; reflexivity|]. split; [reflexivity|].
    split; [reflexivity|].
    split; [vm_compute; discriminate|]. split; [vm_compute; discriminate|].
    intros E. vm_compute in E. discriminate.
  - intros _. exists X1_task, (lit "set_corrective_action").
    split; [vm_compute; reflexivity|]. split; [reflexivity|].
    split; [reflexivity|].
    split; [vm_compute; discriminate|]. split; [vm_compute; discriminate|].
    intros _. exists X1_data. reflexivity.
Defined.

Lemma watcher_drains_the_queue_witness :
  NoDup (id <$> queue backlog) /\
  Forall (fun r => is_pending r = true -> consumable r) (queue backlog) /\
  exists w',
    watch_loop (H := quiet) (length (List.filter is_pending (queue backlog))) backlog
    = (Ok tt, w') /\
    no_pending (queue w') /\
    marks (trace w')
    = marks (trace backlog) ++ (id <$> List.filter is_pending (queue backlog)).
Proof.
  assert (NoDup (id <$> queue backlog)) as H1
      by (apply (bool_decide_eq_true_1 (NoDup (id <$> queue backlog)));
          vm_compute; reflexivity).
  pose proof backlog_consumable as H2.
  repeat (split; [assumption|]).
  exact (watcher_drains_the_queue (H := quiet) backlog H1 H2).
Defined.

(** ** The corrective-action handler *)

Lemma lstrip_suffix s : exists p, s = p ++ lstrip s.
Proof.
  induction s as [|c r [p IH]]; [exists []; reflexivity|].
  cbn [lstrip]. destruct (is_space c).
  - exists (c :: p). cbn [app]. f_equal. exact IH.
  - exists []. reflexivity.
Qed.

Lemma lstrip_fixed c r : lstrip (c :: r) = c :: r -> is_space c = false.
Proof.
  cbn [lstrip]. destruct (is_space c); [|reflexivity].
  intros E. destruct (lstrip_suffix r) as [p Hp].
  apply (f_equal (@length N)) in Hp, E. rewrite length_app in Hp.
  cbn [length] in E. lia.
Qed.

Lemma lstrip_idem s : lstrip (lstrip s) = lstrip s.
Proof.
  induction s as [|c r IH]; [reflexivity|].
  cbn [lstrip]. destruct (is_space c) eqn:E; [exact IH|].
  cbn [lstrip]. rewrite E. reflexivity.
Qed.

Lemma strip_stripped s : stripped (strip s).
Proof.
  unfold stripped, strip. rewrite rev_involutive, lstrip_idem.
  split; [|reflexivity].
  destruct (lstrip_suffix (rev (lstrip s))) as [p Hp].
  apply (f_equal (@rev N)) in Hp. rewrite rev_involutive, rev_app_distr in Hp.
  destruct (rev (lstrip (rev (lstrip s)))) as [|c r] eqn:Eu; [reflexivity|].
  cbn [app] in Hp. pose proof (lstrip_idem s) as Hi. rewrite Hp in Hi.
  apply lstrip_fixed in Hi. cbn [lstrip]. rewrite Hi. reflexivity.
Qed.

Section HandlerEdges.
Context `{Collaborators}.


(** X8: a corrective action that fails changes nothing: when
    [process_corrective_action] returns [False], the classifier table, the
    queue and the clock are as before. *)
Theorem failed_corrective_action_changes_nothing (data : pyval) (w w' : world) :
  process_corrective_action data w = (Ok false, w') ->
  classifier_outputs w' = classifier_outputs w /\
  queue w' = queue w /\
  clock w' = clock w.
Proof.
  assert (forall classifier_id query w0,
             process_after_search classifier_id query w0 = (Ok false, w') ->
             classifier_outputs w' = classifier_outputs w0 /\
             queue w' = queue w0 /\ clock w' = clock w0) as Hafter.
  { intros classifier_id query w0. rewrite process_after_search_run.
    destruct (similarity_search query) as [results|e].
    2:{ intros [= <-]. repeat split. }
    cbv zeta. destruct (llm_invoke _) as [response|e].
    2:{ intros [= <-]. repeat split. }
    destruct (encodable (take 100 (strip response))).
    2:{ intros [= <-]. repeat split. }
    rewrite update_corrective_action_db_run.
    destruct sqlite3_connect as [[]|e].
    2:{ intros [= <-]. repeat split. }
    cbv zeta. destruct (bind_parameter (PStr (strip response))) as [ka|e].
    2:{ intros [= <-]. repeat split. }
    destruct (bind_parameter classifier_id) as [key|e].
    2:{ intros [= <-]. repeat split. }
    destruct (Nat.eqb _ 0); [|discriminate].
    intros [= <-]. repeat split. }
  destruct data as [| | | |?|?|d|?]; try (intros [= <-]; repeat split).
  destruct (dict_find d (lit "payload_id")) as [classifier_id|] eqn:Ed.
  - destruct (truthy classifier_id) eqn:Et.
    + rewrite (process_corrective_action_search d classifier_id w Ed Et).
      intros Hp. apply Hafter in Hp. exact Hp.
    + unfold process_corrective_action, process_corrective_action_try, try_except. rewrite !bind_run.
      cbn [lift dict_get]. rewrite Ed. cbn [default]. rewrite !bind_run.
      cbn [lift]. rewrite !bind_run. unfold Datatypes.id. rewrite Et.
      intros [= <-]. repeat split.
  - unfold process_corrective_action, process_corrective_action_try, try_except. rewrite !bind_run.
    cbn [lift dict_get]. rewrite Ed. intros [= <-]. repeat split.
Qed.

(** X9: the successful run.  With a truthy [payload_id] that binds to the
    key of some row, and the vector store, the LLM and the database
    answering, the answer being one that UTF-8 can encode (it holds no
    surrogate), [process_corrective_action] returns [True]; every row of that
    key carries the stripped answer of the LLM and the time of the update,
    every other row is as before, and the trace is the seven effects in
    order. *)
Theorem corrective_action_success
        (d : list (pyval * pyval)) (classifier_id : pyval) (k : pystr)
        (results : list pystr) (response : pystr) (w : world) :
  dict_find d (lit "payload_id") = Some classifier_id ->
  truthy classifier_id = true ->
  bind_parameter classifier_id = Ok (Some k) ->
  similarity_search description = Ok results ->
  llm_invoke (prompt_of description (context_of results)) = Ok response ->
  encodable (strip response) = true ->
  sqlite3_connect = Ok tt ->
  Exists (fun r => payload_id r = k) (classifier_outputs w) ->
  exists w',
    process_corrective_action (PDict d) w = (Ok true, w') /\
    Forall2 (fun r r' =>
               if pystr_eqb (payload_id r) k
               then r' = {| payload_id := payload_id r;
                            corrective_action := Some (strip response);
                            co_processed_at := Some (clock w);
                            co_updated_at := Some (clock w) |}
               else r' = r)
            (classifier_outputs w) (classifier_outputs w') /\
    queue w' = queue w /\
    trace w'
    = trace w ++ [EvPrint (QueryingRag description);
                  EvSimilaritySearch description;
                  EvLlmInvoke (prompt_of description (context_of results));
                  EvPrint (GeneratedAction (take 100 (strip response)));
                  EvUpdateCorrectiveAction classifier_id (strip response);
                  EvPrint (DatabaseUpdated classifier_id);
                  EvPrint (ProcessedOk classifier_id)].
Proof.
  intros Hd Ht Hb Hs Hl He Hc Hk.
  rewrite (process_corrective_action_search d classifier_id w Hd Ht).
  rewrite process_after_search_run. fold description. rewrite Hs. cbv zeta.
  rewrite Hl, (encodable_take _ _ He), update_corrective_action_db_run, Hc.
  cbv zeta. cbn [bind_parameter]. rewrite He, Hb.
  cbn [classifier_outputs printed emitted with_trace].
  rewrite (exists_filter_matches k _ Hk).
  eexists. split; [reflexivity|].
  cbn [classifier_outputs queue trace clock printed emitted with_trace
       with_classifier_outputs].
  split; [|split; [reflexivity|]].
  - clear. induction (classifier_outputs w) as [|r t IH]; [constructor|].
    cbn [fmap list_fmap]. constructor; [|exact IH].
    unfold update_row. destruct (pystr_eqb (payload_id r) k); reflexivity.
  - rewrite <- !app_assoc. reflexivity.
Qed.

(** X10: when the similarity search fails, the LLM is not invoked and no
    update is attempted: the exception is printed by
    [get_corrective_action_from_rag], printed again by
    [process_corrective_action], and the result is [False]. *)
Theorem search_failure_skips_llm_and_update
        (d : list (pyval * pyval)) (classifier_id : pyval) (e : exn) (w : world) :
  dict_find d (lit "payload_id") = Some classifier_id ->
  truthy classifier_id = true ->
  similarity_search description = Raise e ->
  exists w',
    process_corrective_action (PDict d) w = (Ok false, w') /\
    classifier_outputs w' = classifier_outputs w /\
    trace w'
    = trace w ++ [EvPrint (QueryingRag description);
                  EvSimilaritySearch description;
                  EvPrint (RagQueryError e);
                  EvPrint (ProcessingError e)].
Proof.
  intros Hd Ht Hs.
  rewrite (process_corrective_action_search d classifier_id w Hd Ht).
  rewrite process_after_search_run. fold description. rewrite Hs.
  eexists. split; [reflexivity|]. split; [reflexivity|].
  cbn [trace printed emitted with_trace]. rewrite <- !app_assoc. reflexivity.
Qed.

(** X11: data without a usable [payload_id] (not a dictionary, no such
    key, or a falsy value such as [None], [""] or [0]) is rejected before
    any query: the result is [False], and the only effect is the printed
    [AttributeError] or [ValueError]. *)
Theorem missing_payload_id_is_rejected (data : pyval) (w : world) :
  (forall classifier_id,
      dict_get data (lit "payload_id") PNone = Ok classifier_id ->
      truthy classifier_id = false) ->
  exists e,
    (e = ValueError \/ e = AttributeError) /\
    process_corrective_action data w = (Ok false, printed (ProcessingError e) w).
Proof.
  intros Hid. unfold process_corrective_action, process_corrective_action_try, try_except. rewrite !bind_run.
  cbn [lift]. destruct (dict_get data (lit "payload_id") PNone) as [cid|e] eqn:Eg.
  - exists ValueError. split; [left; reflexivity|].
    destruct data; try discriminate. cbn [dict_get]. rewrite !bind_run.
    cbn [lift]. rewrite !bind_run. rewrite (Hid cid eq_refl). reflexivity.
  - exists AttributeError. split; [right; reflexivity|].
    destruct data; cbn [dict_get] in Eg; try discriminate;
      injection Eg as <-; reflexivity.
Qed.

(** X12: an answer of [get_corrective_action_from_rag] is the stripped
    answer of the LLM to the prompt built from the query and the documents
    found: it has no white space at either end. *)
Theorem rag_answer_is_stripped (query : pystr) (w w' : world) (action : pystr) :
  get_corrective_action_from_rag query w = (Ok action, w') ->
  stripped action /\
  exists results response,
    similarity_search query = Ok results /\
    llm_invoke (prompt_of query (context_of results)) = Ok response /\
    action = strip response /\
    trace w' = trace w ++ [EvSimilaritySearch query;
                           EvLlmInvoke (prompt_of query (context_of results))].
Proof.
  unfold get_corrective_action_from_rag, try_except, context_of.
  rewrite !bind_run. cbn [emit]. rewrite !bind_run. unfold lift at 1.
  destruct (similarity_search query) as [results|e]; [|discriminate].
  rewrite !bind_run. cbn [emit]. rewrite !bind_run. unfold lift at 1.
  destruct (llm_invoke _) as [response|e] eqn:El; [|discriminate].
  intros [= <- <-]. split; [apply strip_stripped|].
  exists results, response. split; [reflexivity|]. split; [exact El|].
  split; [reflexivity|].
  cbn [trace with_trace]. rewrite <- !app_assoc. reflexivity.
Qed.

End HandlerEdges.

Lemma failed_corrective_action_changes_nothing_witness :
  let w' := (process_corrective_action (H := quiet) X1_data empty_world).2 in
  process_corrective_action (H := quiet) X1_data empty_world = (Ok false, w') /\
  classifier_outputs w' = classifier_outputs empty_world /\
  queue w' = queue empty_world /\
  clock w' = clock empty_world.
Proof.
  intros w'.
  assert (process_corrective_action (H := quiet) X1_data empty_world = (Ok false, w'))
    as H1 by (vm_compute; reflexivity).
  split; [exact H1|].
  exact (failed_corrective_action_changes_nothing (H := quiet)
           X1_data empty_world w' H1).
Defined.

Lemma corrective_action_success_witness :
  let d := [(PStr (lit "payload_id"), PStr (lit "X1"))] in
  let response := lit " Restart the service. " in
  dict_find d (lit "payload_id") = Some (PStr (lit "X1")) /\
  truthy (PStr (lit "X1")) = true /\
  bind_parameter (PStr (lit "X1")) = Ok (Some (lit "X1")) /\
  similarity_search (Collaborators := quiet) description = Ok [] /\
  llm_invoke (Collaborators := quiet) (prompt_of description (context_of []))
  = Ok response /\
  encodable (strip response) = true /\
  sqlite3_connect (Collaborators := quiet) = Ok tt /\
  Exists (fun r => payload_id r = lit "X1") (classifier_outputs classified) /\
  exists w',
    process_corrective_action (H := quiet) (PDict d) classified = (Ok true, w') /\
    Forall2 (fun r r' =>
               if pystr_eqb (payload_id r) (lit "X1")
               then r' = {| payload_id := payload_id r;
                            corrective_action := Some (strip response);
                            co_processed_at := Some (clock classified);
                            co_updated_at := Some (clock classified) |}
               else r' = r)
            (classifier_outputs classified) (classifier_outputs w') /\
    queue w' = queue classified /\
    trace w'
    = trace classified
      ++ [EvPrint (QueryingRag description);
          EvSimilaritySearch description;
          EvLlmInvoke (prompt_of description (context_of []));
          EvPrint (GeneratedAction (take 100 (strip response)));
          EvUpdateCorrectiveAction (PStr (lit "X1")) (strip response);
          EvPrint (DatabaseUpdated (PStr (lit "X1")));
          EvPrint (ProcessedOk (PStr (lit "X1")))].
Proof.
  intros d response.
  assert (dict_find d (lit "payload_id") = Some (PStr (lit "X1"))) as H1
      by reflexivity.
  assert (truthy (PStr (lit "X1")) = true) as H2 by reflexivity.
  assert (bind_parameter (PStr (lit "X1")) = Ok (Some (lit "X1"))) as H3
      by reflexivity.
  assert (similarity_search (Collaborators := quiet) description = Ok []) as H4
      by reflexivity.
  assert (llm_invoke (Collaborators := quiet) (prompt_of description (context_of []))
          = Ok response) as H5 by reflexivity.
  assert (encodable (strip response) = true) as He by reflexivity.
  assert (sqlite3_connect (Collaborators := quiet) = Ok tt) as H6 by reflexivity.
  assert (Exists (fun r => payload_id r = lit "X1") (classifier_outputs classified))
    as H7 by (left; reflexivity).
  repeat (split; [assumption|]).
  exact (corrective_action_success (H := quiet) d (PStr (lit "X1")) (lit "X1")
           [] response classified H1 H2 H3 H4 H5 He H6 H7).
Defined.

Lemma search_failure_skips_llm_and_update_witness :
  let d := [(PStr (lit "payload_id"), PStr (lit "X1"))] in
  dict_find d (lit "payload_id") = Some (PStr (lit "X1")) /\
  truthy (PStr (lit "X1")) = true /\
  similarity_search (Collaborators := no_store) description = Raise (External 3) /\
  exists w',
    process_corrective_action (H := no_store) (PDict d) classified = (Ok false, w') /\
    classifier_outputs w' = classifier_outputs classified /\
    trace w'
    = trace classified
      ++ [EvPrint (QueryingRag description);
          EvSimilaritySearch description;
          EvPrint (RagQueryError (External 3));
          EvPrint (ProcessingError (External 3))].
Proof.
  intros d.
  assert (dict_find d (lit "payload_id") = Some (PStr (lit "X1"))) as H1
      by reflexivity.
  assert (truthy (PStr (lit "X1")) = true) as H2 by reflexivity.
  assert (similarity_search (Collaborators := no_store) description
          = Raise (External 3)) as H3 by reflexivity.
  repeat (split; [assumption|]).
  exact (search_failure_skips_llm_and_update (H := no_store) d (PStr (lit "X1"))
           (External 3) classified H1 H2 H3).
Defined.

Lemma missing_payload_id_is_rejected_witness :
  let data := PDict [(PStr (lit "payload_id"), PStr [])] in
  (forall classifier_id,
      dict_get data (lit "payload_id") PNone = Ok classifier_id ->
      truthy classifier_id = false) /\
  exists e,
    (e = ValueError \/ e = AttributeError) /\
    process_corrective_action (H := quiet) data classified
    = (Ok false, printed (ProcessingError e) classified).
Proof.
  intros data.
  assert (forall classifier_id,
             dict_get data (lit "payload_id") PNone = Ok classifier_id ->
             truthy classifier_id = false) as H1
      by (intros classifier_id [= <-]; reflexivity).
  split; [exact H1|].
  exact (missing_payload_id_is_rejected (H := quiet) data classified H1).
Defined.

Lemma rag_answer_is_stripped_witness :
  let w' := (get_corrective_action_from_rag (H := quiet) description empty_world).2 in
  let action := lit "Restart the service." in
  get_corrective_action_from_rag (H := quiet) description empty_world
  = (Ok action, w') /\
  stripped action /\
  exists results response,
    similarity_search (Collaborators := quiet) description = Ok results /\
    llm_invoke (Collaborators := quiet) (prompt_of description (context_of results))
    = Ok response /\
    action = strip response /\
    trace w' = trace empty_world
               ++ [EvSimilaritySearch description;
                   EvLlmInvoke (prompt_of description (context_of results))].
Proof.
  intros w' action.
  assert (get_corrective_action_from_rag (H := quiet) description empty_world
          = (Ok action, w')) as H1 by (vm_compute; reflexivity).
  split; [exact H1|].
  exact (rag_answer_is_stripped (H := quiet) description empty_world w' action H1).
Defined.

(** ** The queue: statistics, stored text, delivery *)

Lemma sum_bump st groups :
  sum_list (bump st groups).*2 = S (sum_list groups.*2).
Proof.
  induction groups as [|[s n] rest IH]; [reflexivity|].
  cbn [bump]. destruct (String.eqb s st); rewrite !fmap_cons; cbn [snd sum_list].
  - reflexivity.
  - rewrite IH. lia.
Qed.

Lemma sum_group_by_status q :
  sum_list (raw_execute_group_by_status q).*2 = length q.
Proof.
  unfold raw_execute_group_by_status.
  induction q as [|r q IH] using rev_ind; [reflexivity|].
  rewrite fold_left_app. cbn [fold_left]. rewrite sum_bump, IH, length_app.
  cbn [length]. lia.
Qed.

Lemma total_insert s n (m : gmap string nat) :
  m !! s = None -> total (<[s := n]> m) = (n + total m)%nat.
Proof.
  intros Hs. unfold total.
  rewrite (map_fold_insert_L (fun (_ : string) (n acc : nat) => (n + acc)%nat)
             0%nat s n m); [reflexivity| |exact Hs].
  intros. lia.
Qed.

Lemma total_stats_dict (items : list (string * nat)) (m : gmap string nat) :
  NoDup items.*1 ->
  Forall (fun s => m !! s = None) items.*1 ->
  total (fold_left (fun stats row => <[row.1 := row.2]> stats) items m)
  = (sum_list items.*2 + total m)%nat.
Proof.
  revert m. induction items as [|[s n] rest IH]; intros m Hnd Hm; [reflexivity|].
  cbn [fmap list_fmap fst snd] in Hnd, Hm.
  apply NoDup_cons in Hnd as [Hs Hnd]. apply Forall_cons in Hm as [Hms Hm].
  cbn [fold_left fst snd]. rewrite IH.
  - rewrite total_insert by exact Hms. rewrite (fmap_cons snd).
    cbn [snd sum_list]. unfold Datatypes.id. lia.
  - exact Hnd.
  - rewrite Forall_forall in Hm |- *. intros k Hk.
    rewrite lookup_insert_ne; [apply Hm; exact Hk|].
    intros ->. apply Hs. exact Hk.
Qed.

Lemma hexdigit_printable d : d < 16 -> printable (hexdigit d).
Proof. unfold hexdigit, printable. destruct (N.ltb_spec d 10); lia. Qed.

Lemma hex4_printable n : Forall printable (hex4 n).
Proof.
  unfold hex4. repeat constructor; apply hexdigit_printable;
    apply N.mod_lt; discriminate.
Qed.

Lemma encode_char_printable c : Forall printable (encode_char c).
Proof.
  unfold encode_char.
  repeat match goal with
         | |- Forall _ (if ?b then _ else _) => destruct b eqn:?
         end;
    try (repeat constructor; unfold printable; lia).
  - constructor; [|constructor]. unfold printable.
    apply andb_prop in Heqb6 as [H1 H2].
    apply N.leb_le in H1, H2. lia.
  - constructor; [unfold printable; lia|].
    constructor; [unfold printable; lia|]. apply hex4_printable.
  - cbv zeta. apply Forall_app. split;
      (constructor; [unfold printable; lia|];
       constructor; [unfold printable; lia|]; apply hex4_printable).
Qed.

Lemma encode_basestring_ascii_printable s :
  Forall printable (encode_basestring_ascii s).
Proof.
  unfold encode_basestring_ascii. apply Forall_app. split.
  - repeat constructor; unfold printable; lia.
  - apply Forall_app. split; [|repeat constructor; unfold printable; lia].
    induction s as [|c r IH]; [constructor|].
    cbn [fmap list_fmap concat]. apply Forall_app. split;
      [apply encode_char_printable|exact IH].
Qed.

Lemma uint_chars_printable u : Forall printable (uint_chars u).
Proof.
  induction u; cbn [uint_chars]; [constructor|..];
    (constructor; [unfold printable; lia|assumption]).
Qed.

Lemma int_repr_printable z : Forall printable (int_repr z).
Proof.
  unfold int_repr. destruct (Z.to_int z).
  - apply uint_chars_printable.
  - constructor; [unfold printable; lia|apply uint_chars_printable].
Qed.

Lemma join_printable sep items :
  Forall printable sep -> Forall (Forall printable) items ->
  Forall printable (join sep items).
Proof.
  intros Hs. induction 1 as [|x rest Hx _ IH]; [constructor|].
  cbn [join]. destruct rest as [|y rest]; [exact Hx|].
  apply Forall_app. split; [exact Hx|]. apply Forall_app. split; assumption.
Qed.

Lemma exc_mapM_Forall {A B} (f : A -> exc B) (P : B -> Prop) l ys :
  Forall (fun x => forall y, f x = Ok y -> P y) l ->
  exc_mapM f l = Ok ys -> Forall P ys.
Proof.
  intros Hl. revert ys. induction Hl as [|x l Hx _ IH]; intros ys.
  - intros [= <-]. constructor.
  - cbn [exc_mapM]. destruct (f x) as [y|e] eqn:Ey; [|discriminate].
    exc_simpl. fold (exc_mapM f l).
    destruct (exc_mapM f l) as [ys'|e]; [|discriminate].
    exc_simpl. intros [= <-]. constructor; [apply Hx; reflexivity|apply IH; reflexivity].
Qed.

Lemma lit_printable_sep : Forall printable (lit ", ").
Proof. repeat constructor; unfold printable; vm_compute; intuition discriminate. Qed.

Lemma item_printable ks vs :
  Forall printable vs ->
  Forall printable (encode_basestring_ascii ks ++ lit ": " ++ vs).
Proof.
  intros Hv. apply Forall_app. split; [apply encode_basestring_ascii_printable|].
  apply Forall_app. split; [|exact Hv].
  repeat constructor; unfold printable; vm_compute; intuition discriminate.
Qed.

Lemma json_dumps_printable v text :
  json_dumps v = Ok text -> Forall printable text.
Proof.
  unfold json_dumps. revert text.
  induction v as [| b | z | s | l IHl | l IHl | d IHd | n] using pyval_nested_ind;
    intros text; cbn [encode].
  - intros [= <-]. repeat constructor; unfold printable; vm_compute;
      intuition discriminate.
  - destruct b; intros [= <-]; repeat constructor; unfold printable; vm_compute;
      intuition discriminate.
  - unfold int_str. destruct (MAX_STR_DIGITS <? int_digits z)%nat; [discriminate|].
    intros [= <-]. apply int_repr_printable.
  - intros [= <-]. apply encode_basestring_ascii_printable.
  - destruct (exc_mapM encode l) as [items|e] eqn:Ei; [|discriminate].
    exc_simpl. intros [= <-]. change (?a :: ?l) with ([a] ++ l).
    apply Forall_app. split; [repeat constructor; unfold printable; lia|].
    apply Forall_app. split; [|repeat constructor; unfold printable; lia].
    apply join_printable; [apply lit_printable_sep|].
    eapply exc_mapM_Forall; [|exact Ei]. exact IHl.
  - destruct (exc_mapM encode l) as [items|e] eqn:Ei; [|discriminate].
    exc_simpl. intros [= <-]. change (?a :: ?l) with ([a] ++ l).
    apply Forall_app. split; [repeat constructor; unfold printable; lia|].
    apply Forall_app. split; [|repeat constructor; unfold printable; lia].
    apply join_printable; [apply lit_printable_sep|].
    eapply exc_mapM_Forall; [|exact Ei]. exact IHl.
  - match goal with |- context [exc_mapM ?f d] =>
      destruct (exc_mapM f d) as [items|e] eqn:Ei; [|discriminate] end.
    exc_simpl. intros [= <-]. change (?a :: ?l) with ([a] ++ l).
    apply Forall_app. split; [repeat constructor; unfold printable; lia|].
    apply Forall_app. split; [|repeat constructor; unfold printable; lia].
    apply join_printable; [apply lit_printable_sep|].
    eapply exc_mapM_Forall; [|exact Ei].
    eapply Forall_impl; [exact IHd|]. intros [k x] [_ Hx] y. cbn [fst snd] in *.
    destruct (encode_key k) as [ks|e] eqn:Ek; [|discriminate]. exc_simpl.
    destruct (encode x) as [vs|e] eqn:Ev; [|discriminate]. exc_simpl.
    intros [= <-]. apply (item_printable ks vs). apply Hx. reflexivity.
  - discriminate.
Qed.

Lemma filter_fresh mid q :
  fresh mid q -> List.filter (fun r => pystr_eqb (id r) mid) q = [].
Proof.
  induction 1 as [|r q Hr _ IH]; [reflexivity|].
  cbn [List.filter]. apply pystr_eqb_neq in Hr. rewrite Hr. exact IH.
Qed.

Section QueueEdges.
Context `{Collaborators}.

(** X13: for every store, [get_stats] returns the dictionary that has
    exactly the statuses present as keys, each with the number of its
    records (a status without records is no key, not a zero), and the
    counts add up to the number of records; the store is not changed. *)
Theorem get_stats_counts (w : world) :
  exists stats,
    get_stats w = (Ok stats, w) /\
    (forall st n, stats !! st = Some n <->
                  n = count_status st (queue w) /\ (0 < n)%nat) /\
    total stats = length (queue w).
Proof.
  destruct (get_stats_lookup w) as (stats & Hs & Hl).
  exists stats. split; [exact Hs|]. split.
  - intros st n. rewrite Hl.
    destruct (Nat.eqb (count_status st (queue w)) 0) eqn:E.
    + apply Nat.eqb_eq in E. split; [discriminate|]. lia.
    + apply Nat.eqb_neq in E. split; [intros [= <-]; lia|].
      intros [-> _]. reflexivity.
  - injection Hs as <-.
    rewrite total_stats_dict.
    + rewrite sum_group_by_status. unfold total. rewrite map_fold_empty. lia.
    + apply group_by_status_NoDup.
    + apply Forall_forall. intros s _. apply lookup_empty.
Qed.

(** X14: what [enqueue] stores is printable ASCII: when it returns, one
    pending record was appended under the returned id, its text is the
    [json.dumps] of the payload, and every character of the text is between
    the space and the tilde. *)
Theorem enqueue_stores_printable_ascii
        (payload : pyval) (w w' : world) (item_id : pystr) :
  enqueue payload w = (Ok item_id, w') ->
  exists text,
    json_dumps payload = Ok text /\
    queue w' = queue w ++ [new_row item_id text (clock w)] /\
    Forall printable text.
Proof.
  unfold enqueue. rewrite !bind_run. unfold draw_uuid4 at 1.
  rewrite !bind_run. unfold lift at 1.
  destruct (json_dumps payload) as [text|e] eqn:Et; [|discriminate].
  rewrite !bind_run. unfold raw_execute_insert.
  cbn [queue with_draws clock trace].
  destruct (existsb _ (queue w)); [discriminate|].
  intros [= <- <-]. exists text. split; [reflexivity|].
  split; [reflexivity|]. eapply json_dumps_printable. exact Et.
Qed.

(** X15: a new record does not overtake: when a record is pending,
    [enqueue] leaves it the first pending one, and all the records that were
    there are as before. *)
Theorem enqueue_keeps_first_pending
        (payload : pyval) (w w' : world) (item_id : pystr) (row : qrow) :
  get_first_pending_item (queue w) = Some row ->
  enqueue payload w = (Ok item_id, w') ->
  get_first_pending_item (queue w') = Some row /\
  take (length (queue w)) (queue w') = queue w /\
  length (queue w') = S (length (queue w)).
Proof.
  intros Hf. unfold enqueue. rewrite !bind_run. unfold draw_uuid4 at 1.
  rewrite !bind_run. unfold lift at 1.
  destruct (json_dumps payload) as [text|e]; [|discriminate].
  rewrite !bind_run. unfold raw_execute_insert.
  cbn [queue with_draws clock trace].
  destruct (existsb _ (queue w)); [discriminate|].
  intros [= <- <-]. cbn [queue with_queue].
  split; [|split].
  - apply get_first_pending_item_spec in Hf as (before & after & E & Hb & Hr).
    apply get_first_pending_item_spec. eexists before, (after ++ [_]).
    split; [|split; assumption]. rewrite E, <- app_assoc. reflexivity.
  - rewrite take_app_length. reflexivity.
  - rewrite length_app. cbn [length]. lia.
Qed.

(** X16: what is enqueued under [llm_invoke] is what the agent pipeline
    receives.  On a store without pending records, enqueueing a task
    [{"task": "llm_invoke", "data": d}] that is representable within the
    limits of the interpreter and running one cycle hands exactly [d] to
    [Transporter.process]; the cycle ends as that call ends, and either way
    the record is still pending afterwards. *)
Theorem enqueued_llm_invoke_reaches_pipeline (d : pyval) (w : world) :
  is_json (task_payload (lit "llm_invoke") d) = true ->
  no_pending (queue w) ->
  fresh (uuid4 (draws w)) (queue w) ->
  Transporter_new = Ok tt ->
  let mid := uuid4 (draws w) in
  exists w1,
    enqueue (task_payload (lit "llm_invoke") d) w = (Ok mid, w1) /\
    watch_cycle w1
    = match Transporter_process d with
      | Ok _ => (Ok tt, slept (emitted (EvTransporter d)
                                 (printed (log_of (lit "llm_invoke") mid) w1)))
      | Raise e => (Raise e, emitted (EvTransporter d)
                               (printed (log_of (lit "llm_invoke") mid) w1))
      end /\
    status_of mid (queue (watch_cycle w1).2) = ["pending"].
Proof.
  intros Hj Hp Hf Hn mid.
  destruct (json_loads_dumps _ Hj) as (text & Ht & Hl).
  rewrite (enqueue_ok _ text w Ht Hf). eexists. split; [reflexivity|].
  set (row := new_row mid text (clock w)).
  set (w1 := with_queue _ _).
  assert (get_first_pending_item (queue w1) = Some row) as Hfirst.
  { apply get_first_pending_item_spec. exists (queue w), [].
    split; [reflexivity|]. split; [exact Hp|reflexivity]. }
  rewrite (watch_cycle_fetch w1 row _ Hfirst Hl).
  rewrite (dispatch_llm_invoke (id row) (task_payload (lit "llm_invoke") d) d w1
             eq_refl eq_refl Hn).
  change (id row) with mid.
  split; [reflexivity|].
  assert (status_of mid (queue w1) = ["pending"]) as Hst.
  { unfold status_of. subst w1. cbn [queue with_queue].
    rewrite List.filter_app. cbn [List.filter id row new_row].
    rewrite pystr_eqb_refl.
    rewrite (filter_fresh mid (queue w) Hf). reflexivity. }
  destruct (Transporter_process d); exact Hst.
Qed.

End QueueEdges.

Lemma enqueue_stores_printable_ascii_witness :
  let payload := task_payload (lit "llm_invoke") (PStr [99; 97; 102; 233]) in
  let w' := (enqueue (H := quiet) payload empty_world).2 in
  enqueue (H := quiet) payload empty_world = (Ok (lit "id-0"), w') /\
  exists text,
    json_dumps payload = Ok text /\
    queue w' = queue empty_world ++ [new_row (lit "id-0") text (clock empty_world)] /\
    Forall printable text.
Proof.
  intros payload w'.
  assert (enqueue (H := quiet) payload empty_world = (Ok (lit "id-0"), w')) as H1
      by (vm_compute; reflexivity).
  split; [exact H1|].
  exact (enqueue_stores_printable_ascii (H := quiet) payload empty_world w'
           (lit "id-0") H1).
Defined.

Lemma enqueue_keeps_first_pending_witness :
  let w := one_pending (text_of unknown_task) in
  let row := row_of unknown_task in
  let w' := (enqueue (H := quiet) llm_task w).2 in
  get_first_pending_item (queue w) = Some row /\
  enqueue (H := quiet) llm_task w = (Ok (lit "id-1"), w') /\
  get_first_pending_item (queue w') = Some row /\
  take (length (queue w)) (queue w') = queue w /\
  length (queue w') = S (length (queue w)).
Proof.
  intros w row w'.
  assert (get_first_pending_item (queue w) = Some row) as H1 by reflexivity.
  assert (enqueue (H := quiet) llm_task w = (Ok (lit "id-1"), w')) as H2
      by (vm_compute; reflexivity).
  split; [exact H1|]. split; [exact H2|].
  exact (enqueue_keeps_first_pending (H := quiet) llm_task w w' (lit "id-1") row
           H1 H2).
Defined.

Lemma enqueued_llm_invoke_reaches_pipeline_witness :
  let d := PStr (text_of approved_record) in
  let w := empty_world in
  is_json (task_payload (lit "llm_invoke") d) = true /\
  no_pending (queue w) /\
  fresh (uuid4 (Collaborators := quiet) (draws w)) (queue w) /\
  Transporter_new (Collaborators := quiet) = Ok tt /\
  let mid := uuid4 (Collaborators := quiet) (draws w) in
  exists w1,
    enqueue (H := quiet) (task_payload (lit "llm_invoke") d) w = (Ok mid, w1) /\
    watch_cycle (H := quiet) w1
    = match Transporter_process (Collaborators := quiet) d with
      | Ok _ => (Ok tt, slept (emitted (EvTransporter d)
                                 (printed (log_of (lit "llm_invoke") mid) w1)))
      | Raise e => (Raise e, emitted (EvTransporter d)
                               (printed (log_of (lit "llm_invoke") mid) w1))
      end /\
    status_of mid (queue (watch_cycle (H := quiet) w1).2) = ["pending"].
Proof.
  intros d w.
  assert (is_json (task_payload (lit "llm_invoke") d) = true) as H1
      by (vm_compute; reflexivity).
  assert (no_pending (queue w)) as H2 by constructor.
  assert (fresh (uuid4 (Collaborators := quiet) (draws w)) (queue w)) as H3
      by constructor.
  assert (Transporter_new (Collaborators := quiet) = Ok tt) as H4 by reflexivity.
  repeat (split; [assumption|]).
  exact (enqueued_llm_invoke_reaches_pipeline (H := quiet) d w H1 H2 H3 H4).
Defined.

(** ** Redelivery *)

Lemma deliveries_app t1 t2 : deliveries (t1 ++ t2) = deliveries t1 ++ deliveries t2.
Proof. unfold deliveries. apply omap_app. Qed.

Lemma llm_cycles_queue n mid d w : queue (Nat.iter n (llm_cycle mid d) w) = queue w.
Proof. induction n as [|n IH]; [reflexivity|exact IH]. Qed.

Lemma llm_cycles_clock n mid d w :
  clock (Nat.iter n (llm_cycle mid d) w) = (clock w + n * POLL_INTERVAL)%nat.
Proof.
  induction n as [|n IH]; [cbn; lia|].
  change (clock (Nat.iter (S n) (llm_cycle mid d) w))
    with (clock (Nat.iter n (llm_cycle mid d) w) + POLL_INTERVAL)%nat.
  rewrite IH. unfold POLL_INTERVAL. lia.
Qed.

Lemma llm_cycles_deliveries n mid d w :
  deliveries (trace (Nat.iter n (llm_cycle mid d) w))
  = deliveries (trace w) ++ replicate n d.
Proof.
  induction n as [|n IH]; [cbn; rewrite app_nil_r; reflexivity|].
  change (trace (Nat.iter (S n) (llm_cycle mid d) w))
    with (((trace (Nat.iter n (llm_cycle mid d) w)
            ++ [EvPrint (log_of (lit "llm_invoke") mid)])
           ++ [EvTransporter d]) ++ [EvSleep POLL_INTERVAL]).
  rewrite !deliveries_app, IH.
  change (deliveries [EvPrint (log_of (lit "llm_invoke") mid)]) with (@nil pyval).
  change (deliveries [EvTransporter d]) with [d].
  change (deliveries [EvSleep POLL_INTERVAL]) with (@nil pyval).
  rewrite !app_nil_r, <- app_assoc. f_equal.
  change [d] with (replicate 1 d). rewrite <- replicate_add.
  f_equal. lia.
Qed.

Section Redelivery.
Context `{Collaborators}.

(** X17: an [llm_invoke] record that the agent pipeline accepts is never
    marked, so it is delivered again in every cycle and the records behind
    it are never reached: after any number [n] of cycles the loop is still
    running, the table is as it was, the record is still the first pending
    one, and [Transporter.process] received its data [n] times. *)
Theorem llm_invoke_record_is_redelivered
        (n : nat) (w : world) (row : qrow) (payload d : pyval) :
  get_first_pending_item (queue w) = Some row ->
  json_loads (data row) = Ok payload ->
  subscript payload (lit "task") = Ok (PStr (lit "llm_invoke")) ->
  subscript payload (lit "data") = Ok d ->
  Transporter_new = Ok tt ->
  Transporter_process d = Ok tt ->
  exists wn,
    watch_loop n w = (Ok tt, wn) /\
    queue wn = queue w /\
    get_first_pending_item (queue wn) = Some row /\
    deliveries (trace wn) = deliveries (trace w) ++ replicate n d /\
    clock wn = (clock w + n * POLL_INTERVAL)%nat.
Proof.
  intros Hf Hl Ht Hd Hn Hp. exists (Nat.iter n (llm_cycle (id row) d) w).
  split; [|split; [apply llm_cycles_queue|split;
                   [rewrite llm_cycles_queue; exact Hf|split;
                    [apply llm_cycles_deliveries|apply llm_cycles_clock]]]].
  revert w Hf. induction n as [|n IH]; intros w Hf; [reflexivity|].
  cbn [watch_loop]. rewrite bind_run.
  rewrite (watch_cycle_fetch w row payload Hf Hl).
  rewrite (dispatch_llm_invoke _ _ d w Ht Hd Hn), Hp.
  fold (llm_cycle (id row) d w). rewrite IH by exact Hf.
  rewrite Nat.iter_succ_r. reflexivity.
Qed.

End Redelivery.

Lemma llm_invoke_record_is_redelivered_witness :
  let w := one_pending (text_of llm_task) in
  let row := row_of llm_task in
  let d := PDict [(PStr (lit "query"), PStr (lit "status"))] in
  get_first_pending_item (queue w) = Some row /\
  json_loads (data row) = Ok llm_task /\
  subscript llm_task (lit "task") = Ok (PStr (lit "llm_invoke")) /\
  subscript llm_task (lit "data") = Ok d /\
  Transporter_new (Collaborators := quiet) = Ok tt /\
  Transporter_process (Collaborators := quiet) d = Ok tt /\
  exists wn,
    watch_loop (H := quiet) 3 w = (Ok tt, wn) /\
    queue wn = queue w /\
    get_first_pending_item (queue wn) = Some row /\
    deliveries (trace wn) = deliveries (trace w) ++ replicate 3 d /\
    clock wn = (clock w + 3 * POLL_INTERVAL)%nat.
Proof.
  intros w row d.
  assert (get_first_pending_item (queue w) = Some row) as H1 by reflexivity.
  assert (json_loads (data row) = Ok llm_task) as H2 by (vm_compute; reflexivity).
  assert (subscript llm_task (lit "task") = Ok (PStr (lit "llm_invoke"))) as H3
      by reflexivity.
  assert (subscript llm_task (lit "data") = Ok d) as H4 by reflexivity.
  assert (Transporter_new (Collaborators := quiet) = Ok tt) as H5 by reflexivity.
  assert (Transporter_process (Collaborators := quiet) d = Ok tt) as H6
      by reflexivity.
  split; [exact H1|]. split; [exact H2|]. split; [exact H3|]. split; [exact H4|].
  split; [exact H5|]. split; [exact H6|].
  exact (llm_invoke_record_is_redelivered (H := quiet) 3 w row llm_task d
           H1 H2 H3 H4 H5 H6).
Defined.

(** ** What the standard output and the database cannot encode *)

Section Unencodable.
Context `{Collaborators}.


(** X19: an answer of the LLM that UTF-8 cannot encode is not stored: with
    the vector store, the LLM and the database answering, the
    [UnicodeEncodeError] of the generated-action line or of the binding of
    the action is caught, the result is [False], the classifier table is as
    before, and the error was printed last. *)
Theorem unencodable_answer_is_rejected
        (d : list (pyval * pyval)) (classifier_id : pyval)
        (results : list pystr) (response : pystr) (w : world) :
  dict_find d (lit "payload_id") = Some classifier_id ->
  truthy classifier_id = true ->
  similarity_search description = Ok results ->
  llm_invoke (prompt_of description (context_of results)) = Ok response ->
  encodable (strip response) = false ->
  sqlite3_connect = Ok tt ->
  exists w' t,
    process_corrective_action (PDict d) w = (Ok false, w') /\
    classifier_outputs w' = classifier_outputs w /\
    trace w' = trace w ++ t ++ [EvPrint (ProcessingError UnicodeEncodeError)].
Proof.
  intros Hd Ht Hs Hl He Hc.
  rewrite (process_corrective_action_search d classifier_id w Hd Ht).
  rewrite process_after_search_run. fold description. rewrite Hs. cbv zeta.
  rewrite Hl. destruct (encodable (take 100 (strip response))).
  - rewrite update_corrective_action_db_run, Hc. cbv zeta.
    cbn [bind_parameter]. rewrite He.
    eexists _, [_; _; _; _; _; _]. split; [reflexivity|]. split; [reflexivity|].
    cbn [trace printed emitted with_trace with_classifier_outputs].
    rewrite <- !app_assoc. reflexivity.
  - eexists _, [_; _; _]. split; [reflexivity|]. split; [reflexivity|].
    cbn [trace printed emitted with_trace]. rewrite <- !app_assoc. reflexivity.
Qed.

End Unencodable.


Lemma unencodable_answer_is_rejected_witness :
  let d := [(PStr (lit "payload_id"), PStr (lit "X1"))] in
  let response := lit "Restart " ++ [55296] in
  dict_find d (lit "payload_id") = Some (PStr (lit "X1")) /\
  truthy (PStr (lit "X1")) = true /\
  similarity_search (Collaborators := garbled) description = Ok [] /\
  llm_invoke (Collaborators := garbled) (prompt_of description (context_of []))
  = Ok response /\
  encodable (strip response) = false /\
  sqlite3_connect (Collaborators := garbled) = Ok tt /\
  exists w' t,
    process_corrective_action (H := garbled) (PDict d) classified = (Ok false, w') /\
    classifier_outputs w' = classifier_outputs classified /\
    trace w' = trace classified ++ t ++ [EvPrint (ProcessingError UnicodeEncodeError)].
Proof.
  intros d response.
  assert (dict_find d (lit "payload_id") = Some (PStr (lit "X1"))) as H1
      by reflexivity.
  assert (truthy (PStr (lit "X1")) = true) as H2 by reflexivity.
  assert (similarity_search (Collaborators := garbled) description = Ok []) as H3
      by reflexivity.
  assert (llm_invoke (Collaborators := garbled)
            (prompt_of description (context_of [])) = Ok response) as H4
      by reflexivity.
  assert (encodable (strip response) = false) as H5 by reflexivity.
  assert (sqlite3_connect (Collaborators := garbled) = Ok tt) as H6 by reflexivity.
  split; [exact H1|]. split; [exact H2|]. split; [exact H3|]. split; [exact H4|].
  split; [exact H5|]. split; [exact H6|].
  exact (unencodable_answer_is_rejected (H := garbled) d (PStr (lit "X1")) []
           response classified H1 H2 H3 H4 H5 H6).
Defined.
